(** * neuroconv-kpms: the changepoint extractor and the intracellular
      recording assembler

    A shallow embedding of
    - [dense_syllables_to_events]
      (datainterfaces/behavior/keypointmoseq/kpms_utils.py), and
    - [get_conversion_from_unit], [add_icephys_electrode] and
      [add_icephys_recordings] (tools/neo/neo.py),
    followed by the properties their specification states; then of
    - [get_nwb_metadata], [add_all_to_nwbfile] and [write_neo_to_nwb]
      (tools/neo/neo.py),
    - the syllable events of [write_subject_to_nwb] (kpms_utils.py) and the
      skeleton of [KeypointMoseqSubjectInterface.add_to_nwbfile]
      (keypointmoseqdatainterface.py), and
    - [SpikeGLXConverter.get_streams] and [SpikeGLXConverter.__init__]
      (datainterfaces/ecephys/spikeglx/spikeglxconverter.py),
    followed by properties that the code itself shows.

    Python code that mutates the container and the metadata dictionary is a
    state transformer that returns a value or raises; what was written before
    an exception stays written. *)

From Stdlib Require Import String Ascii List ZArith Lia Bool Arith Sorted.
From Stdlib Require Import Floats.PrimFloat DecimalString DecimalNat RelationClasses.
Import ListNotations.
Set Warnings "-inexact-float".

(** * kpms_utils.py *)

Module Kpms.
Open Scope Z_scope.

(** NumPy on one-dimensional integer arrays. *)

(** [a[1:]] *)
Definition slice_from_1 {A} (a : list A) : list A := tl a.

(** [a[:-1]] *)
Definition slice_to_last {A} (a : list A) : list A := removelast a.

(** [a != b], element by element, on arrays of one shape *)
Definition not_equal (a b : list Z) : list bool :=
  map (fun p => negb (fst p =? snd p)) (combine a b).

Fixpoint where_from (k : nat) (mask : list bool) : list nat :=
  match mask with
  | [] => []
  | true :: m => k :: where_from (S k) m
  | false :: m => where_from (S k) m
  end.

(** [np.where(mask)[0]]: the positions that hold True *)
Definition np_where (mask : list bool) : list nat := where_from 0 mask.

(** [a[ixs]] for an array of non-negative indices; IndexError is [None] *)
Fixpoint take (a : list Z) (ixs : list nat) : option (list Z) :=
  match ixs with
  | [] => Some []
  | i :: r =>
      match nth_error a i, take a r with
      | Some v, Some vs => Some (v :: vs)
      | _, _ => None
      end
  end.

Definition dense_syllables_to_events (syllables : list Z)
  : option (list nat * list Z) :=
  let changepoints :=
    np_where (not_equal (slice_from_1 syllables) (slice_to_last syllables)) in
  match take syllables changepoints with
  | Some labels => Some (changepoints, labels)
  | None => None
  end.

End Kpms.

(** * tools/neo/neo.py *)

Module Neo.
#[local] Open Scope string_scope.

(** ** Python values *)

Inductive Exception : Type :=
| AssertionError (msg : string)
| TypeError
| KeyError (key : string)
| IndexError
| AttributeError
| ValueError (msg : string).

Inductive Warning : Type :=
| NoValidUnits
| NoDevicesFound
| DeviceNotDetected (device_name : string)
| ProtocolOnlyInABF2 (filename : string) (version : float)
| NoCommandData (filename : string)
| NoElectrodesFound.

Definition str (n : nat) : string := NilEmpty.string_of_uint (Nat.to_uint n).

(** The format spec [:02] : decimal, zero-padded to width two. *)
Definition str02 (n : nat) : string :=
  if Nat.ltb n 10 then "0" ++ str n else str n.

Definition py_in (x : string) (l : list string) : bool := existsb (String.eqb x) l.

(** dict.get(key, default) on an optional key *)
Definition dict_get {A} (field : option A) (default : A) : A :=
  match field with Some v => v | None => default end.

(** ** The container (pynwb.NWBFile), as far as neo.py touches it

    Tables keep insertion order; devices and electrodes are keyed by name.
    A row of the intracellular-recording table carries the index the
    container gave it. *)

Record Device : Type := mkDevice {
  device_name : string;
  device_description : option string }.

Record IntracellularElectrode : Type := mkElectrode {
  electrode_name : string;
  electrode_description : string;
  electrode_device : Device }.

Inductive SeriesClass : Type :=
| VoltageClampSeries | CurrentClampSeries | IZeroClampSeries
| VoltageClampStimulusSeries | CurrentClampStimulusSeries.

Inductive SeriesData : Type :=
| H5DataIO (data : list Z) (compression : string)
| Trace (data : list float).

Record PatchClampSeries : Type := mkSeries {
  series_class : SeriesClass;
  series_name : string;
  series_description : string;
  series_electrode : IntracellularElectrode;
  series_data : SeriesData;
  series_starting_time : float;
  series_rate : float;
  series_conversion : float;
  series_gain : float }.

Record IntracellularRecording : Type := mkRecording {
  row_id : nat;
  recording_electrode : IntracellularElectrode;
  recording_response : PatchClampSeries;
  recording_stimulus : option PatchClampSeries }.

Record SequentialRecording : Type := mkSequential {
  simultaneous_recordings : list nat;
  sequential_stimulus_type : string }.

Record NWBFile : Type := mkNWBFile {
  devices : list Device;
  icephys_electrodes : list IntracellularElectrode;
  intracellular_recordings : list IntracellularRecording;
  icephys_simultaneous_recordings : list (list nat);
  icephys_sequential_recordings : list SequentialRecording }.

(** ** The metadata dictionary

    A key that may be absent is an [option]. *)

Record DeviceMetadata : Type := mkDeviceMetadata {
  md_device_name : option string;
  md_device_description : option string }.

Record ElectrodeMetadata : Type := mkElectrodeMetadata {
  md_name : option string;
  md_description : option string;
  md_device_name_ref : option string }.

(** An entry of metadata['Icephys']['Electrodes'] is a dict or something else. *)
Inductive ElectrodeEntry : Type :=
| EntryDict (d : ElectrodeMetadata)
| EntryOther.

Record SessionMetadata : Type := mkSessionMetadata {
  relative_session_start_time : option float;
  md_stimulus_type : option string }.

Record ModalityMetadata : Type := mkModalityMetadata {
  md_Device : option (list DeviceMetadata);
  md_Electrodes : option (list ElectrodeEntry);
  md_Sessions : option (list SessionMetadata) }.

Record Metadata : Type := mkMetadata {
  md_Ecephys : option ModalityMetadata;
  md_Icephys : option ModalityMetadata }.

Definition empty_modality : ModalityMetadata := mkModalityMetadata None None None.
Definition empty_dict : Metadata := mkMetadata None None.

Definition set_Icephys (m : Metadata) (i : ModalityMetadata) : Metadata :=
  mkMetadata (md_Ecephys m) (Some i).

Definition set_Electrodes (i : ModalityMetadata) (l : list ElectrodeEntry)
  : ModalityMetadata :=
  mkModalityMetadata (md_Device i) (Some l) (md_Sessions i).

Definition modality_section (m : Metadata) (modality : string)
  : option ModalityMetadata :=
  if modality =? "Icephys" then md_Icephys m
  else if modality =? "Ecephys" then md_Ecephys m
  else None.

(** ** The Neo reader (AxonIO), as far as neo.py reads it

    [nb_segment b] is [header["nb_segment"][b]], [signal_channels] is
    [header["signal_channels"]] with its columns "units" and "gain",
    [fFileVersionNumber] is [_axon_info["fFileVersionNumber"]], and
    [read_raw_protocol] is the triple (traces by segment and channel, titles,
    units) that the method of that name returns. *)

Record SignalChannel : Type := mkChannel {
  channel_units : string;
  channel_gain : float }.

Record NeoReader : Type := mkReader {
  nb_segment : nat -> nat;
  signal_channels : list SignalChannel;
  fFileVersionNumber : float;
  read_raw_protocol : list (list (list float)) * list string * list string;
  filename : string;
  get_signal_t_start : nat -> nat -> float;
  get_signal_sampling_rate : float;
  get_analogsignal_chunk : nat -> nat -> nat -> list Z }.

(** ** Mutable state and exceptions

    The container and the metadata dictionary are objects shared with the
    caller; what a call did to them before raising stays done.  Warnings
    accumulate in emission order. *)

Record World : Type := mkWorld {
  nwbfile : NWBFile;
  metadata : option Metadata;
  warnings : list Warning }.

Inductive Result (A : Type) : Type :=
| Return (a : A)
| Raise (e : Exception).
Arguments Return {A} a.
Arguments Raise {A} e.

Definition M (A : Type) : Type := World -> World * Result A.

Definition ret {A} (a : A) : M A := fun w => (w, Return a).

Definition bind {A B} (m : M A) (k : A -> M B) : M B := fun w =>
  match m w with
  | (w', Return a) => k a w'
  | (w', Raise e) => (w', Raise e)
  end.

Definition raise {A} (e : Exception) : M A := fun w => (w, Raise e).

Declare Scope py_scope.
Delimit Scope py_scope with py.
Notation "x <- c1 ;; c2" := (bind c1 (fun x => c2))
  (at level 61, c1 at next level, right associativity) : py_scope.
Notation "c1 ;; c2" := (bind c1 (fun _ => c2))
  (at level 61, right associativity) : py_scope.
#[local] Open Scope py_scope.

Definition warn (x : Warning) : M unit := fun w =>
  (mkWorld (nwbfile w) (metadata w) (warnings w ++ [x]), Return tt).

Definition get_nwbfile : M NWBFile := fun w => (w, Return (nwbfile w)).

Definition put_nwbfile (f : NWBFile) : M unit := fun w =>
  (mkWorld f (metadata w) (warnings w), Return tt).

Definition get_metadata : M (option Metadata) := fun w => (w, Return (metadata w)).

Definition put_metadata (m : option Metadata) : M unit := fun w =>
  (mkWorld (nwbfile w) m (warnings w), Return tt).

Definition assert (b : bool) (msg : string) : M unit :=
  if b then ret tt else raise (AssertionError msg).

Definition when (b : bool) (m : M unit) : M unit := if b then m else ret tt.

(** d[key] on an optional key *)
Definition getitem {A} (field : option A) (key : string) : M A :=
  match field with Some v => ret v | None => raise (KeyError key) end.

(** l[i] for a non-negative i *)
Definition index {A} (l : list A) (i : nat) : M A :=
  match nth_error l i with Some v => ret v | None => raise IndexError end.

(** Subscripting or testing membership on the metadata argument:
    TypeError when it is None. *)
Definition the_metadata : M Metadata :=
  m <- get_metadata ;;
  match m with Some d => ret d | None => raise TypeError end.

(** metadata['Icephys'] = v, in place *)
Definition setitem_Icephys (v : ModalityMetadata) : M unit :=
  m <- the_metadata ;;
  put_metadata (Some (set_Icephys m v)).

(** metadata['Icephys']['Electrodes'] = l, in place *)
Definition setitem_Icephys_Electrodes (l : list ElectrodeEntry) : M unit :=
  m <- the_metadata ;;
  icephys <- getitem (md_Icephys m) "Icephys" ;;
  put_metadata (Some (set_Icephys m (set_Electrodes icephys l))).

Fixpoint for_each {A} (l : list A) (body : A -> M unit) : M unit :=
  match l with
  | [] => ret tt
  | x :: r => body x ;; for_each r body
  end.

(** A loop that updates local variables [s]. *)
Fixpoint for_fold {A S} (l : list A) (s : S) (body : S -> A -> M S) : M S :=
  match l with
  | [] => ret s
  | x :: r => s' <- body s x ;; for_fold r s' body
  end.

(** A list comprehension whose element expression can raise. *)
Fixpoint comprehension {A B} (l : list A) (f : A -> M B) : M (list B) :=
  match l with
  | [] => ret []
  | x :: r => y <- f x ;; ys <- comprehension r f ;; ret (y :: ys)
  end.

Definition enumerate {A} (l : list A) : list (nat * A) :=
  combine (seq 0 (length l)) l.

(** ** Container methods

    The methods of pynwb.NWBFile that neo.py calls.  A name already in a
    table is refused with ValueError; the index of a new row is the number
    of rows before it. *)

Definition find_device (name : string) (f : NWBFile) : option Device :=
  find (fun d => device_name d =? name) (devices f).

Definition has_device (name : string) (f : NWBFile) : bool :=
  existsb (fun d => device_name d =? name) (devices f).

Definition has_electrode (name : string) (f : NWBFile) : bool :=
  existsb (fun e => electrode_name e =? name) (icephys_electrodes f).

Definition create_device (d : Device) : M unit :=
  f <- get_nwbfile ;;
  if has_device (device_name d) f
  then raise (ValueError (device_name d))
  else put_nwbfile (mkNWBFile (devices f ++ [d]) (icephys_electrodes f)
                      (intracellular_recordings f)
                      (icephys_simultaneous_recordings f)
                      (icephys_sequential_recordings f)).

Definition create_icephys_electrode (e : IntracellularElectrode) : M unit :=
  f <- get_nwbfile ;;
  if has_electrode (electrode_name e) f
  then raise (ValueError (electrode_name e))
  else put_nwbfile (mkNWBFile (devices f) (icephys_electrodes f ++ [e])
                      (intracellular_recordings f)
                      (icephys_simultaneous_recordings f)
                      (icephys_sequential_recordings f)).

Definition add_intracellular_recording (electrode : IntracellularElectrode)
    (response : PatchClampSeries) (stimulus : option PatchClampSeries) : M nat :=
  f <- get_nwbfile ;;
  let i := length (intracellular_recordings f) in
  put_nwbfile (mkNWBFile (devices f) (icephys_electrodes f)
                 (intracellular_recordings f
                    ++ [mkRecording i electrode response stimulus])
                 (icephys_simultaneous_recordings f)
                 (icephys_sequential_recordings f)) ;;
  ret i.

Definition add_icephys_simultaneous_recording (recordings : list nat) : M nat :=
  f <- get_nwbfile ;;
  let i := length (icephys_simultaneous_recordings f) in
  put_nwbfile (mkNWBFile (devices f) (icephys_electrodes f)
                 (intracellular_recordings f)
                 (icephys_simultaneous_recordings f ++ [recordings])
                 (icephys_sequential_recordings f)) ;;
  ret i.

Definition add_icephys_sequential_recording (simultaneous : list nat)
    (stimulus_type : string) : M nat :=
  f <- get_nwbfile ;;
  let i := length (icephys_sequential_recordings f) in
  put_nwbfile (mkNWBFile (devices f) (icephys_electrodes f)
                 (intracellular_recordings f)
                 (icephys_simultaneous_recordings f)
                 (icephys_sequential_recordings f
                    ++ [mkSequential simultaneous stimulus_type])) ;;
  ret i.

(** ** The functions of neo.py *)

Definition get_number_of_electrodes (neo_reader : NeoReader) : nat :=
  length (signal_channels neo_reader).

Definition get_number_of_segments (neo_reader : NeoReader) (block : nat) : nat :=
  nb_segment neo_reader block.

Definition get_conversion_from_unit (unit : string) : M float :=
  if py_in unit ["pA"; "pV"] then ret 1e-12%float
  else if py_in unit ["nA"; "nV"] then ret 1e-9%float
  else if py_in unit ["uA"; "uV"] then ret 1e-6%float
  else if py_in unit ["mA"; "mV"] then ret 1e-3%float
  else if py_in unit ["A"; "V"] then ret 1.0%float
  else warn NoValidUnits ;; ret 1.0%float.

Definition response_classes (key : string) : option SeriesClass :=
  if key =? "voltage_clamp" then Some VoltageClampSeries
  else if key =? "current_clamp" then Some CurrentClampSeries
  else if key =? "izero" then Some IZeroClampSeries
  else None.

Definition stim_classes (key : string) : option SeriesClass :=
  if key =? "voltage_clamp" then Some VoltageClampStimulusSeries
  else if key =? "current_clamp" then Some CurrentClampStimulusSeries
  else None.

Section Registrar.

(** The name given to a device when the metadata names none. *)
Variable fallback_device_name : string.

(** Modelled from the spec: add_device_from_metadata, imported from
    tools/nwb_helpers.py, which is not among the sources.  Spec 4.3: "create
    exactly one default device from the supplied metadata or a hard-coded
    fallback name".  The supplied metadata is read at
    metadata[modality]['Device'] (spec 6: Icephys.Device[] (name,
    description)). *)
Definition add_device_from_metadata (modality : string)
    (metadata : option Metadata) : M unit :=
  let supplied :=
    match metadata with
    | Some m =>
        match modality_section m modality with
        | Some section =>
            match md_Device section with
            | Some (d :: _) => Some d
            | _ => None
            end
        | None => None
        end
    | None => None
    end in
  match supplied with
  | Some d =>
      create_device (mkDevice (dict_get (md_device_name d) fallback_device_name)
                       (md_device_description d))
  | None => create_device (mkDevice fallback_device_name None)
  end.

Definition default_electrode (device : string) (elec_id : nat) : ElectrodeMetadata :=
  mkElectrodeMetadata (Some ("icephys_electrode_" ++ str elec_id))
    (Some "no description") (Some device).

Definition is_dict (x : ElectrodeEntry) : bool :=
  match x with EntryDict _ => true | EntryOther => false end.

Definition is_none {A} (x : option A) : bool :=
  match x with Some _ => false | None => true end.

(** [if metadata is None: metadata = dict()] rebinds the local name only:
    the body works on a fresh dictionary that the caller never sees. *)
Definition with_default_dict (body : M unit) : M unit := fun w =>
  match metadata w with
  | Some _ => body w
  | None =>
      let (w', r) := body (mkWorld (nwbfile w) (Some empty_dict) (warnings w)) in
      (mkWorld (nwbfile w') None (warnings w'), r)
  end.

(** The metadata handed to add_device_from_metadata for a missing device. *)
Definition new_device_metadata (device : string) : Metadata :=
  mkMetadata
    (Some (mkModalityMetadata (Some [mkDeviceMetadata (Some device) None]) None None))
    None.

(** Body of [for elec in metadata['Icephys']['Electrodes']].  [defaults[0]]
    is evaluated once here; the source evaluates it again for each default
    value, on the same unchanged list. *)
Definition create_electrode_from (defaults : list ElectrodeMetadata)
    (elec : ElectrodeEntry) : M unit :=
  elec <- match elec with EntryDict d => ret d | EntryOther => raise AttributeError end ;;
  default0 <- index defaults 0 ;;
  default_name <- getitem (md_name default0) "name" ;;
  f <- get_nwbfile ;;
  if has_electrode (dict_get (md_name elec) default_name) f then ret tt
  else
    default_device <- getitem (md_device_name_ref default0) "device_name" ;;
    let device := dict_get (md_device_name_ref elec) default_device in
    when (negb (has_device device f))
      (add_device_from_metadata "Icephys" (Some (new_device_metadata device)) ;;
       warn (DeviceNotDetected device)) ;;
    default_description <- getitem (md_description default0) "description" ;;
    f <- get_nwbfile ;;
    linked <- getitem (find_device device f) device ;;
    create_icephys_electrode
      (mkElectrode (dict_get (md_name elec) default_name)
         (dict_get (md_description elec) default_description)
         linked).

Definition add_icephys_electrode (neo_reader : NeoReader) : M unit :=
  f <- get_nwbfile ;;
  when (Nat.eqb (length (devices f)) 0)
    (warn NoDevicesFound ;;
     m <- get_metadata ;;
     add_device_from_metadata "Icephys" m) ;;
  with_default_dict
    (m <- the_metadata ;;
     when (is_none (md_Icephys m)) (setitem_Icephys empty_modality) ;;
     defaults <- comprehension (seq 0 (get_number_of_electrodes neo_reader))
       (fun elec_id =>
          f <- get_nwbfile ;;
          device <- index (map device_name (devices f)) 0 ;;
          ret (default_electrode device elec_id)) ;;
     m <- the_metadata ;;
     icephys <- getitem (md_Icephys m) "Icephys" ;;
     when (match md_Electrodes icephys with
           | None => true
           | Some l => Nat.eqb (length l) 0
           end)
       (setitem_Icephys_Electrodes (map EntryDict defaults)) ;;
     m <- the_metadata ;;
     icephys <- getitem (md_Icephys m) "Icephys" ;;
     electrodes <- getitem (md_Electrodes icephys) "Electrodes" ;;
     assert (forallb is_dict electrodes)
       "Expected metadata['Icephys']['Electrodes'] to be a list of dictionaries!" ;;
     for_each electrodes (create_electrode_from defaults)).

(** ** add_icephys_recordings *)

Definition protocol_traces (neo_reader : NeoReader) : list (list (list float)) :=
  fst (fst (read_raw_protocol neo_reader)).

Definition protocol_units (neo_reader : NeoReader) : list string :=
  snd (read_raw_protocol neo_reader).

(** The value of the local [n_commands]. *)
Definition n_commands_of (neo_reader : NeoReader) : nat :=
  if ltb (fFileVersionNumber neo_reader) 2%float then 0
  else length (protocol_traces neo_reader).

Definition detect_n_commands (neo_reader : NeoReader) : M nat :=
  if ltb (fFileVersionNumber neo_reader) 2%float
  then warn (ProtocolOnlyInABF2 (filename neo_reader) (fFileVersionNumber neo_reader)) ;;
       ret 0
  else ret (length (protocol_traces neo_reader)).

Definition inconsistent_msg (n_segments n_commands : nat) : string :=
  "File contains inconsistent number of segments (" ++ str n_segments
    ++ ") and commands (" ++ str n_commands ++ ")".

Definition experiment_type_msg (t : string) : string :=
  "'icephys_experiment_type' should be 'voltage_clamp', 'current_clamp' or 'izero', but received value "
    ++ t.

(** The start of the counter [ri]: the largest row index in the table, or
    -1 when the table is empty or absent. *)
Definition last_row_index (f : NWBFile) : Z :=
  match intracellular_recordings f with
  | [] => (-1)%Z
  | rows => Z.of_nat (list_max (map row_id rows))
  end.

Section Session.

Variable neo_reader : NeoReader.
Variable icephys_experiment_type : string.
Variable skip_electrodes : list nat.
Variable compression : string.
Variable simultaneous_recordings_offset : nat.
Variable relative_start : float.
Variable session_stimulus_type : string.

(** Body of the loop over electrodes of segment [si]; the locals are the
    running row counter [ri] and the list [recordings].  The source binds
    [protocol] only when the file has a protocol section and reads it only
    when the experiment type is not "izero", which is then the case. *)
Definition record_electrode (si : nat) (locals : Z * list nat)
    (item : nat * IntracellularElectrode) : M (Z * list nat) :=
  let '(ri, recordings) := locals in
  let '(ei, electrode) := item in
  if existsb (Nat.eqb ei) skip_electrodes then ret (ri, recordings)
  else
    let ri := (ri + 1)%Z in
    let starting_time := get_signal_t_start neo_reader 0 si in
    let starting_time := (starting_time + relative_start)%float in
    let sampling_rate := get_signal_sampling_rate neo_reader in
    response_unit <- index (map channel_units (signal_channels neo_reader)) ei ;;
    response_conversion <- get_conversion_from_unit response_unit ;;
    response_gain <- index (map channel_gain (signal_channels neo_reader)) ei ;;
    let response_name :=
      icephys_experiment_type ++ "-response-"
        ++ str02 (si + 1 + simultaneous_recordings_offset) ++ "-ch-" ++ str ei in
    response_class <- getitem (response_classes icephys_experiment_type)
                        icephys_experiment_type ;;
    let response :=
      mkSeries response_class response_name
        ("Response to: " ++ session_stimulus_type) electrode
        (H5DataIO (get_analogsignal_chunk neo_reader 0 si ei) compression)
        starting_time sampling_rate
        (response_conversion * response_gain)%float nan in
    icephys_recording <-
      (if negb (icephys_experiment_type =? "izero") then
         stim_unit <- index (protocol_units neo_reader) ei ;;
         stim_conversion <- get_conversion_from_unit stim_unit ;;
         stim_class <- getitem (stim_classes icephys_experiment_type)
                         icephys_experiment_type ;;
         segment_traces <- index (protocol_traces neo_reader) si ;;
         trace <- index segment_traces ei ;;
         let stimulus :=
           mkSeries stim_class
             ("stimulus-" ++ str02 (si + 1 + simultaneous_recordings_offset)
                ++ "-ch-" ++ str ei)
             ("Stim type: " ++ session_stimulus_type) electrode
             (Trace trace) starting_time sampling_rate stim_conversion nan in
         add_intracellular_recording electrode response (Some stimulus)
       else add_intracellular_recording electrode response None) ;;
    ret (ri, (recordings ++ [icephys_recording])%list).

(** Body of the loop over segments; the locals are [ri] and the list
    [simultaneous_recordings]. *)
Definition record_segment (locals : Z * list nat) (si : nat) : M (Z * list nat) :=
  let '(ri, simultaneous) := locals in
  f <- get_nwbfile ;;
  out <- for_fold
           (enumerate (firstn (length (map channel_units (signal_channels neo_reader)))
                         (icephys_electrodes f)))
           (ri, []) (record_electrode si) ;;
  sim_rec <- add_icephys_simultaneous_recording (snd out) ;;
  ret (fst out, (simultaneous ++ [sim_rec])%list).

End Session.

(** The offsets are read off the tables as they are after the electrodes
    were ensured; an absent table counts as an empty one.  The two session
    lookups of the source walk the same path, so the path is walked once. *)
Definition add_icephys_recordings (neo_reader : NeoReader)
    (icephys_experiment_type stimulus_type : string)
    (skip_electrodes : list nat) (compression : string) : M unit :=
  let n_segments := get_number_of_segments neo_reader 0 in
  n_commands <- detect_n_commands neo_reader ;;
  icephys_experiment_type <-
    (if Nat.eqb n_commands 0
     then warn (NoCommandData (filename neo_reader)) ;; ret "izero"
     else assert (Nat.eqb n_commands n_segments)
            (inconsistent_msg n_segments n_commands) ;;
          ret icephys_experiment_type) ;;
  assert (py_in icephys_experiment_type ["voltage_clamp"; "current_clamp"; "izero"])
    (experiment_type_msg icephys_experiment_type) ;;
  f <- get_nwbfile ;;
  when (Nat.eqb (length (icephys_electrodes f)) 0)
    (warn NoElectrodesFound ;; add_icephys_electrode neo_reader) ;;
  f <- get_nwbfile ;;
  let ri := last_row_index f in
  let simultaneous_recordings_offset := length (icephys_simultaneous_recordings f) in
  let sessions_offset := length (icephys_sequential_recordings f) in
  m <- the_metadata ;;
  icephys <- getitem (md_Icephys m) "Icephys" ;;
  sessions <- getitem (md_Sessions icephys) "Sessions" ;;
  session <- index sessions sessions_offset ;;
  relative_start <- getitem (relative_session_start_time session)
                      "relative_session_start_time" ;;
  session_stimulus_type <- getitem (md_stimulus_type session) "stimulus_type" ;;
  out <- for_fold (seq 0 n_segments) (ri, [])
           (record_segment neo_reader icephys_experiment_type skip_electrodes
              compression simultaneous_recordings_offset relative_start
              session_stimulus_type) ;;
  add_icephys_sequential_recording (snd out) stimulus_type ;;
  ret tt.

End Registrar.

End Neo.

(** * Vocabulary of the specification *)

Module KpmsSpec.
Import Kpms.

Definition label_at (labels : list Z) (i : nat) : Z := nth i labels 0%Z.

(** [labels[i] != labels[i-1]] *)
Definition differs_from_previous (labels : list Z) (i : nat) : bool :=
  negb (label_at labels i =? label_at labels (i - 1))%Z.

(** The positions [i] from 1 to length-1 whose label differs from the one
    before. *)
Definition change_positions (labels : list Z) : list nat :=
  filter (differs_from_previous labels) (seq 1 (length labels - 1)).

(** The comparison that the extractor feeds to [np.where]. *)
Definition adjacent_mask (l : list Z) : list bool :=
  not_equal (slice_from_1 l) (slice_to_last l).

End KpmsSpec.

Module NeoSpec.
Import Neo.
#[local] Open Scope string_scope.
#[local] Open Scope py_scope.
#[local] Open Scope list_scope.

(** The closed table of the unit resolver: a prefix, then a base unit. *)
Definition unit_table : list string :=
  flat_map (fun prefix => map (append prefix) ["A"; "V"]) ["p"; "n"; "u"; "m"; ""].

(** ** Reading and updating a state *)

Definition emit (x : Warning) (w : World) : World :=
  mkWorld (nwbfile w) (metadata w) (warnings w ++ [x]).

Definition rows (w : World) : list IntracellularRecording :=
  intracellular_recordings (nwbfile w).

Definition groups (w : World) : list (list nat) :=
  icephys_simultaneous_recordings (nwbfile w).

Definition sessions (w : World) : list SequentialRecording :=
  icephys_sequential_recordings (nwbfile w).

Definition with_metadata (w : World) (m : option Metadata) : World :=
  mkWorld (nwbfile w) m (warnings w).

Definition with_nwbfile (w : World) (f : NWBFile) : World :=
  mkWorld f (metadata w) (warnings w).

Definition with_device (f : NWBFile) (d : Device) : NWBFile :=
  mkNWBFile (devices f ++ [d]) (icephys_electrodes f) (intracellular_recordings f)
    (icephys_simultaneous_recordings f) (icephys_sequential_recordings f).

Definition with_electrode (f : NWBFile) (e : IntracellularElectrode) : NWBFile :=
  mkNWBFile (devices f) (icephys_electrodes f ++ [e]) (intracellular_recordings f)
    (icephys_simultaneous_recordings f) (icephys_sequential_recordings f).

Definition with_electrodes (f : NWBFile) (l : list IntracellularElectrode) : NWBFile :=
  mkNWBFile (devices f) (icephys_electrodes f ++ l) (intracellular_recordings f)
    (icephys_simultaneous_recordings f) (icephys_sequential_recordings f).

Definition with_row (w : World) (row : IntracellularRecording) : World :=
  mkWorld
    (mkNWBFile (devices (nwbfile w)) (icephys_electrodes (nwbfile w))
       (rows w ++ [row]) (groups w) (sessions w))
    (metadata w) (warnings w).

Definition is_return {A} (x : Result A) : bool :=
  match x with Return _ => true | Raise _ => false end.

(** ** Session metadata *)

(** metadata['Icephys']['Sessions'], when the path exists. *)
Definition sessions_of (m : option Metadata) : option (list SessionMetadata) :=
  match m with
  | Some d => match md_Icephys d with Some i => md_Sessions i | None => None end
  | None => None
  end.

(** metadata['Icephys']['Sessions'][k] with both of its keys, when present. *)
Definition session_entry (m : option Metadata) (k : nat) : option (float * string) :=
  match sessions_of m with
  | Some l =>
      match nth_error l k with
      | Some s =>
          match relative_session_start_time s, md_stimulus_type s with
          | Some start, Some st => Some (start, st)
          | _, _ => None
          end
      | None => None
      end
  | None => None
  end.

(** ** Relations between the state before and after a computation *)

(** [m] takes every state to one that [R] relates to it, whether it returns
    or raises. *)
Definition stable (R : World -> World -> Prop) {A} (m : M A) : Prop :=
  forall w, R w (fst (m w)).

(** Warnings were only added, after those already there. *)
Definition more_warnings (w w' : World) : Prop :=
  exists ws, warnings w' = warnings w ++ ws.

(** Nothing recorded, Sessions metadata untouched, warnings only added. *)
Definition frame (w w' : World) : Prop :=
  rows w' = rows w /\ groups w' = groups w /\ sessions w' = sessions w
  /\ sessions_of (metadata w') = sessions_of (metadata w)
  /\ more_warnings w w'.

(** The three recording tables are as they were. *)
Definition untouched (w w' : World) : Prop :=
  rows w' = rows w /\ groups w' = groups w /\ sessions w' = sessions w.

(** Rows were only appended, each numbered by its position, each satisfying
    [P]; warnings were only added. *)
Definition appended (P : IntracellularRecording -> Prop) (w w' : World) : Prop :=
  (exists new, rows w' = rows w ++ new
               /\ map row_id new = seq (length (rows w)) (length new)
               /\ Forall P new)
  /\ more_warnings w w'.

(** A row of a session without stimulus: an IZeroClampSeries response and no
    Stimulus record. *)
Definition izero_row (row : IntracellularRecording) : Prop :=
  recording_stimulus row = None
  /\ series_class (recording_response row) = IZeroClampSeries.

(** [P] holds of every row that a session of type [t] can create. *)
Definition allows (t : string) (P : IntracellularRecording -> Prop) : Prop :=
  forall row, (t = "izero" -> izero_row row) -> P row.

(** ** The electrode registrar *)

(** The device that [add_device_from_metadata] creates. *)
Definition device_from_metadata (fallback modality : string) (m : option Metadata)
  : Device :=
  match m with
  | Some d =>
      match modality_section d modality with
      | Some section =>
          match md_Device section with
          | Some (x :: _) =>
              mkDevice (dict_get (md_device_name x) fallback) (md_device_description x)
          | _ => mkDevice fallback None
          end
      | None => mkDevice fallback None
      end
  | None => mkDevice fallback None
  end.

(** The name of the default electrode of channel [i]. *)
Definition electrode_label (i : nat) : string := ("icephys_electrode_" ++ str i)%string.

Definition default_icephys_electrode (d : Device) (i : nat) : IntracellularElectrode :=
  mkElectrode (electrode_label i) "no description" d.

(** The list [defaults] of the registrar, for [n] channels. *)
Definition default_electrodes (device : string) (n : nat) : list ElectrodeMetadata :=
  map (default_electrode device) (seq 0 n).

(** The caller supplied no electrode metadata. *)
Definition no_electrode_metadata (m : option Metadata) : Prop :=
  match m with
  | Some d =>
      match md_Icephys d with
      | Some i =>
          match md_Electrodes i with
          | Some l => l = []
          | None => True
          end
      | None => True
      end
  | None => True
  end.

(** The electrode entries that the registrar works through. *)
Definition effective_entries (m : Metadata) (defaults : list ElectrodeMetadata)
  : list ElectrodeEntry :=
  match md_Icephys m with
  | Some i =>
      match md_Electrodes i with
      | Some (e :: l) => e :: l
      | _ => map EntryDict defaults
      end
  | None => map EntryDict defaults
  end.

(** The metadata dictionary after the registrar filled in its defaults. *)
Definition normalize (m : Metadata) (defaults : list ElectrodeMetadata) : Metadata :=
  match md_Icephys m with
  | Some i =>
      match md_Electrodes i with
      | Some (e :: l) => m
      | _ => set_Icephys m (set_Electrodes i (map EntryDict defaults))
      end
  | None => set_Icephys m (set_Electrodes empty_modality (map EntryDict defaults))
  end.

Definition entries_for (r : NeoReader) (device0 : string) (m : option Metadata)
  : list ElectrodeEntry :=
  let defaults := default_electrodes device0 (get_number_of_electrodes r) in
  match m with
  | Some d => effective_entries d defaults
  | None => map EntryDict defaults
  end.

Definition normalized (r : NeoReader) (device0 : string) (m : option Metadata)
  : option Metadata :=
  match m with
  | Some d =>
      Some (normalize d (default_electrodes device0 (get_number_of_electrodes r)))
  | None => None
  end.

(** The end of the registrar: the check of the entries and the loop. *)
Definition register (fallback : string) (defaults : list ElectrodeMetadata)
    (entries : list ElectrodeEntry) : M unit :=
  assert (forallb is_dict entries)
    "Expected metadata['Icephys']['Electrodes'] to be a list of dictionaries!" ;;
  for_each entries (create_electrode_from fallback defaults).

(** The name that an entry requests: its own, or that of [defaults[0]]. *)
Definition requested_name (defaults : list ElectrodeMetadata) (e : ElectrodeMetadata)
  : option string :=
  match nth_error defaults 0 with
  | Some d0 =>
      match md_name d0 with
      | Some n0 => Some (dict_get (md_name e) n0)
      | None => None
      end
  | None => None
  end.

(** What one pass of the electrode loop does to the container, when
    [defaults[0]] is the default electrode linked to [device0]; the flag
    tells whether the pass returned. *)
Definition pass (fallback device0 : string) (entry : ElectrodeEntry) (f : NWBFile)
  : NWBFile * bool :=
  match entry with
  | EntryOther => (f, false)
  | EntryDict e =>
      let name := dict_get (md_name e) (electrode_label 0) in
      let device := dict_get (md_device_name_ref e) device0 in
      let description := dict_get (md_description e) "no description" in
      let link f1 :=
        match find_device device f1 with
        | Some linked => (with_electrode f1 (mkElectrode name description linked), true)
        | None => (f1, false)
        end in
      if has_electrode name f then (f, true)
      else if has_device device f then link f
      else if has_device fallback f then (f, false)
      else link (with_device f (mkDevice fallback None))
  end.

Fixpoint passes (fallback device0 : string) (entries : list ElectrodeEntry)
    (f : NWBFile) : NWBFile * bool :=
  match entries with
  | [] => (f, true)
  | e :: es =>
      let (f1, ok) := pass fallback device0 e f in
      if ok then passes fallback device0 es f1 else (f1, false)
  end.

(** What [register] does to the container, for the defaults of [n] channels
    linked to [device0]. *)
Definition registered (fallback device0 : string) (n : nat)
    (entries : list ElectrodeEntry) (f : NWBFile) : NWBFile :=
  match n with
  | 0 => f
  | S _ =>
      if forallb is_dict entries then fst (passes fallback device0 entries f) else f
  end.

(** ** Sample readers and containers *)

Definition four_channels : list SignalChannel :=
  [mkChannel "pA" 1%float; mkChannel "mV" 0.5%float;
   mkChannel "pA" 1%float; mkChannel "XYZ" 2%float].

(** An ABF2 file: two sweeps, four channels, one command trace per sweep and
    channel. *)
Definition abf2_reader : NeoReader :=
  mkReader (fun _ => 2) four_channels 2.0%float
    ([[[0%float]; [1%float]; [2%float]; [3%float]];
      [[4%float]; [5%float]; [6%float]; [7%float]]],
     ["a"; "b"; "c"; "d"], ["mV"; "pA"; "mV"; "pA"])
    "cell1.abf" (fun _ si => 0.25%float) 10000%float
    (fun _ si ei => [Z.of_nat si; Z.of_nat ei]).

(** As [abf2_reader], with three command entries for two sweeps. *)
Definition mismatched_reader : NeoReader :=
  mkReader (fun _ => 2) four_channels 2.0%float
    ([[[0%float]]; [[1%float]]; [[2%float]]], ["a"], ["mV"])
    "cell2.abf" (fun _ si => 0.25%float) 10000%float
    (fun _ si ei => [Z.of_nat si; Z.of_nat ei]).

(** An ABF1 file: no protocol section. *)
Definition abf1_reader : NeoReader :=
  mkReader (fun _ => 2) four_channels 1.83%float ([], [], [])
    "cell3.abf" (fun _ si => 0.25%float) 10000%float
    (fun _ si ei => [Z.of_nat si; Z.of_nat ei]).

Definition empty_nwbfile : NWBFile := mkNWBFile [] [] [] [] [].

Definition two_sessions : Metadata :=
  mkMetadata None
    (Some (mkModalityMetadata None None
             (Some [mkSessionMetadata (Some 0%float) (Some "step");
                    mkSessionMetadata (Some 60%float) (Some "ramp")]))).

Definition fresh_world : World := mkWorld empty_nwbfile (Some two_sessions) [].

Definition bare_world : World := mkWorld empty_nwbfile None [].

Definition first_append : World * Result unit :=
  add_icephys_recordings "DeviceIcephys" abf2_reader "voltage_clamp" "step" [1] "gzip"
    fresh_world.

Definition registered_world : World :=
  fst (add_icephys_electrode "DeviceIcephys" abf2_reader bare_world).

End NeoSpec.

(** * tools/neo/neo.py: the writers *)

Module NeoWriter.
Import Neo.
#[local] Open Scope string_scope.
#[local] Open Scope py_scope.

(** [get_nwb_metadata] ignores its [metadata] argument.  Of the dictionary
    it builds, the NWBFile entry (a fixed description and a fresh UUID) is
    read only when a file is created from a path; the Icephys entry is the
    part that the functions above read. *)
Definition get_nwb_metadata (neo_reader : NeoReader) (metadata : option Metadata)
  : Metadata :=
  mkMetadata None
    (Some (mkModalityMetadata
             (Some [mkDeviceMetadata (Some "Device") (Some "no description")])
             None None)).

Section Writer.
Variable fallback_device_name : string.

(** [add_all_to_nwbfile] on a container that was passed in. *)
Definition add_all_to_nwbfile (neo_reader : NeoReader) (compression : string)
    (icephys_experiment_type stimulus_type : string) (skip_electrodes : list nat)
  : M unit :=
  m <- get_metadata ;;
  add_device_from_metadata fallback_device_name "Icephys" m ;;
  add_icephys_electrode fallback_device_name neo_reader ;;
  add_icephys_recordings fallback_device_name neo_reader icephys_experiment_type
    stimulus_type skip_electrodes compression.

(** [if metadata is None: metadata = get_nwb_metadata(...)] rebinds the
    local name: the body works on the default dictionary, which the caller
    never sees. *)
Definition with_default_metadata (default : Metadata) (body : M unit) : M unit :=
  fun w =>
    match metadata w with
    | Some _ => body w
    | None =>
        let (w', r) := body (mkWorld (nwbfile w) (Some default) (warnings w)) in
        (mkWorld (nwbfile w') None (warnings w'), r)
    end.

(** [write_neo_to_nwb] with [nwbfile] passed and [save_path] None, on a
    pynwb that is recent enough: the three assertions hold.  The default
    [icephys_experiment_type=None] is the string "None" here: it is compared
    and formatted like that string wherever add_icephys_recordings looks at
    it. *)
Definition write_neo_to_nwb (neo_reader : NeoReader) (compression : string)
    (icephys_experiment_type stimulus_type : string) (skip_electrodes : list nat)
  : M unit :=
  with_default_metadata (get_nwb_metadata neo_reader None)
    (add_all_to_nwbfile neo_reader compression icephys_experiment_type
       stimulus_type skip_electrodes).

End Writer.

End NeoWriter.

(** * Vocabulary of the runs of the recording assembler *)

Module NeoRunSpec.
Import Neo NeoSpec NeoWriter.
#[local] Open Scope string_scope.
#[local] Open Scope py_scope.
#[local] Open Scope list_scope.

(** ** Outcomes *)

(** [m], run from [w], ends in a state that satisfies [Q] with the value it
    returns, or [E] when it raises. *)
Definition wp {A} (m : M A) (Q : A -> World -> Prop) (E : World -> Prop)
    (w : World) : Prop :=
  match m w with
  | (w', Return a) => Q a w'
  | (w', Raise _) => E w'
  end.

(** The call raised. *)
Definition raises {A} (run : World * Result A) : Prop := is_return (snd run) = false.

(** No condition on the state in which a call raises. *)
Definition anything (w : World) : Prop := True.

(** ** Rows of a session *)

(** The factor that [get_conversion_from_unit] returns. *)
Definition conversion_of (unit : string) : float :=
  if py_in unit ["pA"; "pV"] then 1e-12%float
  else if py_in unit ["nA"; "nV"] then 1e-9%float
  else if py_in unit ["uA"; "uV"] then 1e-6%float
  else if py_in unit ["mA"; "mV"] then 1e-3%float
  else 1.0%float.

(** The experiment type that a call works with. *)
Definition effective_type (r : NeoReader) (requested : string) : string :=
  if Nat.eqb (n_commands_of r) 0 then "izero" else requested.

(** The indices in [l] point into a table of [n] entries. *)
Definition valid_indices (n : nat) (l : list nat) : Prop := Forall (fun i => i < n) l.

Section SessionRows.
Variables (r : NeoReader) (t compression : string) (skip : list nat).
Variables (start : float) (els : list IntracellularElectrode).

(** The Stimulus record of segment [si] and channel [ei]. *)
Definition stimulus_of (si ei : nat) (electrode : IntracellularElectrode)
    (stim : PatchClampSeries) : Prop :=
  stim_classes t = Some (series_class stim)
  /\ series_electrode stim = electrode
  /\ series_gain stim = nan
  /\ series_starting_time stim = (get_signal_t_start r 0 si + start)%float
  /\ series_rate stim = get_signal_sampling_rate r
  /\ (exists u, nth_error (protocol_units r) ei = Some u
                /\ series_conversion stim = conversion_of u)
  /\ (exists traces tr, nth_error (protocol_traces r) si = Some traces
                        /\ nth_error traces ei = Some tr
                        /\ series_data stim = Trace tr).

(** The row of segment [si] and channel [ei]. *)
Definition row_of (si ei : nat) (row : IntracellularRecording) : Prop :=
  existsb (Nat.eqb ei) skip = false
  /\ nth_error els ei = Some (recording_electrode row)
  /\ (exists ch, nth_error (signal_channels r) ei = Some ch
       /\ series_conversion (recording_response row)
          = (conversion_of (channel_units ch) * channel_gain ch)%float)
  /\ response_classes t = Some (series_class (recording_response row))
  /\ series_electrode (recording_response row) = recording_electrode row
  /\ series_gain (recording_response row) = nan
  /\ series_starting_time (recording_response row)
     = (get_signal_t_start r 0 si + start)%float
  /\ series_rate (recording_response row) = get_signal_sampling_rate r
  /\ series_data (recording_response row)
     = H5DataIO (get_analogsignal_chunk r 0 si ei) compression
  /\ match recording_stimulus row with
     | Some stim => t <> "izero" /\ stimulus_of si ei (recording_electrode row) stim
     | None => t = "izero"
     end.

(** The row of some segment and some channel of the session. *)
Definition session_row (n_segments : nat) (row : IntracellularRecording) : Prop :=
  exists si ei, si < n_segments /\ row_of si ei row.

End SessionRows.

(** A row that a call on reader [r] can append when the session metadata
    is [md] and [k] sequential recordings exist. *)
Definition recorded_row (r : NeoReader) (t compression : string) (skip : list nat)
    (md : option Metadata) (k : nat) (els : list IntracellularElectrode)
    (row : IntracellularRecording) : Prop :=
  exists start stype,
    session_entry md k = Some (start, stype)
    /\ session_row r (effective_type r t) compression skip start els
         (get_number_of_segments r 0) row.

(** [ei in skip_electrodes] is false for the item [(ei, electrode)]. *)
Definition kept (skip : list nat) (item : nat * IntracellularElectrode) : bool :=
  negb (existsb (Nat.eqb (fst item)) skip).

(** The electrodes that one segment is recorded for: the first
    [len(signal_channels)] of the table, without the positions in
    [skip_electrodes]. *)
Definition eligible (r : NeoReader) (skip : list nat)
    (els : list IntracellularElectrode) : list IntracellularElectrode :=
  map snd (filter (kept skip)
             (enumerate (firstn (length (signal_channels r)) els))).

(** ** The tables during and after a call *)

(** The container during a call that started from [f0], once the electrode
    table is [els]: rows were appended, each numbered by its position and
    satisfying [P]; groups were appended, each holding indices of rows that
    exist. *)
Definition recorded (f0 : NWBFile) (els : list IntracellularElectrode)
    (P : IntracellularRecording -> Prop) (f : NWBFile) : Prop :=
  icephys_electrodes f = els
  /\ (exists new, intracellular_recordings f = intracellular_recordings f0 ++ new
                  /\ map row_id new
                     = seq (length (intracellular_recordings f0)) (length new)
                  /\ Forall P new)
  /\ (exists gs, icephys_simultaneous_recordings f
                 = icephys_simultaneous_recordings f0 ++ gs
                 /\ Forall (valid_indices (length (intracellular_recordings f))) gs).

(** While the segments are recorded no sequential recording is added. *)
Definition session_state (f0 : NWBFile) (els : list IntracellularElectrode)
    (P : IntracellularRecording -> Prop) (f : NWBFile) : Prop :=
  recorded f0 els P f
  /\ icephys_sequential_recordings f = icephys_sequential_recordings f0.

(** When the call is over at most one sequential recording was added, of
    groups that exist. *)
Definition session_closed (f0 : NWBFile) (els : list IntracellularElectrode)
    (P : IntracellularRecording -> Prop) (stimulus_type : string) (f : NWBFile)
  : Prop :=
  recorded f0 els P f
  /\ (icephys_sequential_recordings f = icephys_sequential_recordings f0
      \/ exists members,
           icephys_sequential_recordings f
           = icephys_sequential_recordings f0 ++ [mkSequential members stimulus_type]
           /\ valid_indices (length (icephys_simultaneous_recordings f)) members).

(** The state in which [add_icephys_recordings] leaves the container [f0]. *)
Definition session_result (r : NeoReader) (t stimulus_type compression : string)
    (skip : list nat) (w0 w' : World) : Prop :=
  session_closed (nwbfile w0) (icephys_electrodes (nwbfile w'))
    (recorded_row r t compression skip (metadata w0) (length (sessions w0))
       (icephys_electrodes (nwbfile w')))
    stimulus_type (nwbfile w').

(** Every index stored in the three recording tables points at an entry
    that exists, and the rows are numbered by their position. *)
Definition indexed (f : NWBFile) : Prop :=
  map row_id (intracellular_recordings f)
  = seq 0 (length (intracellular_recordings f))
  /\ Forall (valid_indices (length (intracellular_recordings f)))
       (icephys_simultaneous_recordings f)
  /\ Forall (fun s => valid_indices (length (icephys_simultaneous_recordings f))
                        (simultaneous_recordings s))
       (icephys_sequential_recordings f).

(** ** What the electrode registrar does to the container *)

(** [nwbfile.devices.keys()] and [nwbfile.icephys_electrodes.keys()] *)
Definition device_names (f : NWBFile) : list string := map device_name (devices f).

Definition electrode_names (f : NWBFile) : list string :=
  map electrode_name (icephys_electrodes f).

(** The container [f'] grew out of [f]: devices and electrodes were only
    appended, each new electrode is linked to a device of [f'], names that
    were unique still are, and the recording tables are as they were. *)
Definition grown (f f' : NWBFile) : Prop :=
  (exists ds, devices f' = devices f ++ ds)
  /\ (exists es, icephys_electrodes f' = icephys_electrodes f ++ es
                 /\ Forall (fun e => In (electrode_device e) (devices f')) es)
  /\ (NoDup (device_names f) -> NoDup (device_names f'))
  /\ (NoDup (electrode_names f) -> NoDup (electrode_names f'))
  /\ intracellular_recordings f' = intracellular_recordings f
  /\ icephys_simultaneous_recordings f' = icephys_simultaneous_recordings f
  /\ icephys_sequential_recordings f' = icephys_sequential_recordings f.

(** [grown], of the containers of two states. *)
Definition registered_from (w w' : World) : Prop := grown (nwbfile w) (nwbfile w').

(** ** Sample containers *)

(** A container with one device, and metadata whose second electrode entry is
    a string. *)
Definition one_device : NWBFile := mkNWBFile [mkDevice "Amplifier" None] [] [] [] [].

Definition malformed_world : World :=
  mkWorld one_device
    (Some (mkMetadata None
             (Some (mkModalityMetadata None
                      (Some [EntryDict (mkElectrodeMetadata (Some "e0") None None);
                             EntryOther])
                      None))))
    [].

(** A reader of a file without channels. *)
Definition no_channels : NeoReader :=
  mkReader (fun _ => 1) [] 2.0%float ([], [], []) "empty.abf"
    (fun _ _ => 0%float) 10000%float (fun _ _ _ => []).

(** The same container, and metadata with one complete electrode entry. *)
Definition named_electrode_world : World :=
  mkWorld one_device
    (Some (mkMetadata None
             (Some (mkModalityMetadata None
                      (Some [EntryDict (mkElectrodeMetadata (Some "e0")
                                          (Some "sharp") (Some "Amplifier"))])
                      None))))
    [].

End NeoRunSpec.

(** * keypointmoseq: what is handed to the NWB writer *)

Module KpmsWriter.
Import Kpms.
#[local] Open Scope nat_scope.
#[local] Open Scope string_scope.
#[local] Open Scope list_scope.

Inductive Exception : Type := IndexError | ValueError.

Inductive Result (A : Type) : Type :=
| Return (a : A)
| Raise (e : Exception).
Arguments Return {A} a.
Arguments Raise {A} e.

(** ** write_subject_to_nwb: the syllable events (kpms_utils.py, 160-167) *)

(** The value of a computation on signed integers of [width] bits that
    came out as [z]. *)
Definition wrap (width z : Z) : Z :=
  ((z + 2 ^ (width - 1)) mod 2 ^ width - 2 ^ (width - 1))%Z.

(** [a + 1] on an array of signed integers of [width] bits *)
Definition add_1 (width : Z) (a : list Z) : list Z :=
  map (fun v => wrap width (v + 1)) a.

(** [np.max(a)]: ValueError ([None]) on an empty array *)
Definition np_max (a : list Z) : option Z :=
  match a with
  | [] => None
  | x :: r => Some (fold_left Z.max r x)
  end.

(** [range(n)] *)
Definition range (n : Z) : list nat := seq 0 (Z.to_nat n).

(** [a[ixs]] for an array of non-negative indices; IndexError is [None] *)
Fixpoint take_at {A} (a : list A) (ixs : list nat) : option (list A) :=
  match ixs with
  | [] => Some []
  | i :: r =>
      match nth_error a i, take_at a r with
      | Some v, Some vs => Some (v :: vs)
      | _, _ => None
      end
  end.

(** The arguments that [ndx_events.LabeledEvents] is called with. *)
Record LabeledEvents : Type := mkLabeledEvents {
  events_name : string;
  events_description : string;
  events_timestamps : list float;
  events_data : list Z;
  events_labels : list string }.

(** The local [syllables] of write_subject_to_nwb, for labels stored as
    signed integers of [width] bits.  The keyword arguments are evaluated in
    the order they are written: the time stamps before the labels. *)
Definition syllables (width : Z) (syllables_arr : list Z)
    (timestamps : list float) : Result LabeledEvents :=
  match dense_syllables_to_events syllables_arr with
  | None => Raise IndexError
  | Some (syll_ix, syll_lab) =>
      match take_at timestamps syll_ix with
      | None => Raise IndexError
      | Some stamps =>
          match np_max (add_1 width syll_lab) with
          | None => Raise ValueError
          | Some n =>
              Return (mkLabeledEvents "syllable" "Syllable onset times." stamps
                        syll_lab
                        (map (fun i => ("Syllable " ++ Neo.str i)%string) (range n)))
          end
      end
  end.

(** ** KeypointMoseqSubjectInterface.add_to_nwbfile: the skeleton
       (keypointmoseqdatainterface.py, 59-63) *)

(** [l.index(x)]: the first position of [x]; ValueError is [None] *)
Fixpoint list_index (l : list string) (x : string) : option nat :=
  match l with
  | [] => None
  | y :: r =>
      if String.eqb y x then Some 0
      else match list_index r x with Some i => Some (S i) | None => None end
  end.

(** [i] is the first position of [bp] in [ub]. *)
Definition first_position (ub : list string) (i : nat) (bp : string) : Prop :=
  nth_error ub i = Some bp /\ forall j, j < i -> nth_error ub j <> Some bp.

(** [[use_bodyparts.index(bp) for bp in bone]] *)
Fixpoint bone_indices (use_bodyparts : list string) (bone : list string)
  : Result (list nat) :=
  match bone with
  | [] => Return []
  | bp :: r =>
      match list_index use_bodyparts bp with
      | None => Raise ValueError
      | Some i =>
          match bone_indices use_bodyparts r with
          | Return rest => Return (i :: rest)
          | Raise e => Raise e
          end
      end
  end.

(** [all(bp in use_bodyparts for bp in bone)] *)
Definition all_in (use_bodyparts : list string) (bone : list string) : bool :=
  forallb (fun bp => Neo.py_in bp use_bodyparts) bone.

(** The local [skeleton] of add_to_nwbfile. *)
Fixpoint skeleton (use_bodyparts : list string) (bones : list (list string))
  : Result (list (list nat)) :=
  match bones with
  | [] => Return []
  | bone :: r =>
      if all_in use_bodyparts bone then
        match bone_indices use_bodyparts bone with
        | Raise e => Raise e
        | Return edge =>
            match skeleton use_bodyparts r with
            | Return edges => Return (edge :: edges)
            | Raise e => Raise e
            end
        end
      else skeleton use_bodyparts r
  end.

End KpmsWriter.

(** * datainterfaces/ecephys/spikeglx/spikeglxconverter.py *)

Module SpikeGLX.
#[local] Open Scope string_scope.

Inductive Exception : Type := TypeError | UnboundLocalError.

Inductive Result (A : Type) : Type :=
| Return (a : A)
| Raise (e : Exception).
Arguments Return {A} a.
Arguments Raise {A} e.

(** [sub in s] on strings *)
Fixpoint contains (sub s : string) : bool :=
  if prefix sub s then true
  else match s with
       | EmptyString => false
       | String _ r => contains sub r
       end.

(** [s[:n]] *)
Fixpoint slice_to (n : nat) (s : string) : string :=
  match n, s with
  | S k, String c r => String c (slice_to k r)
  | _, _ => EmptyString
  end.

(** [x or y] where [x] is None or a list *)
Definition py_or {A} (x y : option (list A)) : option (list A) :=
  match x with
  | Some (_ :: _) => x
  | _ => y
  end.

Section Converter.

(** pathlib: the paths, [p / name] and [p.stem]. *)
Variable Path : Type.
Variable truediv : Path -> string -> Path.
Variable stem : Path -> string.

(** The interface that a stream is given: the class and the file path of
    the constructor call.  The constructors open the file; here the call
    is recorded only. *)
Inductive Interface : Type :=
| SpikeGLXRecordingInterface (file_path : Path)
| SpikeGLXLFPInterface (file_path : Path)
| SpikeGLXNIDQInterface (file_path : Path).

(** A dict in insertion order. *)
Definition Dict : Type := list (string * Interface).

(** [d.update({key: value})] *)
Fixpoint update (d : Dict) (key : string) (value : Interface) : Dict :=
  match d with
  | [] => [(key, value)]
  | (k, v) :: r =>
      if String.eqb k key then (k, value) :: r else (k, v) :: update r key value
  end.

(** [d[key]], when present *)
Fixpoint lookup (d : Dict) (key : string) : option Interface :=
  match d with
  | [] => None
  | (k, v) :: r => if String.eqb k key then Some v else lookup r key
  end.

(** [d.keys()] *)
Definition keys (d : Dict) : list string := map fst d.

(** get_streams has no return statement. *)
Definition get_streams (folder_path : Path) : option (list string) := None.

(** The path that both the ap branch and the lf branch build. *)
Definition ap_bin (folder_path : Path) (probe_name : string) : Path :=
  truediv (truediv folder_path (stem folder_path ++ "_" ++ probe_name))
    (stem folder_path ++ "_t0." ++ probe_name ++ ".ap.bin").

(** Body of [for stream in streams]; the locals are [interface], unbound
    ([None]) before its first assignment, and the dict [data_interfaces]. *)
Definition add_stream (folder_path : Path) (locals : option Interface * Dict)
    (stream : string) : Result (option Interface * Dict) :=
  let '(interface, data_interfaces) := locals in
  let interface :=
    if contains "ap" stream
    then Some (SpikeGLXRecordingInterface (ap_bin folder_path (slice_to 5 stream)))
    else interface in
  let interface :=
    if contains "lf" stream
    then Some (SpikeGLXLFPInterface (ap_bin folder_path (slice_to 5 stream)))
    else interface in
  let interface :=
    if contains "nidq" stream
    then Some (SpikeGLXNIDQInterface
                 (truediv folder_path (stem folder_path ++ "_t0.nidq.bin")))
    else interface in
  match interface with
  | None => Raise UnboundLocalError
  | Some i => Return (interface, update data_interfaces stream i)
  end.

Fixpoint add_streams (folder_path : Path) (locals : option Interface * Dict)
    (streams : list string) : Result (option Interface * Dict) :=
  match streams with
  | [] => Return locals
  | stream :: r =>
      match add_stream folder_path locals stream with
      | Return locals' => add_streams folder_path locals' r
      | Raise e => Raise e
      end
  end.

(** SpikeGLXConverter.__init__, up to the call of the parent's __init__: the
    value of [data_interfaces]. *)
Definition __init__ (folder_path : Path) (streams : option (list string))
  : Result Dict :=
  let available_streams := get_streams folder_path in
  let streams := py_or streams available_streams in
  match streams with
  | None => Raise TypeError
  | Some l =>
      match add_streams folder_path (None, []) l with
      | Return (_, data_interfaces) => Return data_interfaces
      | Raise e => Raise e
      end
  end.

(** ** Vocabulary *)

(** The stream names one of the three kinds. *)
Definition marked (stream : string) : bool :=
  contains "ap" stream || contains "lf" stream || contains "nidq" stream.

(** The interface of a stream that names a kind: the last of the three
    branches that applies. *)
Definition interface_for (folder_path : Path) (stream : string) : Interface :=
  if contains "nidq" stream
  then SpikeGLXNIDQInterface (truediv folder_path (stem folder_path ++ "_t0.nidq.bin"))
  else if contains "lf" stream
  then SpikeGLXLFPInterface (ap_bin folder_path (slice_to 5 stream))
  else SpikeGLXRecordingInterface (ap_bin folder_path (slice_to 5 stream)).

(** What holds of the locals after the streams [done]: the keys are the
    streams seen, each once; a stream that names a kind has its own
    interface; every interface in the dict, and the one at hand, is that of
    a stream seen that names a kind. *)
Definition loop_invariant (folder_path : Path) (done : list string)
    (locals : option Interface * Dict) : Prop :=
  let (cur, d) := locals in
  NoDup (keys d)
  /\ (forall s, In s (keys d) <-> In s done)
  /\ (forall s, In s done -> marked s = true ->
                lookup d s = Some (interface_for folder_path s))
  /\ (forall s i, lookup d s = Some i ->
                  exists s', In s' done /\ marked s' = true
                             /\ i = interface_for folder_path s')
  /\ (forall i, cur = Some i ->
                exists s', In s' done /\ marked s' = true
                           /\ i = interface_for folder_path s').

End Converter.

End SpikeGLX.

(** * Facts about the changepoint extractor *)

Module KpmsFacts.
Import Kpms KpmsSpec.
#[local] Open Scope nat_scope.

Lemma where_from_filter (mask : list bool) : forall k,
  where_from k mask
  = filter (fun j => nth (j - k) mask false) (seq k (length mask)).
Proof.
  induction mask as [|b m IH]; intros k; [reflexivity|].
  cbn [length seq].
  change (filter ?f (k :: ?s)) with (if f k then k :: filter f s else filter f s).
  cbv beta. rewrite Nat.sub_diag. cbn [nth where_from].
  rewrite (IH (S k)).
  rewrite (filter_ext_in (fun j => nth (j - k) (b :: m) false)
                         (fun j => nth (j - S k) m false)).
  - destruct b; reflexivity.
  - intros j Hj. apply in_seq in Hj.
    replace (j - k) with (S (j - S k)) by lia. reflexivity.
Qed.

Lemma filter_seq_sorted (f : nat -> bool) : forall n a,
  StronglySorted lt (filter f (seq a n)).
Proof.
  induction n as [|n IH]; intros a; cbn [seq filter]; [constructor|].
  destruct (f a); [|apply IH].
  constructor; [apply IH|].
  apply Forall_forall. intros j Hj.
  apply filter_In in Hj. destruct Hj as [Hj _].
  apply in_seq in Hj. lia.
Qed.

Lemma filter_seq_shift (f : nat -> bool) : forall n a,
  filter f (seq (S a) n) = map S (filter (fun j => f (S j)) (seq a n)).
Proof.
  induction n as [|n IH]; intros a; cbn [seq filter]; [reflexivity|].
  rewrite IH. destruct (f (S a)); reflexivity.
Qed.

Lemma adjacent_mask_cons2 x y r :
  adjacent_mask (x :: y :: r) = negb (y =? x)%Z :: adjacent_mask (y :: r).
Proof. reflexivity. Qed.

Lemma adjacent_mask_length : forall l, length (adjacent_mask l) = length l - 1.
Proof.
  induction l as [|x [|y r] IH]; try reflexivity.
  rewrite adjacent_mask_cons2. cbn [length] in *. lia.
Qed.

Lemma adjacent_mask_nth : forall l j, j < length l - 1 ->
  nth j (adjacent_mask l) false = negb (label_at l (S j) =? label_at l j)%Z.
Proof.
  induction l as [|x [|y r] IH]; intros j Hj; cbn [length] in Hj; try lia.
  rewrite adjacent_mask_cons2. destruct j as [|j]; [reflexivity|].
  cbn [nth]. rewrite IH by (cbn [length]; lia). reflexivity.
Qed.

Lemma changepoints_filter l :
  np_where (adjacent_mask l)
  = filter (fun j => differs_from_previous l (S j)) (seq 0 (length l - 1)).
Proof.
  unfold np_where. rewrite where_from_filter, adjacent_mask_length.
  apply filter_ext_in. intros j Hj. apply in_seq in Hj.
  rewrite Nat.sub_0_r, adjacent_mask_nth by lia.
  unfold differs_from_previous. cbn [Nat.sub]. rewrite Nat.sub_0_r. reflexivity.
Qed.

Lemma change_positions_shift l :
  change_positions l = map S (np_where (adjacent_mask l)).
Proof.
  unfold change_positions. rewrite filter_seq_shift, changepoints_filter.
  reflexivity.
Qed.

Lemma take_in_range (a : list Z) : forall ixs,
  Forall (fun i => i < length a) ixs ->
  take a ixs = Some (map (label_at a) ixs).
Proof.
  induction ixs as [|i r IH]; intros H; [reflexivity|].
  inversion H as [|? ? Hi Hr]; subst. cbn [take map].
  rewrite IH by assumption.
  destruct (nth_error a i) as [v|] eqn:E.
  - unfold label_at. rewrite (nth_error_nth _ _ _ E). reflexivity.
  - apply nth_error_None in E. lia.
Qed.

Lemma changepoints_in_range l :
  Forall (fun i => i < length l) (np_where (adjacent_mask l)).
Proof.
  rewrite changepoints_filter. apply Forall_forall. intros j Hj.
  apply filter_In in Hj. destruct Hj as [Hj _]. apply in_seq in Hj. lia.
Qed.

Lemma dense_syllables_to_events_eq l :
  dense_syllables_to_events l
  = Some (np_where (adjacent_mask l), map (label_at l) (np_where (adjacent_mask l))).
Proof.
  unfold dense_syllables_to_events. fold (adjacent_mask l).
  rewrite take_in_range by apply changepoints_in_range. reflexivity.
Qed.

Lemma adjacent_mask_repeat v : forall n,
  adjacent_mask (repeat v (S n)) = repeat false n.
Proof.
  induction n as [|n IH]; [reflexivity|].
  change (repeat v (S (S n))) with (v :: v :: repeat v n).
  rewrite adjacent_mask_cons2, Z.eqb_refl.
  change (v :: repeat v n) with (repeat v (S n)). rewrite IH. reflexivity.
Qed.

Lemma where_from_all_false : forall n k, where_from k (repeat false n) = [].
Proof. induction n as [|n IH]; intros k; [reflexivity|]. cbn. apply IH. Qed.

Lemma strictly_increasing_NoDup : forall l, StronglySorted lt l -> NoDup l.
Proof.
  induction 1 as [|a l _ IH Ha]; constructor; [|exact IH].
  intros Hin. rewrite Forall_forall in Ha. specialize (Ha a Hin). lia.
Qed.

(** C1, as the code has it: for each position [i] from 1 to length-1 with
    [labels[i] != labels[i-1]] the extractor reports the index [i-1] and the
    label [labels[i-1]], the frame and the label before the change.  On
    [1,1,2,2,3] the changes are at 2 and 4, to the labels 2 and 3, and the
    extractor returns the indices [1,3] and the values [1,2]. *)
Theorem dense_syllables_to_events_reports_frame_before_change :
  (forall labels,
      dense_syllables_to_events labels
      = Some (map pred (change_positions labels),
              map (fun i => label_at labels (pred i)) (change_positions labels)))
  /\ change_positions [1; 1; 2; 2; 3]%Z = [2; 4]
  /\ map (label_at [1; 1; 2; 2; 3]%Z) [2; 4] = [2; 3]%Z
  /\ dense_syllables_to_events [1; 1; 2; 2; 3]%Z = Some ([1; 3], [1; 2]%Z).
Proof.
  split; [|repeat split; reflexivity].
  intros labels.
  rewrite dense_syllables_to_events_eq, change_positions_shift, !map_map.
  cbn [pred]. rewrite map_id. reflexivity.
Qed.

(** C8: the two outputs of the extractor have the same length, which is
    the number of positions whose label differs from the one before; the
    indices are strictly increasing and without repeats; the empty sequence
    and every constant sequence, such as [5,5,5,5], give two empty
    outputs. *)
Theorem dense_syllables_to_events_shape :
  (forall labels, exists ixs vals,
      dense_syllables_to_events labels = Some (ixs, vals)
      /\ length ixs = length vals
      /\ length ixs = length (change_positions labels)
      /\ StronglySorted lt ixs
      /\ NoDup ixs)
  /\ dense_syllables_to_events [] = Some ([], [])
  /\ (forall v n, dense_syllables_to_events (repeat v n) = Some ([], []))
  /\ dense_syllables_to_events [5; 5; 5; 5]%Z = Some ([], []).
Proof.
  split; [|split; [reflexivity|split; [|reflexivity]]].
  - intros labels. eexists _, _. split; [apply dense_syllables_to_events_eq|].
    assert (S : StronglySorted lt (np_where (adjacent_mask labels))).
    { rewrite changepoints_filter. apply filter_seq_sorted. }
    repeat split.
    + now rewrite length_map.
    + rewrite change_positions_shift. now rewrite length_map.
    + exact S.
    + apply strictly_increasing_NoDup, S.
  - intros v [|n]; [reflexivity|].
    rewrite dense_syllables_to_events_eq, adjacent_mask_repeat.
    unfold np_where. rewrite where_from_all_false. reflexivity.
Qed.

End KpmsFacts.

(** * Facts about the recording assembler *)

Module NeoFacts.
Import Neo NeoSpec.
#[local] Open Scope string_scope.
#[local] Open Scope py_scope.
#[local] Open Scope list_scope.

(** ** Running a computation step by step *)

Lemma bind_run {A B} (m : M A) (k : A -> M B) w w' a :
  m w = (w', Return a) -> bind m k w = k a w'.
Proof. intros E. unfold bind. rewrite E. reflexivity. Qed.

Lemma bind_run_raise {A B} (m : M A) (k : A -> M B) w w' e :
  m w = (w', Raise e) -> bind m k w = (w', Raise e).
Proof. intros E. unfold bind. rewrite E. reflexivity. Qed.

Lemma bind_ret {A B} (a : A) (k : A -> M B) w : bind (ret a) k w = k a w.
Proof. reflexivity. Qed.

Lemma bind_get_nwbfile {B} (k : NWBFile -> M B) w :
  bind get_nwbfile k w = k (nwbfile w) w.
Proof. reflexivity. Qed.

Lemma bind_get_metadata {B} (k : option Metadata -> M B) w :
  bind get_metadata k w = k (metadata w) w.
Proof. reflexivity. Qed.

Lemma bind_the_metadata {B} (k : Metadata -> M B) w :
  bind the_metadata k w
  = match metadata w with Some m => k m w | None => (w, Raise TypeError) end.
Proof.
  unfold the_metadata, get_metadata, bind. destruct (metadata w); reflexivity.
Qed.

Lemma bind_getitem {A B} (x : option A) key (k : A -> M B) w :
  bind (getitem x key) k w
  = match x with Some v => k v w | None => (w, Raise (KeyError key)) end.
Proof. destruct x; reflexivity. Qed.

Lemma bind_index {A B} (l : list A) i (k : A -> M B) w :
  bind (index l i) k w
  = match nth_error l i with Some v => k v w | None => (w, Raise IndexError) end.
Proof. unfold index. destruct (nth_error l i); reflexivity. Qed.

Lemma bind_assert {B} b msg (k : unit -> M B) w :
  bind (assert b msg) k w
  = if b then k tt w else (w, Raise (AssertionError msg)).
Proof. destruct b; reflexivity. Qed.

Lemma bind_warn {B} x (k : unit -> M B) w : bind (warn x) k w = k tt (emit x w).
Proof. reflexivity. Qed.

Lemma bind_assoc {A B C} (m : M A) (k : A -> M B) (h : B -> M C) w :
  bind (bind m k) h w = bind m (fun a => bind (k a) h) w.
Proof. unfold bind. destruct (m w) as [w' [a|e]]; reflexivity. Qed.

Lemma bind_unit_r (m : M unit) w : bind m (fun _ => ret tt) w = m w.
Proof. unfold bind. destruct (m w) as [w' [[]|e]]; reflexivity. Qed.

Lemma bind_create_device {B} d (k : unit -> M B) w :
  bind (create_device d) k w
  = if has_device (device_name d) (nwbfile w)
    then (w, Raise (ValueError (device_name d)))
    else k tt (with_nwbfile w (with_device (nwbfile w) d)).
Proof.
  unfold create_device. rewrite bind_assoc, bind_get_nwbfile.
  destruct (has_device _ _); reflexivity.
Qed.

Lemma bind_create_icephys_electrode {B} e (k : unit -> M B) w :
  bind (create_icephys_electrode e) k w
  = if has_electrode (electrode_name e) (nwbfile w)
    then (w, Raise (ValueError (electrode_name e)))
    else k tt (with_nwbfile w (with_electrode (nwbfile w) e)).
Proof.
  unfold create_icephys_electrode. rewrite bind_assoc, bind_get_nwbfile.
  destruct (has_electrode _ _); reflexivity.
Qed.

Lemma bind_add_intracellular_recording {B} e resp stim (k : nat -> M B) w :
  bind (add_intracellular_recording e resp stim) k w
  = k (length (rows w)) (with_row w (mkRecording (length (rows w)) e resp stim)).
Proof. reflexivity. Qed.

Lemma bind_setitem_Icephys {B} v (k : unit -> M B) w m :
  metadata w = Some m ->
  bind (setitem_Icephys v) k w = k tt (with_metadata w (Some (set_Icephys m v))).
Proof.
  intros E. unfold setitem_Icephys. rewrite bind_assoc, bind_the_metadata, E.
  reflexivity.
Qed.

Lemma bind_setitem_Icephys_Electrodes {B} l (k : unit -> M B) w m i :
  metadata w = Some m -> md_Icephys m = Some i ->
  bind (setitem_Icephys_Electrodes l) k w
  = k tt (with_metadata w (Some (set_Icephys m (set_Electrodes i l)))).
Proof.
  intros E Ei. unfold setitem_Icephys_Electrodes.
  rewrite bind_assoc, bind_the_metadata, E, bind_assoc, bind_getitem, Ei.
  reflexivity.
Qed.

Lemma get_conversion_from_unit_run unit w :
  exists c ws,
    get_conversion_from_unit unit w
    = (mkWorld (nwbfile w) (metadata w) ws, Return c).
Proof.
  unfold get_conversion_from_unit.
  repeat match goal with
         | |- context [if ?b then _ else _] => destruct b
         end;
    try (exists 1e-12%float, (warnings w); destruct w; reflexivity);
    try (exists 1e-9%float, (warnings w); destruct w; reflexivity);
    try (exists 1e-6%float, (warnings w); destruct w; reflexivity);
    try (exists 1e-3%float, (warnings w); destruct w; reflexivity);
    try (exists 1.0%float, (warnings w); destruct w; reflexivity).
  exists 1.0%float, (warnings w ++ [NoValidUnits]). reflexivity.
Qed.

(** Symbolic execution of a run that is known to return. *)
Ltac run_in H :=
  repeat
    (cbv beta in H;
     first
       [ rewrite bind_assoc in H
       | rewrite bind_ret in H
       | rewrite bind_add_intracellular_recording in H
       | rewrite bind_get_nwbfile in H
       | rewrite bind_index in H;
         lazymatch type of H with
         | match nth_error ?l ?i with _ => _ end = _ =>
             destruct (nth_error l i) eqn:?; [|discriminate H]
         end
       | rewrite bind_getitem in H;
         lazymatch type of H with
         | match ?x with _ => _ end = _ =>
             destruct x eqn:?; [|discriminate H]
         end
       | lazymatch type of H with
         | bind (get_conversion_from_unit ?u) _ ?w = _ =>
             let c := fresh "c" in
             let ws := fresh "ws" in
             let E := fresh "E" in
             destruct (get_conversion_from_unit_run u w) as (c & ws & E);
             rewrite (bind_run _ _ _ _ _ E) in H; clear E
         end ]).

(** ** The unit resolver *)

Lemma py_in_false x l : ~ In x l -> py_in x l = false.
Proof.
  intros H. unfold py_in. apply not_true_is_false. intros E.
  apply existsb_exists in E. destruct E as [y [Hy E]].
  apply String.eqb_eq in E. subst. contradiction.
Qed.

(** C5: the unit resolver returns 1e-12 for "pA" and 1e-3 for "mV"; for every
    unit string outside the closed, case-sensitive table of prefix + base
    unit it returns exactly 1.0, emits the warning and does not raise. *)
Theorem get_conversion_from_unit_table :
  (forall w, get_conversion_from_unit "pA" w = (w, Return 1e-12%float))
  /\ (forall w, get_conversion_from_unit "mV" w = (w, Return 1e-3%float))
  /\ (forall unit w, ~ In unit unit_table ->
        get_conversion_from_unit unit w = (emit NoValidUnits w, Return 1.0%float)).
Proof.
  split; [reflexivity|split; [reflexivity|]].
  intros unit w H. unfold get_conversion_from_unit.
  rewrite !py_in_false; [reflexivity|..];
    intros Hin; apply H; cbn in Hin |- *; intuition.
Qed.

Lemma get_conversion_from_unit_table_witness :
  get_conversion_from_unit "XYZ" (mkWorld (mkNWBFile [] [] [] [] []) None [])
  = (mkWorld (mkNWBFile [] [] [] [] []) None [NoValidUnits], Return 1.0%float)
  /\ get_conversion_from_unit "mv" (mkWorld (mkNWBFile [] [] [] [] []) None [])
  = (mkWorld (mkNWBFile [] [] [] [] []) None [NoValidUnits], Return 1.0%float).
Proof.
  split.
  - apply (proj2 (proj2 get_conversion_from_unit_table) "XYZ").
    vm_compute. intuition discriminate.
  - apply (proj2 (proj2 get_conversion_from_unit_table) "mv").
    vm_compute. intuition discriminate.
Defined.

(** ** Stable relations *)

Section Stable.
Context (R : World -> World -> Prop) {HR : PreOrder R}.

Lemma stable_ret {A} (a : A) : stable R (ret a).
Proof. intros w. reflexivity. Qed.

Lemma stable_raise {A} e : stable R (@raise A e).
Proof. intros w. reflexivity. Qed.

Lemma stable_bind {A B} (m : M A) (k : A -> M B) :
  stable R m -> (forall a, stable R (k a)) -> stable R (bind m k).
Proof.
  intros Hm Hk w. unfold bind. specialize (Hm w).
  destruct (m w) as [w' [a|e]]; cbn in *; [|exact Hm].
  transitivity w'; [exact Hm|apply Hk].
Qed.

Lemma stable_get_nwbfile : stable R get_nwbfile.
Proof. intros w. reflexivity. Qed.

Lemma stable_get_metadata : stable R get_metadata.
Proof. intros w. reflexivity. Qed.

Lemma stable_the_metadata : stable R the_metadata.
Proof. intros w. unfold the_metadata, bind, get_metadata. destruct (metadata w); reflexivity. Qed.

Lemma stable_assert b msg : stable R (assert b msg).
Proof. destruct b; [apply stable_ret|apply stable_raise]. Qed.

Lemma stable_when b m : stable R m -> stable R (when b m).
Proof. destruct b; [trivial|intros _; apply stable_ret]. Qed.

Lemma stable_getitem {A} (x : option A) key : stable R (getitem x key).
Proof. destruct x; [apply stable_ret|apply stable_raise]. Qed.

Lemma stable_index {A} (l : list A) i : stable R (index l i).
Proof. unfold index. destruct (nth_error l i); [apply stable_ret|apply stable_raise]. Qed.

Lemma stable_for_each {A} (body : A -> M unit) l :
  (forall x, stable R (body x)) -> stable R (for_each l body).
Proof.
  intros H. induction l as [|x l IH]; [apply stable_ret|].
  apply stable_bind; [apply H|intros _; exact IH].
Qed.

Lemma stable_for_fold {A S} (body : S -> A -> M S) l :
  (forall s x, stable R (body s x)) -> forall s, stable R (for_fold l s body).
Proof.
  intros H. induction l as [|x l IH]; intros s; [apply stable_ret|].
  apply stable_bind; [apply H|intros s'; apply IH].
Qed.

Lemma stable_comprehension {A B} (f : A -> M B) l :
  (forall x, stable R (f x)) -> stable R (comprehension l f).
Proof.
  intros H. induction l as [|x l IH]; [apply stable_ret|].
  apply stable_bind; [apply H|intros y].
  apply stable_bind; [exact IH|intros ys; apply stable_ret].
Qed.

End Stable.

Lemma stable_weaken (R1 R2 : World -> World -> Prop) {A} (m : M A) :
  (forall w w', R1 w w' -> R2 w w') -> stable R1 m -> stable R2 m.
Proof. intros H Hm w. apply H, Hm. Qed.

Ltac stable_step :=
  lazymatch goal with
  | |- stable ?R (ret _) => apply (stable_ret R)
  | |- stable ?R (raise _) => apply (stable_raise R)
  | |- stable ?R get_nwbfile => apply (stable_get_nwbfile R)
  | |- stable ?R get_metadata => apply (stable_get_metadata R)
  | |- stable ?R the_metadata => apply (stable_the_metadata R)
  | |- stable ?R (assert _ _) => apply (stable_assert R)
  | |- stable ?R (getitem _ _) => apply (stable_getitem R)
  | |- stable ?R (index _ _) => apply (stable_index R)
  | |- stable ?R (when _ _) => apply (stable_when R)
  | |- stable ?R (bind _ _) => apply (stable_bind R); [|intros ?]
  | |- stable ?R (for_each _ _) => apply (stable_for_each R); intros ?
  | |- stable ?R (for_fold _ _ _) => apply (stable_for_fold R); intros ? ?
  | |- stable ?R (comprehension _ _) => apply (stable_comprehension R); intros ?
  | |- stable _ (if ?b then _ else _) => destruct b
  | |- stable _ (match ?x with _ => _ end) => destruct x
  end.

(** ** What the electrode registrar leaves alone *)

Lemma more_warnings_same w w' : warnings w' = warnings w -> more_warnings w w'.
Proof. intros E. exists []. rewrite app_nil_r. exact E. Qed.

Lemma more_warnings_trans a b c :
  more_warnings a b -> more_warnings b c -> more_warnings a c.
Proof.
  intros [x Hx] [y Hy]. exists (x ++ y). rewrite Hy, Hx, app_assoc. reflexivity.
Qed.

#[export] Instance frame_preorder : PreOrder frame.
Proof.
  split.
  - intros w. unfold frame. repeat split; try reflexivity.
    apply more_warnings_same. reflexivity.
  - intros a b c (H1 & H2 & H3 & H4 & H5) (K1 & K2 & K3 & K4 & K5).
    unfold frame. repeat split; try congruence.
    eapply more_warnings_trans; eassumption.
Qed.

Lemma frame_warn x : stable frame (warn x).
Proof.
  intros w. unfold frame. cbn. repeat split; auto. exists [x]. reflexivity.
Qed.

Lemma frame_create_device d : stable frame (create_device d).
Proof.
  intros w. unfold create_device, bind, get_nwbfile.
  destruct (has_device _ _); cbn; [reflexivity|].
  unfold frame. cbn. repeat split; auto using more_warnings_same.
Qed.

Lemma frame_create_icephys_electrode e : stable frame (create_icephys_electrode e).
Proof.
  intros w. unfold create_icephys_electrode, bind, get_nwbfile.
  destruct (has_electrode _ _); cbn; [reflexivity|].
  unfold frame. cbn. repeat split; auto using more_warnings_same.
Qed.

Lemma frame_add_device_from_metadata fallback modality m :
  stable frame (add_device_from_metadata fallback modality m).
Proof.
  unfold add_device_from_metadata.
  repeat lazymatch goal with
         | |- stable _ (create_device _) => fail
         | |- stable _ (match ?x with _ => _ end) => destruct x
         end; apply frame_create_device.
Qed.

Ltac frame_step :=
  lazymatch goal with
  | |- stable _ (warn _) => apply frame_warn
  | |- stable _ (create_device _) => apply frame_create_device
  | |- stable _ (create_icephys_electrode _) => apply frame_create_icephys_electrode
  | |- stable _ (add_device_from_metadata _ _ _) => apply frame_add_device_from_metadata
  | |- _ => stable_step
  end.

Lemma frame_create_electrode_from fallback defaults elec :
  stable frame (create_electrode_from fallback defaults elec).
Proof. unfold create_electrode_from. repeat frame_step. Qed.

Lemma frame_setitem_Icephys_Electrodes l :
  stable frame (setitem_Icephys_Electrodes l).
Proof.
  intros w. unfold setitem_Icephys_Electrodes, the_metadata, get_metadata, bind.
  destruct (metadata w) as [m|] eqn:E; cbn; [|reflexivity].
  destruct (md_Icephys m) as [i|] eqn:Ei; cbn; [|reflexivity].
  unfold frame. cbn. rewrite E. cbn. rewrite Ei.
  repeat split; auto using more_warnings_same.
Qed.

(** [if "Icephys" not in metadata: metadata["Icephys"] = dict()] *)
Lemma frame_default_Icephys {A} (k : M A) :
  stable frame k ->
  stable frame (m <- the_metadata ;;
                when (is_none (md_Icephys m)) (setitem_Icephys empty_modality) ;; k).
Proof.
  intros Hk w. unfold the_metadata, get_metadata, bind at 1 2.
  destruct (metadata w) as [m|] eqn:E; cbn [fst ret raise]; [|reflexivity].
  destruct (md_Icephys m) as [i|] eqn:Ei; cbn [is_none when].
  - apply Hk.
  - unfold setitem_Icephys, the_metadata, get_metadata, bind. rewrite E.
    cbn [put_metadata ret].
    etransitivity; [|apply Hk].
    unfold frame. cbn. rewrite E. cbn. rewrite Ei.
    repeat split; auto using more_warnings_same.
Qed.

Lemma frame_with_default_dict body :
  stable frame body -> stable frame (with_default_dict body).
Proof.
  intros H w. unfold with_default_dict.
  destruct (metadata w) eqn:E; [apply H|].
  specialize (H (mkWorld (nwbfile w) (Some empty_dict) (warnings w))).
  destruct (body _) as [w' r]. cbn in *.
  destruct H as (H1 & H2 & H3 & H4 & H5).
  unfold frame. rewrite E. cbn in *. repeat split; assumption.
Qed.

Ltac registrar_step :=
  lazymatch goal with
  | |- stable _ (setitem_Icephys_Electrodes _) => apply frame_setitem_Icephys_Electrodes
  | |- stable _ (create_electrode_from _ _ _) => apply frame_create_electrode_from
  | |- _ => frame_step
  end.

Lemma frame_add_icephys_electrode fallback r :
  stable frame (add_icephys_electrode fallback r).
Proof.
  unfold add_icephys_electrode.
  apply (stable_bind frame); [apply (stable_get_nwbfile frame)|intros f].
  apply (stable_bind frame); [repeat registrar_step|intros _].
  apply frame_with_default_dict, frame_default_Icephys.
  repeat registrar_step.
Qed.

Lemma frame_ensure_electrodes fallback r b :
  stable frame (when b (warn NoElectrodesFound ;; add_icephys_electrode fallback r)).
Proof.
  apply (stable_when frame), (stable_bind frame); [apply frame_warn|intros _].
  apply frame_add_icephys_electrode.
Qed.

Lemma frame_detect_n_commands r : stable frame (detect_n_commands r).
Proof. unfold detect_n_commands. repeat frame_step. Qed.

Lemma frame_untouched w w' : frame w w' -> untouched w w'.
Proof. intros (?&?&?&_). repeat split; assumption. Qed.

(** ** Rows are only appended *)

#[export] Instance appended_preorder P : PreOrder (appended P).
Proof.
  split.
  - intros w. split; [|apply more_warnings_same; reflexivity].
    exists []. rewrite app_nil_r. repeat split. constructor.
  - intros a b c [(n1 & E1 & I1 & F1) W1] [(n2 & E2 & I2 & F2) W2].
    split; [|eapply more_warnings_trans; eassumption].
    exists (n1 ++ n2). rewrite E2, E1, <- app_assoc. split; [reflexivity|].
    split; [|apply Forall_app; auto].
    rewrite map_app, I1, I2, E1, !length_app, seq_app. reflexivity.
Qed.

Lemma frame_appended P w w' : frame w w' -> appended P w w'.
Proof.
  intros (H1 & _ & _ & _ & H5). split; [|exact H5].
  exists []. rewrite app_nil_r. repeat split; auto.
Qed.

Lemma appended_warn P x : stable (appended P) (warn x).
Proof. apply (stable_weaken frame); [apply frame_appended|apply frame_warn]. Qed.

Lemma appended_add_icephys_electrode P fallback r :
  stable (appended P) (add_icephys_electrode fallback r).
Proof.
  apply (stable_weaken frame); [apply frame_appended|].
  apply frame_add_icephys_electrode.
Qed.

Lemma appended_add_intracellular_recording (P : IntracellularRecording -> Prop)
    electrode response stimulus :
  (forall i, P (mkRecording i electrode response stimulus)) ->
  stable (appended P) (add_intracellular_recording electrode response stimulus).
Proof.
  intros HP w. split; [|apply more_warnings_same; reflexivity]. cbn.
  eexists [_]. split; [reflexivity|]. split; [reflexivity|].
  constructor; [apply HP|constructor].
Qed.

Lemma appended_add_icephys_simultaneous_recording P recordings :
  stable (appended P) (add_icephys_simultaneous_recording recordings).
Proof.
  intros w. split; [|apply more_warnings_same; reflexivity]. cbn.
  exists []. rewrite app_nil_r. repeat split. constructor.
Qed.

Lemma appended_add_icephys_sequential_recording P l st :
  stable (appended P) (add_icephys_sequential_recording l st).
Proof.
  intros w. split; [|apply more_warnings_same; reflexivity]. cbn.
  exists []. rewrite app_nil_r. repeat split. constructor.
Qed.

Lemma appended_get_conversion_from_unit P unit :
  stable (appended P) (get_conversion_from_unit unit).
Proof.
  unfold get_conversion_from_unit.
  repeat lazymatch goal with
         | |- stable _ (warn _) => apply appended_warn
         | |- _ => stable_step
         end.
Qed.

Ltac appended_step :=
  lazymatch goal with
  | |- stable _ (warn _) => apply appended_warn
  | |- stable _ (add_icephys_electrode _ _) => apply appended_add_icephys_electrode
  | |- stable _ (get_conversion_from_unit _) => apply appended_get_conversion_from_unit
  | |- stable _ (add_icephys_simultaneous_recording _) =>
      apply appended_add_icephys_simultaneous_recording
  | |- stable _ (add_icephys_sequential_recording _ _) =>
      apply appended_add_icephys_sequential_recording
  | |- stable ?R (bind (ret ?x) ?k) => change (stable R (k x)); cbv beta
  | |- _ => stable_step
  end.

Lemma appended_record_electrode P r t skip compression offset start st si locals item :
  allows t P ->
  stable (appended P)
    (record_electrode r t skip compression offset start st si locals item).
Proof.
  intros HP. unfold record_electrode.
  destruct locals as [ri recordings], item as [ei electrode].
  destruct (existsb (Nat.eqb ei) skip); [apply (stable_ret _)|].
  destruct (String.eqb_spec t "izero") as [->|Hne]; cbn [negb].
  - change (response_classes "izero") with (Some IZeroClampSeries).
    cbn [getitem].
    repeat appended_step.
    apply appended_add_intracellular_recording.
    intros i. apply HP. intros _. split; reflexivity.
  - repeat appended_step.
    apply appended_add_intracellular_recording.
    intros i. apply HP. intros E. contradiction.
Qed.

Lemma appended_record_segment P r t skip compression offset start st locals si :
  allows t P ->
  stable (appended P) (record_segment r t skip compression offset start st locals si).
Proof.
  intros HP. unfold record_segment. destruct locals as [ri simultaneous].
  repeat lazymatch goal with
         | |- stable _ (record_electrode _ _ _ _ _ _ _ _ _ _) =>
             apply appended_record_electrode, HP
         | |- _ => appended_step
         end.
Qed.

Lemma appended_add_icephys_recordings P fallback r t st skip compression :
  (forall t', allows t' P) ->
  stable (appended P) (add_icephys_recordings fallback r t st skip compression).
Proof.
  intros HP. unfold add_icephys_recordings, detect_n_commands.
  repeat lazymatch goal with
         | |- stable _ (record_segment _ _ _ _ _ _ _ _ _) =>
             apply appended_record_segment, HP
         | |- _ => appended_step
         end.
Qed.

Lemma seq_strictly_increasing : forall n a, StronglySorted lt (seq a n).
Proof.
  induction n as [|n IH]; intros a; cbn [seq]; constructor; [apply IH|].
  apply Forall_forall. intros j Hj. apply in_seq in Hj. lia.
Qed.

(** ** Commands, segments and session metadata *)

Lemma detect_n_commands_eq r w :
  exists w', detect_n_commands r w = (w', Return (n_commands_of r))
    /\ nwbfile w' = nwbfile w /\ metadata w' = metadata w
    /\ (n_commands_of r <> 0 -> w' = w).
Proof.
  unfold detect_n_commands, n_commands_of.
  destruct (ltb (fFileVersionNumber r) 2).
  - eexists. split; [reflexivity|]. cbn. repeat split. intros H. contradiction.
  - eexists. split; [reflexivity|]. repeat split.
Qed.

Lemma detect_n_commands_warnings r w :
  more_warnings w (fst (detect_n_commands r w)).
Proof.
  unfold detect_n_commands. destruct (ltb (fFileVersionNumber r) 2).
  - eexists [_]. reflexivity.
  - exists []. cbn. rewrite app_nil_r. reflexivity.
Qed.

(** C2: when the reader reports a number of commands that is neither zero
    nor the number of segments, [add_icephys_recordings] raises the
    assertion error and leaves the whole state as it was: no row, no
    simultaneous group and no sequential group is appended. *)
Theorem add_icephys_recordings_rejects_command_mismatch
    fallback r experiment_type stimulus_type skip compression w :
  n_commands_of r <> 0 ->
  n_commands_of r <> get_number_of_segments r 0 ->
  add_icephys_recordings fallback r experiment_type stimulus_type skip compression w
  = (w, Raise (AssertionError
                 (inconsistent_msg (get_number_of_segments r 0) (n_commands_of r)))).
Proof.
  intros H0 Hne. unfold add_icephys_recordings.
  destruct (detect_n_commands_eq r w) as [w' [E [_ [_ Hw]]]].
  rewrite (Hw H0) in E. unfold bind at 1. rewrite E.
  apply Nat.eqb_neq in H0, Hne. rewrite H0.
  unfold bind at 1. unfold bind at 1. unfold assert. rewrite Hne. reflexivity.
Qed.

Lemma add_icephys_recordings_rejects_command_mismatch_witness :
  add_icephys_recordings "DeviceIcephys" mismatched_reader "voltage_clamp"
    "not described" [] "gzip" fresh_world
  = (fresh_world,
     Raise (AssertionError
              (inconsistent_msg (get_number_of_segments mismatched_reader 0)
                 (n_commands_of mismatched_reader)))).
Proof.
  apply (add_icephys_recordings_rejects_command_mismatch "DeviceIcephys"
           mismatched_reader "voltage_clamp" "not described" [] "gzip" fresh_world);
    vm_compute; lia.
Defined.

(** C3: when the reader reports no command, the call does what a call
    with experiment type "izero" does, whatever type the caller asked for;
    the warning about missing command data is emitted; and every row the
    call appends has an IZeroClampSeries response and no Stimulus record. *)
Theorem add_icephys_recordings_without_commands
    fallback r experiment_type stimulus_type skip compression w :
  n_commands_of r = 0 ->
  let run t := add_icephys_recordings fallback r t stimulus_type skip compression w in
  run experiment_type = run "izero"
  /\ (exists ws, warnings (fst (run experiment_type)) = warnings w ++ ws
                 /\ In (NoCommandData (filename r)) ws)
  /\ exists new, rows (fst (run experiment_type)) = rows w ++ new
                 /\ Forall izero_row new.
Proof.
  intros H0 run.
  assert (E : run experiment_type = run "izero").
  { unfold run, add_icephys_recordings.
    destruct (detect_n_commands_eq r w) as [w1 [E1 _]].
    rewrite !(bind_run _ _ _ _ _ E1), H0. reflexivity. }
  split; [exact E|]. rewrite E. clear E.
  unfold run, add_icephys_recordings.
  destruct (detect_n_commands_eq r w) as [w1 [E1 [F1 _]]].
  pose proof (detect_n_commands_warnings r w) as W1.
  rewrite E1 in W1. cbn [fst] in W1. destruct W1 as [ws0 W1].
  rewrite !(bind_run _ _ _ _ _ E1), H0. cbn [Nat.eqb].
  rewrite !(bind_run _ _ w1 (emit (NoCommandData (filename r)) w1) "izero")
    by reflexivity.
  match goal with
  | |- context [fst (?m ?w')] =>
      assert (S : stable (appended izero_row) m);
      [|specialize (S w'); destruct (m w') as [w2 res]]
  end.
  { repeat lazymatch goal with
           | |- stable _ (record_segment _ _ _ _ _ _ _ _ _) =>
               apply appended_record_segment; intros row Hrow; apply Hrow; reflexivity
           | |- _ => appended_step
           end. }
  cbn [fst] in *. destruct S as [(new & En & _ & Fn) [ws2 Hw]]. split.
  - exists (ws0 ++ [NoCommandData (filename r)] ++ ws2). split.
    + rewrite Hw. cbn [emit warnings]. rewrite W1, <- !app_assoc. reflexivity.
    + apply in_or_app. right. left. reflexivity.
  - exists new. split; [|exact Fn]. rewrite En. unfold rows. cbn. rewrite F1. reflexivity.
Qed.

Lemma add_icephys_recordings_without_commands_witness :
  let run t :=
    add_icephys_recordings "DeviceIcephys" abf1_reader t "not described" [] "gzip"
      fresh_world in
  run "voltage_clamp" = run "izero"
  /\ (exists ws, warnings (fst (run "voltage_clamp")) = warnings fresh_world ++ ws
                 /\ In (NoCommandData (filename abf1_reader)) ws)
  /\ exists new, rows (fst (run "voltage_clamp")) = rows fresh_world ++ new
                 /\ Forall izero_row new.
Proof.
  apply (add_icephys_recordings_without_commands "DeviceIcephys" abf1_reader
           "voltage_clamp" "not described" [] "gzip" fresh_world).
  vm_compute. reflexivity.
Defined.

(** C4: over two consecutive calls on one container, the rows appended by
    the first call come before those of the second, their indices continue
    from the number of rows present at the start, are strictly increasing
    and pairwise distinct; when the table started with its rows numbered by
    position, so is the whole table after both calls. *)
Theorem consecutive_appends_number_rows_increasingly
    fallback r1 t1 st1 skip1 c1 r2 t2 st2 skip2 c2 w0 :
  let w1 := fst (add_icephys_recordings fallback r1 t1 st1 skip1 c1 w0) in
  let w2 := fst (add_icephys_recordings fallback r2 t2 st2 skip2 c2 w1) in
  exists new1 new2,
    rows w1 = rows w0 ++ new1
    /\ rows w2 = rows w0 ++ new1 ++ new2
    /\ map row_id (new1 ++ new2) = seq (length (rows w0)) (length (new1 ++ new2))
    /\ StronglySorted lt (map row_id (new1 ++ new2))
    /\ NoDup (map row_id (new1 ++ new2))
    /\ (map row_id (rows w0) = seq 0 (length (rows w0)) ->
        map row_id (rows w2) = seq 0 (length (rows w2))).
Proof.
  intros w1 w2.
  assert (T : forall t', allows t' (fun _ => True)) by (intros t' row _; exact I).
  destruct (appended_add_icephys_recordings _ fallback r1 t1 st1 skip1 c1 T w0)
    as [(new1 & E1 & I1 & _) _].
  destruct (appended_add_icephys_recordings _ fallback r2 t2 st2 skip2 c2 T w1)
    as [(new2 & E2 & I2 & _) _].
  fold w1 in E1. fold w2 in E2.
  assert (I12 : map row_id (new1 ++ new2)
                = seq (length (rows w0)) (length (new1 ++ new2))).
  { rewrite map_app, I1, I2, E1, !length_app, seq_app. reflexivity. }
  exists new1, new2. split; [exact E1|]. split; [rewrite E2, E1, <- app_assoc; reflexivity|].
  split; [exact I12|]. rewrite I12.
  split; [apply seq_strictly_increasing|]. split; [apply seq_NoDup|].
  intros Hwf. rewrite E2, E1, <- app_assoc, map_app, Hwf, I12, !length_app.
  rewrite (seq_app (length (rows w0)) (length new1 + length new2) 0).
  reflexivity.
Qed.

Lemma consecutive_appends_number_rows_increasingly_witness :
  let w1 := fst first_append in
  let w2 := fst (add_icephys_recordings "DeviceIcephys" abf1_reader "current_clamp"
                   "ramp" [] "gzip" w1) in
  map row_id (rows w2) = seq 0 (length (rows w2)).
Proof.
  cbv zeta.
  destruct (consecutive_appends_number_rows_increasingly "DeviceIcephys"
              abf2_reader "voltage_clamp" "step" [1] "gzip"
              abf1_reader "current_clamp" "ramp" [] "gzip" fresh_world)
    as (new1 & new2 & _ & _ & _ & _ & _ & H).
  apply H. reflexivity.
Defined.

(** C10: when the metadata is None, or has no entry
    metadata['Icephys']['Sessions'][k] with both
    'relative_session_start_time' and 'stimulus_type' for k the current
    number of sequential recordings, [add_icephys_recordings] raises and the
    three recording tables are as they were. *)
Theorem add_icephys_recordings_requires_session_metadata
    fallback r experiment_type stimulus_type skip compression w :
  metadata w = None \/ session_entry (metadata w) (length (sessions w)) = None ->
  let out :=
    add_icephys_recordings fallback r experiment_type stimulus_type skip compression w in
  (exists e, snd out = Raise e) /\ untouched w (fst out).
Proof.
  intros H.
  assert (Hs : session_entry (metadata w) (length (sessions w)) = None).
  { destruct H as [H|H]; [rewrite H; reflexivity|exact H]. }
  clear H.
  assert (Tail : forall t w1, frame w w1 ->
    let out :=
      (assert (py_in t ["voltage_clamp"; "current_clamp"; "izero"])
         (experiment_type_msg t) ;;
       f <- get_nwbfile ;;
       when (Nat.eqb (length (icephys_electrodes f)) 0)
         (warn NoElectrodesFound ;; add_icephys_electrode fallback r) ;;
       f <- get_nwbfile ;;
       m <- the_metadata ;;
       icephys <- getitem (md_Icephys m) "Icephys" ;;
       sessions <- getitem (md_Sessions icephys) "Sessions" ;;
       session <- index sessions (length (icephys_sequential_recordings f)) ;;
       relative_start <- getitem (relative_session_start_time session)
                           "relative_session_start_time" ;;
       session_stimulus_type <- getitem (md_stimulus_type session) "stimulus_type" ;;
       out <- for_fold (seq 0 (get_number_of_segments r 0)) (last_row_index f, [])
                (record_segment r t skip compression
                   (length (icephys_simultaneous_recordings f)) relative_start
                   session_stimulus_type) ;;
       add_icephys_sequential_recording (snd out) stimulus_type ;;
       ret tt) w1 in
    (exists e, snd out = Raise e) /\ untouched w (fst out)).
  { intros t w1 F1. cbv zeta. rewrite bind_assert.
    assert (U1 : untouched w w1) by (destruct F1 as (?&?&?&_); repeat split; assumption).
    destruct (py_in t _); [|split; [eexists; reflexivity|exact U1]].
    rewrite bind_get_nwbfile.
    pose proof (frame_ensure_electrodes fallback r
                  (Nat.eqb (length (icephys_electrodes (nwbfile w1))) 0) w1) as F2.
    destruct (when _ _ w1) as [w2 [[]|e]] eqn:E2; cbn [fst] in F2.
    2:{ rewrite (bind_run_raise _ _ _ _ _ E2).
        assert (F : frame w w2) by (etransitivity; eassumption).
        split; [eexists; reflexivity|].
        destruct F as (?&?&?&_); repeat split; assumption. }
    rewrite (bind_run _ _ _ _ _ E2).
    assert (F : frame w w2) by (etransitivity; eassumption).
    assert (U2 : untouched w w2) by (destruct F as (?&?&?&_); repeat split; assumption).
    destruct F as (_ & _ & Fs & Fm & _).
    unfold session_entry in Hs. rewrite <- Fm, <- Fs in Hs. unfold sessions in Hs.
    rewrite bind_get_nwbfile, bind_the_metadata.
    destruct (metadata w2) as [m|]; [|split; [eexists; reflexivity|exact U2]].
    cbn [sessions_of] in Hs. rewrite bind_getitem.
    destruct (md_Icephys m) as [i|]; [|split; [eexists; reflexivity|exact U2]].
    rewrite bind_getitem.
    destruct (md_Sessions i) as [l|]; [|split; [eexists; reflexivity|exact U2]].
    rewrite bind_index.
    destruct (nth_error l _) as [s|]; [|split; [eexists; reflexivity|exact U2]].
    rewrite bind_getitem.
    destruct (relative_session_start_time s) as [start|];
      [|split; [eexists; reflexivity|exact U2]].
    rewrite bind_getitem.
    destruct (md_stimulus_type s) as [sst|];
      [discriminate|split; [eexists; reflexivity|exact U2]]. }
  cbv zeta. unfold add_icephys_recordings.
  pose proof (frame_detect_n_commands r w) as F1.
  destruct (detect_n_commands r w) as [w1 [n|e]] eqn:E1; cbn [fst] in F1.
  2:{ rewrite (bind_run_raise _ _ _ _ _ E1). split; [eexists; reflexivity|].
      destruct F1 as (?&?&?&_); repeat split; assumption. }
  rewrite (bind_run _ _ _ _ _ E1).
  destruct (Nat.eqb n 0).
  - rewrite bind_assoc, bind_warn, bind_ret. apply Tail.
    etransitivity; [exact F1|apply frame_warn].
  - rewrite bind_assoc, bind_assert.
    destruct (Nat.eqb n (get_number_of_segments r 0)).
    + rewrite bind_ret. apply Tail, F1.
    + split; [eexists; reflexivity|].
      destruct F1 as (?&?&?&_); repeat split; assumption.
Qed.

Lemma add_icephys_recordings_requires_session_metadata_witness :
  let out :=
    add_icephys_recordings "DeviceIcephys" abf2_reader "voltage_clamp" "not described"
      [] "gzip" bare_world in
  (exists e, snd out = Raise e) /\ untouched bare_world (fst out).
Proof.
  apply (add_icephys_recordings_requires_session_metadata "DeviceIcephys" abf2_reader
           "voltage_clamp" "not described" [] "gzip" bare_world).
  left. reflexivity.
Defined.

(** ** Calls that return *)

Section SessionFacts.
Variables (r : NeoReader) (t : string) (skip : list nat) (compression : string)
          (offset : nat) (start : float) (st : string).

Lemma record_electrode_returns si locals item w w' locals' :
  record_electrode r t skip compression offset start st si locals item w
  = (w', Return locals') ->
  exists new,
    rows w' = rows w ++ new
    /\ snd locals' = snd locals ++ map row_id new
    /\ map row_id new = seq (length (rows w)) (length new)
    /\ fst locals' = (fst locals + Z.of_nat (length new))%Z
    /\ groups w' = groups w /\ sessions w' = sessions w
    /\ icephys_electrodes (nwbfile w') = icephys_electrodes (nwbfile w).
Proof.
  intros H. unfold record_electrode in H.
  destruct locals as [ri recordings], item as [ei electrode].
  destruct (existsb (Nat.eqb ei) skip).
  { inversion H; subst. exists []. cbn. rewrite !app_nil_r, Z.add_0_r. auto 10. }
  run_in H.
  destruct (negb (t =? "izero")); run_in H;
    inversion H; subst; clear H;
    eexists [_]; cbn; repeat split; reflexivity.
Qed.

Lemma record_electrodes_return si : forall items locals w w' locals',
  for_fold items locals (record_electrode r t skip compression offset start st si) w
  = (w', Return locals') ->
  exists new,
    rows w' = rows w ++ new
    /\ snd locals' = snd locals ++ map row_id new
    /\ map row_id new = seq (length (rows w)) (length new)
    /\ fst locals' = (fst locals + Z.of_nat (length new))%Z
    /\ groups w' = groups w /\ sessions w' = sessions w
    /\ icephys_electrodes (nwbfile w') = icephys_electrodes (nwbfile w).
Proof.
  induction items as [|item items IH]; intros locals w w' locals' H.
  { inversion H; subst. exists []. cbn. rewrite !app_nil_r, Z.add_0_r. auto 10. }
  cbn [for_fold] in H.
  destruct (record_electrode r t skip compression offset start st si locals item w)
    as [w1 [l1|e]] eqn:E1.
  2:{ rewrite (bind_run_raise _ _ _ _ _ E1) in H. discriminate. }
  rewrite (bind_run _ _ _ _ _ E1) in H.
  apply record_electrode_returns in E1.
  destruct E1 as (n1 & R1 & L1 & I1 & C1 & G1 & S1 & X1).
  apply IH in H. destruct H as (n2 & R2 & L2 & I2 & C2 & G2 & S2 & X2).
  exists (n1 ++ n2). rewrite R2, R1, L2, L1, C2, C1, G2, G1, S2, S1, X2, X1.
  rewrite map_app, !length_app, <- !app_assoc, Nat2Z.inj_add.
  repeat split; try reflexivity; try lia.
  rewrite I1, I2, R1, length_app, seq_app. reflexivity.
Qed.

Lemma record_segment_returns locals si w w' locals' :
  record_segment r t skip compression offset start st locals si w
  = (w', Return locals') ->
  exists new,
    rows w' = rows w ++ new
    /\ groups w' = groups w ++ [map row_id new]
    /\ snd locals' = snd locals ++ [length (groups w)]
    /\ map row_id new = seq (length (rows w)) (length new)
    /\ fst locals' = (fst locals + Z.of_nat (length new))%Z
    /\ sessions w' = sessions w.
Proof.
  intros H. unfold record_segment in H. destruct locals as [ri simultaneous].
  rewrite bind_get_nwbfile in H.
  match type of H with
  | bind ?m _ w = _ => destruct (m w) as [w1 [l1|e]] eqn:E1
  end.
  2:{ rewrite (bind_run_raise _ _ _ _ _ E1) in H. discriminate. }
  rewrite (bind_run _ _ _ _ _ E1) in H.
  apply record_electrodes_return in E1.
  destruct E1 as (new & R1 & L1 & I1 & C1 & G1 & S1 & _).
  cbn in H. inversion H; subst; clear H.
  exists new. unfold rows, groups, sessions in *. cbn in *.
  rewrite R1, G1, S1, L1, C1. repeat split; try reflexivity. exact I1.
Qed.

Lemma record_segments_return : forall sis locals w w' locals',
  for_fold sis locals (record_segment r t skip compression offset start st) w
  = (w', Return locals') ->
  exists segs,
    length segs = length sis
    /\ rows w' = rows w ++ concat segs
    /\ groups w' = groups w ++ map (map row_id) segs
    /\ snd locals' = snd locals ++ seq (length (groups w)) (length segs)
    /\ map row_id (concat segs) = seq (length (rows w)) (length (concat segs))
    /\ fst locals' = (fst locals + Z.of_nat (length (concat segs)))%Z
    /\ sessions w' = sessions w.
Proof.
  induction sis as [|si sis IH]; intros locals w w' locals' H.
  { inversion H; subst. exists []. cbn. rewrite !app_nil_r, Z.add_0_r. auto 10. }
  cbn [for_fold] in H.
  destruct (record_segment r t skip compression offset start st locals si w)
    as [w1 [l1|e]] eqn:E1.
  2:{ rewrite (bind_run_raise _ _ _ _ _ E1) in H. discriminate. }
  rewrite (bind_run _ _ _ _ _ E1) in H.
  apply record_segment_returns in E1.
  destruct E1 as (new & R1 & G1 & L1 & I1 & C1 & S1).
  apply IH in H. destruct H as (segs & N2 & R2 & G2 & L2 & I2 & C2 & S2).
  exists (new :: segs). cbn [length concat map].
  rewrite R2, R1, G2, G1, L2, L1, C2, C1, S2, S1, N2.
  rewrite map_app, !length_app, <- !app_assoc, Nat2Z.inj_add.
  cbn [length seq app].
  assert (Lg : length (groups w1) = S (length (groups w))).
  { rewrite G1, length_app. cbn. lia. }
  rewrite Lg.
  repeat split; try reflexivity; try lia.
  rewrite I1, I2, R1, length_app, seq_app. reflexivity.
Qed.

End SessionFacts.

(** C7: a call that returns has appended one simultaneous-recording group
    per segment, each holding the indices of the rows created for its
    segment, and one sequential-recording group whose members are exactly
    those groups, tagged with the caller's [stimulus_type]. *)
Theorem add_icephys_recordings_groups_per_segment
    fallback r experiment_type stimulus_type skip compression w w' :
  add_icephys_recordings fallback r experiment_type stimulus_type skip compression w
  = (w', Return tt) ->
  exists segs : list (list IntracellularRecording),
    length segs = get_number_of_segments r 0
    /\ rows w' = rows w ++ concat segs
    /\ groups w' = groups w ++ map (map row_id) segs
    /\ sessions w'
       = sessions w
           ++ [mkSequential (seq (length (groups w)) (length segs)) stimulus_type].
Proof.
  assert (Tail : forall t w1, frame w w1 ->
      (assert (py_in t ["voltage_clamp"; "current_clamp"; "izero"])
         (experiment_type_msg t) ;;
       f <- get_nwbfile ;;
       when (Nat.eqb (length (icephys_electrodes f)) 0)
         (warn NoElectrodesFound ;; add_icephys_electrode fallback r) ;;
       f <- get_nwbfile ;;
       m <- the_metadata ;;
       icephys <- getitem (md_Icephys m) "Icephys" ;;
       sessions <- getitem (md_Sessions icephys) "Sessions" ;;
       session <- index sessions (length (icephys_sequential_recordings f)) ;;
       relative_start <- getitem (relative_session_start_time session)
                           "relative_session_start_time" ;;
       session_stimulus_type <- getitem (md_stimulus_type session) "stimulus_type" ;;
       out <- for_fold (seq 0 (get_number_of_segments r 0)) (last_row_index f, [])
                (record_segment r t skip compression
                   (length (icephys_simultaneous_recordings f)) relative_start
                   session_stimulus_type) ;;
       add_icephys_sequential_recording (snd out) stimulus_type ;;
       ret tt) w1 = (w', Return tt) ->
    exists segs : list (list IntracellularRecording),
      length segs = get_number_of_segments r 0
      /\ rows w' = rows w ++ concat segs
      /\ groups w' = groups w ++ map (map row_id) segs
      /\ sessions w'
         = sessions w
             ++ [mkSequential (seq (length (groups w)) (length segs)) stimulus_type]).
  { intros t w1 F1 H. rewrite bind_assert in H.
    destruct (py_in t _); [|discriminate H].
    rewrite bind_get_nwbfile in H.
    pose proof (frame_ensure_electrodes fallback r
                  (Nat.eqb (length (icephys_electrodes (nwbfile w1))) 0) w1) as F2.
    destruct (when _ _ w1) as [w2 [[]|e]] eqn:E2; cbn [fst] in F2;
      [rewrite (bind_run _ _ _ _ _ E2) in H
      |rewrite (bind_run_raise _ _ _ _ _ E2) in H; discriminate H].
    assert (F : frame w w2) by (etransitivity; eassumption).
    apply frame_untouched in F. destruct F as (Fr & Fg & Fs).
    rewrite bind_get_nwbfile, bind_the_metadata in H.
    destruct (metadata w2) as [m|]; [|discriminate H].
    run_in H.
    match type of H with
    | bind ?m _ w2 = _ => destruct (m w2) as [w3 [out|e]] eqn:E3
    end;
      [rewrite (bind_run _ _ _ _ _ E3) in H
      |rewrite (bind_run_raise _ _ _ _ _ E3) in H; discriminate H].
    apply record_segments_return in E3.
    destruct E3 as (segs & N & R3 & G3 & L3 & _ & _ & S3).
    cbn in H. inversion H; subst; clear H.
    exists segs. rewrite length_seq in N.
    unfold rows, groups, sessions in *. cbn in *.
    rewrite R3, G3, S3, L3, Fr, Fg, Fs. cbn. auto. }
  intros H. unfold add_icephys_recordings in H.
  pose proof (frame_detect_n_commands r w) as F1.
  destruct (detect_n_commands r w) as [w1 [n|e]] eqn:E1; cbn [fst] in F1;
    [rewrite (bind_run _ _ _ _ _ E1) in H
    |rewrite (bind_run_raise _ _ _ _ _ E1) in H; discriminate H].
  destruct (Nat.eqb n 0).
  - rewrite bind_assoc, bind_warn, bind_ret in H. revert H. apply Tail.
    etransitivity; [exact F1|apply frame_warn].
  - rewrite bind_assoc, bind_assert in H.
    destruct (Nat.eqb n (get_number_of_segments r 0)); [|discriminate H].
    rewrite bind_ret in H. revert H. apply Tail, F1.
Qed.

Lemma add_icephys_recordings_groups_per_segment_witness :
  exists segs : list (list IntracellularRecording),
    length segs = get_number_of_segments abf2_reader 0
    /\ rows (fst first_append) = rows fresh_world ++ concat segs
    /\ groups (fst first_append) = groups fresh_world ++ map (map row_id) segs
    /\ sessions (fst first_append)
       = sessions fresh_world
           ++ [mkSequential (seq (length (groups fresh_world)) (length segs)) "step"].
Proof.
  apply (add_icephys_recordings_groups_per_segment "DeviceIcephys" abf2_reader
           "voltage_clamp" "step" [1] "gzip" fresh_world (fst first_append)).
  vm_compute. reflexivity.
Defined.

Example first_append_groups :
  groups (fst first_append) = [[0; 1; 2]; [3; 4; 5]]
  /\ map simultaneous_recordings (sessions (fst first_append)) = [[0; 1]]
  /\ snd first_append = Return tt.
Proof. vm_compute. auto. Qed.

Example second_append_rows :
  map row_id
    (rows (fst (add_icephys_recordings "DeviceIcephys" abf1_reader "current_clamp"
                  "ramp" [] "gzip" (fst first_append))))
  = [0; 1; 2; 3; 4; 5; 6; 7; 8; 9; 10; 11; 12; 13].
Proof. vm_compute. reflexivity. Qed.

(** ** The registrar as an equation *)

Lemma add_device_from_metadata_eq fallback modality m :
  add_device_from_metadata fallback modality m
  = create_device (device_from_metadata fallback modality m).
Proof.
  unfold add_device_from_metadata, device_from_metadata.
  destruct m as [d|]; [|reflexivity].
  destruct (modality_section d modality) as [s|]; [|reflexivity].
  destruct (md_Device s) as [[|x l]|]; reflexivity.
Qed.

Lemma comprehension_defaults d ds : forall ids w,
  devices (nwbfile w) = d :: ds ->
  comprehension ids
    (fun elec_id =>
       f <- get_nwbfile ;;
       device <- index (map device_name (devices f)) 0 ;;
       ret (default_electrode device elec_id)) w
  = (w, Return (map (default_electrode (device_name d)) ids)).
Proof.
  induction ids as [|i ids IH]; intros w Hd; [reflexivity|].
  cbn [comprehension map]. rewrite bind_assoc, bind_get_nwbfile, bind_assoc, Hd.
  cbn [map]. rewrite bind_index. cbn [nth_error]. rewrite bind_ret.
  rewrite (bind_run _ _ _ _ _ (IH w Hd)). reflexivity.
Qed.

Section RegistrarRun.
Variables (fallback : string) (r : NeoReader).

(** With a device in place and a dictionary at hand, the registrar comes
    down to [register] on the effective entries. *)
Lemma add_icephys_electrode_run_some w d ds m :
  devices (nwbfile w) = d :: ds ->
  metadata w = Some m ->
  let defaults := default_electrodes (device_name d) (get_number_of_electrodes r) in
  add_icephys_electrode fallback r w
  = register fallback defaults (effective_entries m defaults)
      (with_metadata w (Some (normalize m defaults))).
Proof.
  intros Hd Hm defaults. unfold add_icephys_electrode.
  rewrite bind_get_nwbfile, Hd. cbn [length Nat.eqb when]. rewrite bind_ret.
  unfold with_default_dict. rewrite Hm.
  rewrite bind_the_metadata, Hm.
  unfold effective_entries, normalize, register.
  destruct (md_Icephys m) as [i|] eqn:Ei; cbn [is_none when].
  - rewrite bind_ret.
    rewrite (bind_run _ _ _ _ _ (comprehension_defaults d ds _ w Hd)).
    fold (default_electrodes (device_name d) (get_number_of_electrodes r)).
    fold defaults.
    rewrite bind_the_metadata, Hm, bind_getitem, Ei.
    destruct (md_Electrodes i) as [[|e l]|] eqn:Ee; cbn [length Nat.eqb when].
    + rewrite (bind_setitem_Icephys_Electrodes _ _ _ _ _ Hm Ei).
      rewrite bind_the_metadata. cbn [with_metadata metadata].
      rewrite bind_getitem. cbn [set_Icephys md_Icephys].
      rewrite bind_getitem. cbn [set_Electrodes md_Electrodes]. reflexivity.
    + rewrite bind_ret, bind_the_metadata, Hm, bind_getitem, Ei, bind_getitem, Ee.
      unfold with_metadata. rewrite <- Hm. destruct w; reflexivity.
    + rewrite (bind_setitem_Icephys_Electrodes _ _ _ _ _ Hm Ei).
      rewrite bind_the_metadata. cbn [with_metadata metadata].
      rewrite bind_getitem. cbn [set_Icephys md_Icephys].
      rewrite bind_getitem. cbn [set_Electrodes md_Electrodes]. reflexivity.
  - rewrite (bind_setitem_Icephys _ _ _ _ Hm).
    assert (Hd' : devices (nwbfile (with_metadata w (Some (set_Icephys m empty_modality))))
                  = d :: ds) by exact Hd.
    rewrite (bind_run _ _ _ _ _ (comprehension_defaults d ds _ _ Hd')).
    fold (default_electrodes (device_name d) (get_number_of_electrodes r)).
    fold defaults.
    rewrite bind_the_metadata. cbn [with_metadata metadata].
    rewrite bind_getitem. cbn [set_Icephys md_Icephys empty_modality md_Electrodes when].
    erewrite bind_setitem_Icephys_Electrodes; [|reflexivity|reflexivity].
    rewrite bind_the_metadata. cbn [with_metadata metadata].
    rewrite bind_getitem. cbn [set_Icephys md_Icephys].
    rewrite bind_getitem. cbn [set_Electrodes md_Electrodes md_Ecephys nwbfile warnings].
    reflexivity.
Qed.

Lemma add_icephys_electrode_run_none w d ds :
  devices (nwbfile w) = d :: ds ->
  metadata w = None ->
  let defaults := default_electrodes (device_name d) (get_number_of_electrodes r) in
  add_icephys_electrode fallback r w
  = let (w', res) :=
      register fallback defaults (map EntryDict defaults)
        (with_metadata w (Some (normalize empty_dict defaults))) in
    (with_metadata w' None, res).
Proof.
  intros Hd Hm defaults.
  pose proof (add_icephys_electrode_run_some (with_metadata w (Some empty_dict))
                d ds empty_dict Hd eq_refl) as H.
  cbv zeta in H. fold defaults in H.
  change (effective_entries empty_dict defaults) with (map EntryDict defaults) in H.
  change (with_metadata (with_metadata w (Some empty_dict))
            (Some (normalize empty_dict defaults)))
    with (with_metadata w (Some (normalize empty_dict defaults))) in H.
  rewrite <- H. clear H.
  unfold add_icephys_electrode.
  rewrite !bind_get_nwbfile. cbn [with_metadata nwbfile]. rewrite Hd.
  cbn [length Nat.eqb when]. rewrite !bind_ret.
  unfold with_default_dict. rewrite Hm. cbn [metadata with_metadata].
  reflexivity.
Qed.

(** Without a device, the registrar first creates one, then goes on as if
    it had been there. *)
Lemma add_icephys_electrode_run_ensure w :
  devices (nwbfile w) = [] ->
  add_icephys_electrode fallback r w
  = add_icephys_electrode fallback r
      (with_nwbfile (emit NoDevicesFound w)
         (with_device (nwbfile w)
            (device_from_metadata fallback "Icephys" (metadata w)))).
Proof.
  intros Hd. unfold add_icephys_electrode at 1.
  rewrite bind_get_nwbfile, Hd. cbn [length Nat.eqb when].
  rewrite !bind_assoc, bind_warn, ?bind_assoc, bind_get_metadata.
  rewrite add_device_from_metadata_eq, ?bind_assoc, bind_create_device.
  cbn [emit nwbfile]. unfold has_device. rewrite Hd. cbn [existsb].
  cbn [metadata].
  unfold add_icephys_electrode. rewrite bind_get_nwbfile.
  cbn [with_nwbfile nwbfile with_device devices]. rewrite Hd.
  cbn [app length Nat.eqb when]. rewrite bind_ret. reflexivity.
Qed.

End RegistrarRun.

Lemma str_inj i j : str i = str j -> i = j.
Proof.
  unfold str. intros H. apply Unsigned.to_uint_inj.
  apply (f_equal NilEmpty.uint_of_string) in H.
  rewrite !NilEmpty.usu in H. congruence.
Qed.

Lemma append_inj_l (p a b : string) : (p ++ a = p ++ b)%string -> a = b.
Proof. induction p as [|c p IH]; cbn; intros H; [exact H|]. inversion H. auto. Qed.

Lemma electrode_label_inj i j : electrode_label i = electrode_label j -> i = j.
Proof. intros H. apply str_inj, (append_inj_l _ _ _ H). Qed.

Lemma has_electrode_with_electrode name f e :
  has_electrode name (with_electrode f e)
  = has_electrode name f || (electrode_name e =? name)%string.
Proof.
  unfold has_electrode, with_electrode. cbn [icephys_electrodes].
  rewrite existsb_app. cbn. rewrite orb_false_r. reflexivity.
Qed.

(** One pass of the electrode loop, as an equation. *)
Lemma create_electrode_from_run fallback defaults d0 n0 dv0 ds0 e w :
  nth_error defaults 0 = Some d0 ->
  md_name d0 = Some n0 -> md_device_name_ref d0 = Some dv0 ->
  md_description d0 = Some ds0 ->
  let name := dict_get (md_name e) n0 in
  let device := dict_get (md_device_name_ref e) dv0 in
  let description := dict_get (md_description e) ds0 in
  let link w1 :=
    match find_device device (nwbfile w1) with
    | Some linked =>
        (with_nwbfile w1 (with_electrode (nwbfile w1)
                            (mkElectrode name description linked)), Return tt)
    | None => (w1, Raise (KeyError device))
    end in
  create_electrode_from fallback defaults (EntryDict e) w
  = if has_electrode name (nwbfile w) then (w, Return tt)
    else if has_device device (nwbfile w) then link w
    else if has_device fallback (nwbfile w) then (w, Raise (ValueError fallback))
    else link (emit (DeviceNotDetected device)
                 (with_nwbfile w (with_device (nwbfile w) (mkDevice fallback None)))).
Proof.
  intros H0 Hn Hd Hs name device description link.
  unfold create_electrode_from.
  rewrite bind_ret, bind_index, H0, bind_getitem, Hn, bind_get_nwbfile.
  fold name. destruct (has_electrode name (nwbfile w)) eqn:En; [reflexivity|].
  rewrite bind_getitem, Hd. fold device.
  assert (Link : forall w1, has_electrode name (nwbfile w1) = false ->
    (default_description <- getitem (md_description d0) "description" ;;
     f <- get_nwbfile ;;
     linked <- getitem (find_device device f) device ;;
     create_icephys_electrode
       (mkElectrode name (dict_get (md_description e) default_description) linked)) w1
    = link w1).
  { intros w1 E1. rewrite bind_getitem, Hs, bind_get_nwbfile, bind_getitem.
    unfold link. destruct (find_device device (nwbfile w1)) as [linked|]; [|reflexivity].
    rewrite <- (bind_unit_r (create_icephys_electrode _)).
    rewrite bind_create_icephys_electrode. cbn [electrode_name]. rewrite E1.
    reflexivity. }
  destruct (has_device device (nwbfile w)) eqn:Ed; cbn [negb when].
  - rewrite bind_ret. apply Link, En.
  - rewrite bind_assoc, add_device_from_metadata_eq, bind_create_device.
    change (device_from_metadata fallback "Icephys" (Some (new_device_metadata device)))
      with (mkDevice fallback None).
    cbn [device_name].
    destruct (has_device fallback (nwbfile w)); [reflexivity|].
    rewrite bind_warn. apply Link. exact En.
Qed.

(** ** Default electrodes *)

Lemma find_device_head d ds f :
  devices f = d :: ds -> find_device (device_name d) f = Some d.
Proof.
  intros H. unfold find_device. rewrite H. cbn. rewrite String.eqb_refl. reflexivity.
Qed.

Lemma has_device_head d ds f :
  devices f = d :: ds -> has_device (device_name d) f = true.
Proof.
  intros H. unfold has_device. rewrite H. cbn. rewrite String.eqb_refl. reflexivity.
Qed.

Lemma register_default_electrodes fallback d ds defaults i0 : forall ids w,
  nth_error defaults 0 = Some (default_electrode (device_name d) i0) ->
  devices (nwbfile w) = d :: ds ->
  NoDup ids ->
  (forall i, In i ids -> has_electrode (electrode_label i) (nwbfile w) = false) ->
  for_each (map EntryDict (map (default_electrode (device_name d)) ids))
    (create_electrode_from fallback defaults) w
  = (with_nwbfile w
       (with_electrodes (nwbfile w) (map (default_icephys_electrode d) ids)),
     Return tt).
Proof.
  induction ids as [|i ids IH]; intros w H0 Hd Hnd Hfresh.
  { cbn. unfold with_nwbfile, with_electrodes. rewrite app_nil_r.
    destruct w as [[] ? ?]; reflexivity. }
  cbn [map for_each].
  pose proof (create_electrode_from_run fallback defaults _ _ _ _
                (default_electrode (device_name d) i) w H0 eq_refl eq_refl eq_refl) as E.
  cbv zeta in E. cbn [default_electrode md_name md_device_name_ref md_description dict_get] in E.
  fold (electrode_label i) in E.
  rewrite (Hfresh i (or_introl eq_refl)), (has_device_head d ds _ Hd),
    (find_device_head d ds _ Hd) in E.
  rewrite (bind_run _ _ _ _ _ E). clear E.
  inversion Hnd as [|? ? Hni Hnd']; subst.
  rewrite IH; [|exact H0|exact Hd|exact Hnd'|].
  - unfold with_nwbfile, with_electrodes, with_electrode, default_icephys_electrode.
    cbn. rewrite <- app_assoc. reflexivity.
  - intros j Hj. cbn [with_nwbfile nwbfile]. rewrite has_electrode_with_electrode.
    rewrite (Hfresh j (or_intror Hj)). cbn [electrode_name orb].
    apply String.eqb_neq. intros E. apply electrode_label_inj in E. subst. contradiction.
Qed.

Lemma register_all_defaults fallback d ds n w :
  devices (nwbfile w) = d :: ds ->
  icephys_electrodes (nwbfile w) = [] ->
  register fallback (default_electrodes (device_name d) n)
    (map EntryDict (default_electrodes (device_name d) n)) w
  = (with_nwbfile w
       (with_electrodes (nwbfile w) (map (default_icephys_electrode d) (seq 0 n))),
     Return tt).
Proof.
  intros Hd He. unfold register.
  rewrite bind_assert.
  assert (A : forall l, forallb is_dict (map EntryDict l) = true)
    by (induction l; cbn; auto).
  rewrite A. unfold default_electrodes.
  destruct n as [|n].
  { cbn. unfold with_nwbfile, with_electrodes. rewrite app_nil_r.
    destruct w as [[] ? ?]; reflexivity. }
  apply (register_default_electrodes fallback d ds _ 0).
  - reflexivity.
  - exact Hd.
  - apply seq_NoDup.
  - intros i _. unfold has_electrode. rewrite He. reflexivity.
Qed.

(** C6: on a container without devices and without electrodes, and with no
    electrode metadata from the caller, [add_icephys_electrode] returns,
    leaves exactly one device, and leaves one electrode per signal channel,
    named icephys_electrode_0 to icephys_electrode_(N-1), each linked to
    that device. *)
Theorem add_icephys_electrode_creates_defaults fallback r w :
  devices (nwbfile w) = [] ->
  icephys_electrodes (nwbfile w) = [] ->
  no_electrode_metadata (metadata w) ->
  let d := device_from_metadata fallback "Icephys" (metadata w) in
  let out := add_icephys_electrode fallback r w in
  snd out = Return tt
  /\ devices (nwbfile (fst out)) = [d]
  /\ icephys_electrodes (nwbfile (fst out))
     = map (fun i => mkElectrode ("icephys_electrode_" ++ str i) "no description" d)
         (seq 0 (get_number_of_electrodes r)).
Proof.
  intros Hd He Hm d out. unfold out.
  rewrite (add_icephys_electrode_run_ensure fallback r w Hd). fold d.
  set (w1 := with_nwbfile (emit NoDevicesFound w) (with_device (nwbfile w) d)).
  assert (Hd1 : devices (nwbfile w1) = [d]) by (cbn; rewrite Hd; reflexivity).
  assert (He1 : icephys_electrodes (nwbfile w1) = []) by exact He.
  destruct (metadata w) as [m|] eqn:Em.
  - rewrite (add_icephys_electrode_run_some fallback r w1 d [] m Hd1 Em).
    assert (Ee : effective_entries m
                   (default_electrodes (device_name d) (get_number_of_electrodes r))
                 = map EntryDict
                     (default_electrodes (device_name d) (get_number_of_electrodes r))).
    { unfold effective_entries. cbn in Hm.
      destruct (md_Icephys m) as [i|]; [|reflexivity].
      destruct (md_Electrodes i) as [l|]; [|reflexivity]. subst. reflexivity. }
    rewrite Ee, register_all_defaults with (ds := []); [|exact Hd1|exact He1].
    cbn. rewrite Hd, He. auto.
  - rewrite (add_icephys_electrode_run_none fallback r w1 d [] Hd1 Em).
    rewrite register_all_defaults with (ds := []); [|exact Hd1|exact He1].
    cbn. rewrite Hd, He. auto.
Qed.

Lemma add_icephys_electrode_creates_defaults_witness :
  let d := device_from_metadata "DeviceIcephys" "Icephys" (metadata bare_world) in
  let out := add_icephys_electrode "DeviceIcephys" abf2_reader bare_world in
  snd out = Return tt
  /\ devices (nwbfile (fst out)) = [d]
  /\ icephys_electrodes (nwbfile (fst out))
     = map (fun i => mkElectrode ("icephys_electrode_" ++ str i) "no description" d)
         (seq 0 (get_number_of_electrodes abf2_reader)).
Proof.
  apply (add_icephys_electrode_creates_defaults "DeviceIcephys" abf2_reader bare_world);
    vm_compute; auto.
Defined.

(** ** Calling the registrar twice *)

Section Idempotence.
Variables (fallback device0 : string).

Lemma create_electrode_from_pass n entry w :
  let out := create_electrode_from fallback (default_electrodes device0 (S n)) entry w in
  nwbfile (fst out) = fst (pass fallback device0 entry (nwbfile w))
  /\ is_return (snd out) = snd (pass fallback device0 entry (nwbfile w))
  /\ metadata (fst out) = metadata w.
Proof.
  destruct entry as [e|]; [|cbn; auto].
  cbv zeta.
  rewrite (create_electrode_from_run fallback (default_electrodes device0 (S n))
             (default_electrode device0 0)
             (electrode_label 0) device0 "no description" e w
             eq_refl eq_refl eq_refl eq_refl).
  cbv zeta. unfold pass.
  destruct (has_electrode _ _); [cbn; auto|].
  destruct (has_device (dict_get (md_device_name_ref e) device0) (nwbfile w)).
  { destruct (find_device _ _); cbn; auto. }
  destruct (has_device fallback (nwbfile w)); [cbn; auto|].
  cbn [emit with_nwbfile nwbfile].
  destruct (find_device _ _); cbn; auto.
Qed.

Lemma for_each_passes n : forall entries w,
  let out := for_each entries
               (create_electrode_from fallback (default_electrodes device0 (S n))) w in
  nwbfile (fst out) = fst (passes fallback device0 entries (nwbfile w))
  /\ is_return (snd out) = snd (passes fallback device0 entries (nwbfile w))
  /\ metadata (fst out) = metadata w.
Proof.
  induction entries as [|e es IH]; intros w; [cbn; auto|].
  cbv zeta. cbn [for_each passes].
  destruct (create_electrode_from_pass n e w) as (H1 & H2 & H3).
  destruct (create_electrode_from _ _ e w) as [w1 [[]|x]] eqn:E; cbn [fst snd is_return] in *.
  - rewrite (bind_run _ _ _ _ _ E).
    destruct (pass fallback device0 e (nwbfile w)) as [f1 ok]. cbn [fst snd] in *. subst.
    destruct (IH w1) as (K1 & K2 & K3). rewrite K3. auto.
  - rewrite (bind_run_raise _ _ _ _ _ E).
    destruct (pass fallback device0 e (nwbfile w)) as [f1 ok]. cbn [fst snd] in *. subst. cbn. auto.
Qed.

Lemma find_device_none name f :
  find_device name f = None -> has_device name f = false.
Proof.
  unfold find_device, has_device. intros H.
  apply not_true_is_false. intros E. apply existsb_exists in E.
  destruct E as [d [Hd E]]. apply (find_none _ _ H) in Hd. congruence.
Qed.

Lemma has_device_with_device name f d :
  has_device name (with_device f d)
  = has_device name f || (device_name d =? name)%string.
Proof.
  unfold has_device, with_device. cbn [devices].
  rewrite existsb_app. cbn. rewrite orb_false_r. reflexivity.
Qed.

(** Re-requesting an existing name does nothing. *)
Lemma pass_existing e f :
  has_electrode (dict_get (md_name e) (electrode_label 0)) f = true ->
  pass fallback device0 (EntryDict e) f = (f, true).
Proof. intros H. unfold pass. rewrite H. reflexivity. Qed.

Lemma pass_registers e f f1 :
  pass fallback device0 (EntryDict e) f = (f1, true) ->
  has_electrode (dict_get (md_name e) (electrode_label 0)) f1 = true.
Proof.
  unfold pass.
  destruct (has_electrode _ f) eqn:En; [intros H; inversion H; subst; exact En|].
  assert (L : forall f0,
    match find_device (dict_get (md_device_name_ref e) device0) f0 with
    | Some linked =>
        (with_electrode f0
           (mkElectrode (dict_get (md_name e) (electrode_label 0))
              (dict_get (md_description e) "no description") linked), true)
    | None => (f0, false)
    end = (f1, true) ->
    has_electrode (dict_get (md_name e) (electrode_label 0)) f1 = true).
  { intros f0 H. destruct (find_device _ f0); inversion H; subst.
    rewrite has_electrode_with_electrode. cbn [electrode_name].
    rewrite String.eqb_refl. apply orb_true_r. }
  destruct (has_device _ f); [apply L|].
  destruct (has_device fallback f); [discriminate|apply L].
Qed.

Lemma pass_keeps name entry f :
  has_electrode name f = true -> has_electrode name (fst (pass fallback device0 entry f)) = true.
Proof.
  intros H. destruct entry as [e|]; [|exact H]. unfold pass.
  destruct (has_electrode (dict_get (md_name e) (electrode_label 0)) f);
    [exact H|].
  assert (L : forall f0, has_electrode name f0 = true ->
    has_electrode name
      (fst match find_device (dict_get (md_device_name_ref e) device0) f0 with
           | Some linked =>
               (with_electrode f0
                  (mkElectrode (dict_get (md_name e) (electrode_label 0))
                     (dict_get (md_description e) "no description") linked), true)
           | None => (f0, false)
           end) = true).
  { intros f0 H0. destruct (find_device _ f0); cbn [fst]; [|exact H0].
    rewrite has_electrode_with_electrode, H0. reflexivity. }
  destruct (has_device _ f); [apply L, H|].
  destruct (has_device fallback f); [exact H|apply L, H].
Qed.

Lemma passes_keeps name : forall entries f,
  has_electrode name f = true -> has_electrode name (fst (passes fallback device0 entries f)) = true.
Proof.
  induction entries as [|e es IH]; intros f H; [exact H|].
  cbn [passes]. pose proof (pass_keeps name e f H) as K.
  destruct (pass fallback device0 e f) as [f1 ok]. cbn [fst] in K.
  destruct ok; [apply IH, K|exact K].
Qed.

(** A pass fallback device0 that raised raises again, and adds no electrode. *)
Lemma pass_fails_again entry f f1 :
  pass fallback device0 entry f = (f1, false) ->
  exists f2, pass fallback device0 entry f1 = (f2, false)
             /\ icephys_electrodes f2 = icephys_electrodes f1.
Proof.
  destruct entry as [e|]; [|intros H; inversion H; subst; eexists; split; reflexivity].
  unfold pass.
  destruct (has_electrode _ f) eqn:En; [discriminate|].
  destruct (has_device (dict_get (md_device_name_ref e) device0) f) eqn:Ed.
  { destruct (find_device _ f) eqn:Ef; [discriminate|].
    intros H; inversion H; subst. rewrite En, Ed, Ef. eexists; split; reflexivity. }
  destruct (has_device fallback f) eqn:Eb.
  { intros H; inversion H; subst. rewrite En, Ed, Eb. eexists; split; reflexivity. }
  destruct (find_device _ (with_device f _)) eqn:Ef; [discriminate|].
  intros H; inversion H; subst.
  assert (En' : has_electrode (dict_get (md_name e) (electrode_label 0))
                  (with_device f (mkDevice fallback None)) = false) by exact En.
  rewrite En', (find_device_none _ _ Ef).
  rewrite has_device_with_device. cbn [device_name].
  rewrite String.eqb_refl, orb_true_r. eexists; split; reflexivity.
Qed.

Lemma passes_twice : forall entries f,
  icephys_electrodes (fst (passes fallback device0 entries (fst (passes fallback device0 entries f))))
  = icephys_electrodes (fst (passes fallback device0 entries f)).
Proof.
  induction entries as [|e es IH]; intros f; [reflexivity|].
  cbn [passes]. destruct (pass fallback device0 e f) as [f1 [|]] eqn:E1.
  - destruct e as [e|]; [|discriminate].
    pose proof (pass_registers e f f1 E1) as Hreg.
    pose proof (passes_keeps _ es f1 Hreg) as Hkeep.
    rewrite (pass_existing e _ Hkeep). apply IH.
  - cbn [fst]. destruct (pass_fails_again e f f1 E1) as (f2 & E2 & He).
    rewrite E2. exact He.
Qed.

End Idempotence.

Section RegisterTwice.
Variables (fallback device0 : string).

Lemma register_registered n entries w :
  let out := register fallback (default_electrodes device0 n) entries w in
  nwbfile (fst out) = registered fallback device0 n entries (nwbfile w)
  /\ metadata (fst out) = metadata w.
Proof.
  cbv zeta. unfold register, registered. rewrite bind_assert.
  destruct n as [|n].
  - destruct (forallb is_dict entries); [|cbn; auto].
    destruct entries as [|[e|] es]; cbn; auto.
  - destruct (forallb is_dict entries); [|cbn; auto].
    destruct (for_each_passes fallback device0 n entries w) as (H1 & _ & H3). auto.
Qed.

Lemma registered_twice n entries f :
  icephys_electrodes (registered fallback device0 n entries (registered fallback device0 n entries f))
  = icephys_electrodes (registered fallback device0 n entries f).
Proof.
  unfold registered. destruct n; [reflexivity|].
  destruct (forallb is_dict entries); [apply passes_twice|reflexivity].
Qed.

Lemma pass_devices entry f :
  exists extra, devices (fst (pass fallback device0 entry f)) = devices f ++ extra.
Proof.
  destruct entry as [e|]; [|exists []; cbn; rewrite app_nil_r; reflexivity].
  unfold pass.
  repeat match goal with
         | |- context [if ?b then _ else _] => destruct b
         | |- context [match find_device ?x ?y with _ => _ end] =>
             destruct (find_device x y)
         end; cbn [fst with_electrode with_device devices];
    first [exists []; rewrite app_nil_r; reflexivity | eexists; reflexivity].
Qed.

Lemma passes_devices : forall entries f,
  exists extra, devices (fst (passes fallback device0 entries f)) = devices f ++ extra.
Proof.
  induction entries as [|e es IH]; intros f.
  { exists []. cbn. rewrite app_nil_r. reflexivity. }
  cbn [passes]. destruct (pass_devices e f) as [x1 H1].
  destruct (pass fallback device0 e f) as [f1 ok]. cbn [fst] in H1.
  destruct ok.
  - destruct (IH f1) as [x2 H2]. exists (x1 ++ x2).
    rewrite H2, H1, app_assoc. reflexivity.
  - exists x1. exact H1.
Qed.

Lemma registered_devices n entries f d ds :
  devices f = d :: ds -> exists ds', devices (registered fallback device0 n entries f) = d :: ds'.
Proof.
  intros H. unfold registered. destruct n; [eauto|].
  destruct (forallb is_dict entries); [|eauto].
  destruct (passes_devices entries f) as [x Hx]. rewrite Hx, H. cbn. eauto.
Qed.

End RegisterTwice.

Lemma effective_entries_normalize m defaults :
  effective_entries (normalize m defaults) defaults = effective_entries m defaults.
Proof.
  unfold effective_entries, normalize.
  destruct (md_Icephys m) as [i|] eqn:Ei.
  - destruct (md_Electrodes i) as [[|e l]|] eqn:Ee.
    + cbn. destruct (map EntryDict defaults); reflexivity.
    + rewrite Ei, Ee. reflexivity.
    + cbn. destruct (map EntryDict defaults); reflexivity.
  - cbn. destruct (map EntryDict defaults); reflexivity.
Qed.

Section SecondCall.
Variables (fallback : string) (r : NeoReader).

Lemma add_icephys_electrode_registered w d ds :
  devices (nwbfile w) = d :: ds ->
  let out := add_icephys_electrode fallback r w in
  nwbfile (fst out)
  = registered fallback (device_name d) (get_number_of_electrodes r)
      (entries_for r (device_name d) (metadata w)) (nwbfile w)
  /\ metadata (fst out) = normalized r (device_name d) (metadata w).
Proof.
  intros Hd. cbv zeta. unfold entries_for, normalized.
  destruct (metadata w) as [m|] eqn:Em.
  - rewrite (add_icephys_electrode_run_some fallback r w d ds m Hd Em).
    match goal with
    | |- context [register ?a ?b ?c ?w0] =>
        exact (register_registered a (device_name d) (get_number_of_electrodes r) c w0)
    end.
  - rewrite (add_icephys_electrode_run_none fallback r w d ds Hd Em).
    match goal with
    | |- context [register ?a ?b ?c ?w0] =>
        destruct (register_registered a (device_name d) (get_number_of_electrodes r) c w0)
          as (H1 & H2);
        destruct (register a b c w0) as [w' res]
    end.
    cbn in *. auto.
Qed.

Lemma entries_for_normalized device0 m :
  entries_for r device0 (normalized r device0 m) = entries_for r device0 m.
Proof.
  destruct m as [d|]; [|reflexivity]. apply effective_entries_normalize.
Qed.

(** The second of two calls, on a container that has a device. *)
Lemma add_icephys_electrode_again w d ds m2 :
  devices (nwbfile w) = d :: ds ->
  let w1 := fst (add_icephys_electrode fallback r w) in
  m2 = metadata w1 \/ m2 = metadata w ->
  icephys_electrodes
    (nwbfile (fst (add_icephys_electrode fallback r (with_metadata w1 m2))))
  = icephys_electrodes (nwbfile w1).
Proof.
  intros Hd w1 Hm2.
  destruct (add_icephys_electrode_registered w d ds Hd) as (N1 & M1).
  fold w1 in N1, M1.
  destruct (registered_devices fallback (device_name d) (get_number_of_electrodes r)
              (entries_for r (device_name d) (metadata w)) (nwbfile w) d ds Hd)
    as [ds' Hd1].
  rewrite <- N1 in Hd1.
  destruct (add_icephys_electrode_registered (with_metadata w1 m2) d ds' Hd1)
    as (N2 & _).
  rewrite N2. cbn [with_metadata nwbfile metadata].
  assert (E : entries_for r (device_name d) m2 = entries_for r (device_name d) (metadata w)).
  { destruct Hm2 as [->| ->]; [|reflexivity].
    rewrite M1. apply entries_for_normalized. }
  rewrite E, N1. apply registered_twice.
Qed.

End SecondCall.

Lemma with_metadata_same w : with_metadata w (metadata w) = w.
Proof. destruct w; reflexivity. Qed.

(** C9: requesting an electrode whose name is already in the electrode
    table does nothing; and a second call of [add_icephys_electrode], on the
    metadata dictionary as the first call left it or on the metadata as the
    first call received it, leaves the electrode table unchanged. *)
Theorem add_icephys_electrode_idempotent fallback r w :
  (forall defaults e name,
      requested_name defaults e = Some name ->
      has_electrode name (nwbfile w) = true ->
      create_electrode_from fallback defaults (EntryDict e) w = (w, Return tt))
  /\ (let w1 := fst (add_icephys_electrode fallback r w) in
      icephys_electrodes (nwbfile (fst (add_icephys_electrode fallback r w1)))
      = icephys_electrodes (nwbfile w1)
      /\ icephys_electrodes
           (nwbfile (fst (add_icephys_electrode fallback r
                            (with_metadata w1 (metadata w)))))
         = icephys_electrodes (nwbfile w1)).
Proof.
  split.
  - intros defaults e name Hn He. unfold requested_name in Hn.
    unfold create_electrode_from.
    rewrite bind_ret, bind_index.
    destruct (nth_error defaults 0) as [d0|]; [|discriminate].
    rewrite bind_getitem.
    destruct (md_name d0) as [n0|]; [|discriminate].
    inversion Hn; subst. rewrite bind_get_nwbfile, He. reflexivity.
  - cbv zeta.
    destruct (devices (nwbfile w)) as [|d ds] eqn:Hd.
    + rewrite (add_icephys_electrode_run_ensure fallback r w Hd).
      set (wA := with_nwbfile _ _).
      assert (HdA : devices (nwbfile wA) = [device_from_metadata fallback "Icephys" (metadata w)])
        by (cbn; rewrite Hd; reflexivity).
      split.
      * rewrite <- (with_metadata_same (fst (add_icephys_electrode fallback r wA))) at 1.
        apply (add_icephys_electrode_again fallback r wA _ _ _ HdA). left. reflexivity.
      * apply (add_icephys_electrode_again fallback r wA _ _ _ HdA). right. reflexivity.
    + split.
      * rewrite <- (with_metadata_same (fst (add_icephys_electrode fallback r w))) at 1.
        apply (add_icephys_electrode_again fallback r w _ _ _ Hd). left. reflexivity.
      * apply (add_icephys_electrode_again fallback r w _ _ _ Hd). right. reflexivity.
Qed.

Lemma add_icephys_electrode_idempotent_witness :
  create_electrode_from "DeviceIcephys" (default_electrodes "DeviceIcephys" 4)
    (EntryDict (mkElectrodeMetadata (Some "icephys_electrode_2") None None))
    registered_world
  = (registered_world, Return tt).
Proof.
  apply (proj1 (add_icephys_electrode_idempotent "DeviceIcephys" abf2_reader
                  registered_world)
           (default_electrodes "DeviceIcephys" 4)
           (mkElectrodeMetadata (Some "icephys_electrode_2") None None)
           "icephys_electrode_2");
    vm_compute; reflexivity.
Defined.

End NeoFacts.

(** * Facts about the runs of the recording assembler *)

Module NeoRuns.
Import Neo NeoSpec NeoFacts NeoWriter NeoRunSpec.
#[local] Open Scope string_scope.
#[local] Open Scope py_scope.
#[local] Open Scope list_scope.

(** ** Runs that return or raise *)

Lemma wp_ret {A} (a : A) Q E w : Q a w -> wp (ret a) Q E w.
Proof. exact (fun H => H). Qed.

Lemma wp_raise {A} e (Q : A -> World -> Prop) E w : E w -> wp (raise e) Q E w.
Proof. exact (fun H => H). Qed.

Lemma wp_bind {A B} (m : M A) (k : A -> M B) Q E w :
  wp m (fun a => wp (k a) Q E) E w -> wp (bind m k) Q E w.
Proof. unfold wp, bind. destruct (m w) as [w' [a|e]]; exact (fun H => H). Qed.

Lemma wp_mono {A} (m : M A) (Q Q' : A -> World -> Prop) (E E' : World -> Prop) w :
  wp m Q E w ->
  (forall a w', Q a w' -> Q' a w') -> (forall w', E w' -> E' w') ->
  wp m Q' E' w.
Proof. unfold wp. destruct (m w) as [w' [a|e]]; auto. Qed.

Lemma wp_get_nwbfile Q E w : Q (nwbfile w) w -> wp get_nwbfile Q E w.
Proof. exact (fun H => H). Qed.

Lemma wp_get_metadata Q E w : Q (metadata w) w -> wp get_metadata Q E w.
Proof. exact (fun H => H). Qed.

Lemma wp_the_metadata Q E w :
  match metadata w with Some m => Q m w | None => E w end ->
  wp the_metadata Q E w.
Proof.
  unfold wp, the_metadata, bind, get_metadata.
  destruct (metadata w); exact (fun H => H).
Qed.

Lemma wp_getitem {A} (x : option A) key Q E w :
  match x with Some v => Q v w | None => E w end -> wp (getitem x key) Q E w.
Proof. destruct x; exact (fun H => H). Qed.

Lemma wp_index {A} (l : list A) i Q E w :
  match nth_error l i with Some v => Q v w | None => E w end ->
  wp (index l i) Q E w.
Proof. unfold wp, index. destruct (nth_error l i); exact (fun H => H). Qed.

Lemma wp_assert (b : bool) msg Q E w :
  (if b then Q tt w else E w) -> wp (assert b msg) Q E w.
Proof. destruct b; exact (fun H => H). Qed.

Lemma wp_when (b : bool) m Q E w :
  (if b then wp m Q E w else Q tt w) -> wp (when b m) Q E w.
Proof. destruct b; exact (fun H => H). Qed.

Lemma wp_warn x Q E w : Q tt (emit x w) -> wp (warn x) Q E w.
Proof. exact (fun H => H). Qed.

(** A computation known to keep a relation: whatever it does, the end
    state is related to the start. *)
Lemma wp_stable {A} (R : World -> World -> Prop) (m : M A) Q E w :
  stable R m ->
  (forall w', R w w' -> (forall a, Q a w') /\ E w') ->
  wp m Q E w.
Proof.
  intros Hm H. unfold wp. specialize (Hm w). specialize (H (fst (m w)) Hm).
  destruct (m w) as [w' [a|e]]; cbn in *; apply H.
Qed.

(** A loop with its invariant, which may mention the items done so far. *)
Lemma wp_for_fold {A S} (Inv : list A -> S -> World -> Prop) E
    (body : S -> A -> M S) :
  (forall done x s w, Inv done s w -> wp (body s x) (Inv (done ++ [x])) E w) ->
  forall l done s w, Inv done s w -> wp (for_fold l s body) (Inv (done ++ l)) E w.
Proof.
  intros Hbody. induction l as [|x l IH]; intros done s w H.
  - rewrite app_nil_r. exact H.
  - cbn [for_fold]. apply wp_bind.
    apply (wp_mono _ (Inv (done ++ [x])) _ E E _ (Hbody done x s w H)); [|auto].
    intros s' w' H'. specialize (IH (done ++ [x]) s' w' H').
    rewrite <- app_assoc in IH. exact IH.
Qed.

Lemma wp_for_fold_in {A S} (L : list A) (Inv : list A -> S -> World -> Prop) E
    (body : S -> A -> M S) :
  (forall done x rest s w, L = done ++ x :: rest -> Inv done s w ->
     wp (body s x) (Inv (done ++ [x])) E w) ->
  forall l done s w, L = done ++ l -> Inv done s w ->
    wp (for_fold l s body) (Inv (done ++ l)) E w.
Proof.
  intros Hbody l. induction l as [|x l IH]; intros done s w HL HI.
  - rewrite app_nil_r. exact HI.
  - cbn [for_fold]. apply wp_bind.
    apply (wp_mono _ _ _ _ _ _ (Hbody done x l s w HL HI)); [|auto].
    intros s' w' HI'.
    replace (done ++ x :: l) with ((done ++ [x]) ++ l)
      by (rewrite <- app_assoc; reflexivity).
    apply IH; [rewrite <- app_assoc; exact HL|exact HI'].
Qed.

Lemma wp_get_conversion_from_unit u Q E w :
  (forall ws, Q (conversion_of u) (mkWorld (nwbfile w) (metadata w) ws)) ->
  wp (get_conversion_from_unit u) Q E w.
Proof.
  intros H. unfold wp, get_conversion_from_unit. unfold conversion_of in H.
  destruct w as [f m ws]. cbn [nwbfile metadata] in H.
  repeat match goal with
         | |- context [if ?b then _ else _] => destruct b
         end; exact (H _).
Qed.

Lemma wp_add_intracellular_recording e resp stim Q E w :
  Q (length (rows w)) (with_row w (mkRecording (length (rows w)) e resp stim)) ->
  wp (add_intracellular_recording e resp stim) Q E w.
Proof. exact (fun H => H). Qed.

Lemma wp_add_icephys_simultaneous_recording l Q E w :
  Q (length (groups w))
    (with_nwbfile w
       (mkNWBFile (devices (nwbfile w)) (icephys_electrodes (nwbfile w)) (rows w)
          (groups w ++ [l]) (sessions w))) ->
  wp (add_icephys_simultaneous_recording l) Q E w.
Proof. exact (fun H => H). Qed.

Lemma wp_add_icephys_sequential_recording l st Q E w :
  Q (length (sessions w))
    (with_nwbfile w
       (mkNWBFile (devices (nwbfile w)) (icephys_electrodes (nwbfile w)) (rows w)
          (groups w) (sessions w ++ [mkSequential l st]))) ->
  wp (add_icephys_sequential_recording l st) Q E w.
Proof. exact (fun H => H). Qed.

Lemma wp_detect_n_commands r Q E w :
  (forall w', frame w w' -> Q (n_commands_of r) w') ->
  wp (detect_n_commands r) Q E w.
Proof.
  intros H. unfold wp.
  destruct (detect_n_commands_eq r w) as (w' & Hrun & _).
  pose proof (frame_detect_n_commands r w) as Hf.
  rewrite Hrun in *. apply H, Hf.
Qed.

Ltac wp_step :=
  lazymatch goal with
  | |- wp (bind _ _) _ _ _ => apply wp_bind
  | |- wp (ret _) _ _ _ => apply wp_ret
  | |- wp (raise _) _ _ _ => apply wp_raise
  | |- wp get_nwbfile _ _ _ => apply wp_get_nwbfile
  | |- wp get_metadata _ _ _ => apply wp_get_metadata
  | |- wp the_metadata _ _ ?w =>
      apply wp_the_metadata; destruct (metadata w) eqn:?
  | |- wp (index ?l ?i) _ _ _ =>
      apply wp_index; destruct (nth_error l i) eqn:?
  | |- wp (getitem ?x _) _ _ _ => apply wp_getitem; destruct x eqn:?
  | |- wp (assert ?b _) _ _ _ => apply wp_assert; destruct b eqn:?
  | |- wp (when ?b _) _ _ _ => apply wp_when; destruct b eqn:?
  | |- wp (warn _) _ _ _ => apply wp_warn
  | |- wp (get_conversion_from_unit _) _ _ _ =>
      apply wp_get_conversion_from_unit; intros ?
  | |- wp (add_intracellular_recording _ _ _) _ _ _ =>
      apply wp_add_intracellular_recording
  | |- wp (add_icephys_simultaneous_recording _) _ _ _ =>
      apply wp_add_icephys_simultaneous_recording
  | |- wp (add_icephys_sequential_recording _ _) _ _ _ =>
      apply wp_add_icephys_sequential_recording
  | |- wp (if ?b then _ else _) _ _ _ => destruct b eqn:?
  end.

(** ** The session invariant *)

Lemma valid_indices_mono n n' l : n <= n' -> valid_indices n l -> valid_indices n' l.
Proof.
  intros Hn H. unfold valid_indices in *. rewrite Forall_forall in *.
  intros i Hi. specialize (H i Hi). lia.
Qed.

Lemma recorded_with_row f0 els P w e resp stim :
  recorded f0 els P (nwbfile w) ->
  P (mkRecording (length (rows w)) e resp stim) ->
  recorded f0 els P (nwbfile (with_row w (mkRecording (length (rows w)) e resp stim))).
Proof.
  intros (He & (new & Hr & Hi & Hn) & (gs & Hg & Hv)) HP.
  unfold recorded, rows in *. cbn [nwbfile with_row icephys_electrodes
    intracellular_recordings icephys_simultaneous_recordings].
  split; [exact He|]. split.
  - exists (new ++ [mkRecording (length (intracellular_recordings (nwbfile w))) e resp stim]).
    split; [unfold rows; rewrite Hr, app_assoc; reflexivity|]. split.
    + rewrite map_app, Hi, length_app. cbn [map row_id length].
      rewrite seq_app. cbn [seq]. rewrite Hr, length_app. reflexivity.
    + apply Forall_app. split; [exact Hn|]. constructor; [exact HP|constructor].
  - exists gs. split; [exact Hg|].
    refine (Forall_impl _ _ Hv). intros l. apply valid_indices_mono.
    unfold rows. rewrite length_app. lia.
Qed.

Lemma recorded_with_group f0 els P w l :
  recorded f0 els P (nwbfile w) ->
  valid_indices (length (rows w)) l ->
  recorded f0 els P
    (mkNWBFile (devices (nwbfile w)) (icephys_electrodes (nwbfile w)) (rows w)
       (groups w ++ [l]) (sessions w)).
Proof.
  intros (He & Hrows & (gs & Hg & Hv)) Hl.
  unfold recorded, rows, groups in *. cbn [icephys_electrodes
    intracellular_recordings icephys_simultaneous_recordings].
  split; [exact He|]. split; [exact Hrows|].
  exists (gs ++ [l]). split; [rewrite Hg, app_assoc; reflexivity|].
  apply Forall_app. split; [exact Hv|]. constructor; [exact Hl|constructor].
Qed.

Lemma combine_seq_nth_error {A} (l : list A) x k :
  In x (combine (seq k (length l)) l) ->
  nth_error l (fst x - k) = Some (snd x) /\ k <= fst x.
Proof.
  revert k. induction l as [|a l IH]; intros k Hin; [destruct Hin|].
  cbn in Hin. destruct Hin as [<-|Hin].
  - cbn [fst snd]. rewrite Nat.sub_diag. split; [reflexivity|lia].
  - destruct (IH _ Hin) as [Hn Hk]. split; [|lia].
    replace (fst x - k) with (S (fst x - S k)) by lia. exact Hn.
Qed.

Lemma enumerate_nth_error {A} (l : list A) done x rest :
  enumerate l = done ++ x :: rest -> nth_error l (fst x) = Some (snd x).
Proof.
  unfold enumerate. intros H.
  assert (Hin : In x (combine (seq 0 (length l)) l)).
  { rewrite H. apply in_or_app. right. left. reflexivity. }
  destruct (combine_seq_nth_error _ _ _ Hin) as [Hn _].
  rewrite Nat.sub_0_r in Hn. exact Hn.
Qed.

Lemma nth_error_firstn_some {A} (l : list A) k i x :
  nth_error (firstn k l) i = Some x -> nth_error l i = Some x.
Proof.
  revert k i. induction l as [|a l IH]; intros [|k] [|i] H; cbn in *;
    try discriminate; try exact H. exact (IH _ _ H).
Qed.

Section Loops.
Variables (r : NeoReader) (t c : string) (skip : list nat).
Variables (off : nat) (start : float) (stype : string).
Variables (f0 : NWBFile) (els : list IntracellularElectrode) (n : nat).

#[local] Abbreviation SI :=
  (fun w : World =>
     session_state f0 els (session_row r t c skip start els n) (nwbfile w)).

Lemma wp_record_electrode si locals item w :
  si < n ->
  nth_error els (fst item) = Some (snd item) ->
  SI w -> valid_indices (length (rows w)) (snd locals) ->
  wp (record_electrode r t skip c off start stype si locals item)
    (fun out w' => (SI w' /\ groups w' = groups w)
                   /\ valid_indices (length (rows w')) (snd out))
    SI w.
Proof.
  intros Hsi Hitem HS Hv. destruct locals as [ri recordings], item as [ei electrode].
  cbn [fst snd] in *. unfold record_electrode.
  destruct (existsb (Nat.eqb ei) skip) eqn:Hskip; [apply wp_ret; auto|].
  wp_step. wp_step; [|exact HS].
  wp_step. wp_step. wp_step. wp_step; [|exact HS].
  wp_step. wp_step; [|exact HS].
  match goal with H : nth_error (map channel_units _) _ = Some _ |- _ =>
    rewrite nth_error_map in H;
    destruct (nth_error (signal_channels r) ei) as [ch|] eqn:Hch;
    [cbn in H; injection H as <-|discriminate H]
  end.
  match goal with H : nth_error (map channel_gain _) _ = Some _ |- _ =>
    rewrite nth_error_map, Hch in H; cbn in H; injection H as <-
  end.
  wp_step.
  assert (Hresp : forall w1 stim Q,
    SI w1 -> groups w1 = groups w ->
    valid_indices (length (rows w1)) recordings ->
    match stim with
    | Some s => t <> "izero" /\ stimulus_of r t start si ei electrode s
    | None => t = "izero"
    end ->
    (forall w2 i, (SI w2 /\ groups w2 = groups w)
                  /\ valid_indices (length (rows w2)) (recordings ++ [i]) ->
                  Q i w2 : Prop) ->
    wp (add_intracellular_recording electrode
          (mkSeries s0
             (t ++ "-response-" ++ str02 (si + 1 + off) ++ "-ch-" ++ str ei)
             ("Response to: " ++ stype) electrode
             (H5DataIO (get_analogsignal_chunk r 0 si ei) c)
             (get_signal_t_start r 0 si + start)%float (get_signal_sampling_rate r)
             (conversion_of (channel_units ch) * channel_gain ch)%float nan)
          stim) Q SI w1).
  { intros w1 stim Q [HR Hs] Hg1 Hv1 Hstim HQ.
    apply wp_add_intracellular_recording, HQ. split; [split; [|exact Hg1]|].
    - split; [|exact Hs]. apply recorded_with_row; [exact HR|].
      exists si, ei. split; [exact Hsi|].
      unfold row_of. cbn [recording_electrode recording_response recording_stimulus
        series_conversion series_class series_electrode series_gain
        series_starting_time series_rate series_data].
      repeat split; try assumption; try reflexivity.
      exists ch. split; [exact Hch|reflexivity].
    - unfold rows. cbn [with_row nwbfile intracellular_recordings].
      unfold valid_indices in *. apply Forall_app. split.
      + refine (Forall_impl _ _ Hv1). intros i Hi. rewrite length_app. lia.
      + constructor; [|constructor]. rewrite length_app. cbn. unfold rows. lia. }
  destruct (negb (t =? "izero")) eqn:Ht.
  - apply negb_true_iff, String.eqb_neq in Ht.
    wp_step. wp_step; [|exact HS].
    wp_step. wp_step. wp_step. wp_step; [|exact HS].
    wp_step. wp_step; [|exact HS].
    wp_step. wp_step; [|exact HS].
    apply Hresp; try assumption; try reflexivity.
    + split; [exact Ht|]. unfold stimulus_of.
      cbn [series_conversion series_class series_electrode series_gain
          series_starting_time series_rate series_data].
      repeat split; try assumption; try reflexivity; eauto.
    + intros w2 i H. apply wp_ret. exact H.
  - apply negb_false_iff, String.eqb_eq in Ht.
    apply Hresp; try assumption; try reflexivity.
    intros w2 i H. apply wp_ret. exact H.
Qed.

Lemma wp_record_segment locals si w :
  si < n ->
  SI w -> valid_indices (length (groups w)) (snd locals) ->
  wp (record_segment r t skip c off start stype locals si)
    (fun out w' => SI w' /\ valid_indices (length (groups w')) (snd out))
    SI w.
Proof.
  intros Hsi HS Hv. destruct locals as [ri simultaneous]. cbn [snd] in Hv.
  unfold record_segment. wp_step. wp_step. wp_step.
  set (L := enumerate _).
  pose (Inv := fun (_ : list (nat * IntracellularElectrode)) (s : Z * list nat) w' =>
                 (SI w' /\ groups w' = groups w)
                 /\ valid_indices (length (rows w')) (snd s)).
  assert (Hloop : wp (for_fold L (ri, []) (record_electrode r t skip c off start stype si))
                    (Inv ([] ++ L)) SI w).
  { apply (wp_for_fold_in L Inv); [|reflexivity|].
    - intros done x rest s w1 HL [[HS1 Hg1] Hv1].
      assert (Hx : nth_error els (fst x) = Some (snd x)).
      { apply enumerate_nth_error, nth_error_firstn_some in HL.
        destruct HS as [[He _] _]. rewrite <- He. exact HL. }
      refine (wp_mono _ _ _ _ _ _ (wp_record_electrode si s x w1 Hsi Hx HS1 Hv1)
                _ (fun _ H => H)).
      intros out w2 [[HS2 Hg2] Hv2].
      split; [split; [exact HS2|congruence]|exact Hv2].
    - split; [split; [exact HS|reflexivity]|constructor]. }
  refine (wp_mono _ _ _ _ _ _ Hloop _ (fun _ H => H)).
  intros out w1 [[[HR Hs] Hg] Hv1].
  wp_step. wp_step. wp_step. split.
  - split; [|exact Hs]. apply recorded_with_group; assumption.
  - unfold groups at 1. cbn [with_nwbfile nwbfile icephys_simultaneous_recordings snd].
    apply Forall_app. rewrite length_app, Hg. split.
    + refine (Forall_impl _ _ Hv). intros i Hi. lia.
    + constructor; [cbn; lia|constructor].
Qed.

End Loops.

Lemma wp_fst {A} (m : M A) (G : World -> Prop) w :
  wp m (fun _ => G) G w -> G (fst (m w)).
Proof. unfold wp. destruct (m w) as [w' [a|e]]; exact (fun H => H). Qed.

Lemma session_result_frame r t st c skip w w' :
  frame w w' -> session_result r t st c skip w w'.
Proof.
  intros (Hr & Hg & Hs & _). unfold rows, groups, sessions in *.
  split; [split; [reflexivity|split]|left; exact Hs].
  - exists []. rewrite app_nil_r. repeat split; [exact Hr|constructor].
  - exists []. rewrite app_nil_r. repeat split; [exact Hg|constructor].
Qed.

Lemma session_result_state r t st c skip w w1 w' start stype :
  frame w w1 ->
  session_entry (metadata w1) (length (sessions w1)) = Some (start, stype) ->
  session_state (nwbfile w1) (icephys_electrodes (nwbfile w1))
    (session_row r (effective_type r t) c skip start (icephys_electrodes (nwbfile w1))
       (get_number_of_segments r 0)) (nwbfile w') ->
  session_result r t st c skip w w'.
Proof.
  intros (Hr & Hg & Hs & Hm & _) Hentry [HR Hseq].
  unfold session_result, session_closed. unfold rows, groups, sessions in *.
  assert (He : icephys_electrodes (nwbfile w') = icephys_electrodes (nwbfile w1))
    by apply HR.
  split; [|left; congruence].
  rewrite He.
  destruct HR as (_ & (new & Hn & Hi & HP) & (gs & Hgs & Hv)).
  split; [exact He|]. split.
  - exists new. rewrite <- Hr. repeat split; try assumption.
    refine (Forall_impl _ _ HP). intros row Hrow. exists start, stype.
    split; [|exact Hrow].
    unfold session_entry in *. rewrite <- Hm, <- Hs. exact Hentry.
  - exists gs. rewrite <- Hg. split; assumption.
Qed.

Lemma session_entry_path m icephys sessions session start stype k w :
  metadata w = Some m -> md_Icephys m = Some icephys ->
  md_Sessions icephys = Some sessions -> nth_error sessions k = Some session ->
  relative_session_start_time session = Some start ->
  md_stimulus_type session = Some stype ->
  session_entry (metadata w) k = Some (start, stype).
Proof.
  intros -> Hi Hs Hk Hstart Hst. unfold session_entry, sessions_of.
  rewrite Hi, Hs, Hk, Hstart, Hst. reflexivity.
Qed.

(** The call up to the loops: whatever happens there leaves the recording
    tables and the session metadata as they were; the loops run on the
    effective experiment type and on the session entry found. *)
Lemma wp_add_icephys_recordings fallback r t st skip c
    (Q : unit -> World -> Prop) (E : World -> Prop) w :
  (forall w', frame w w' -> E w') ->
  (forall w2 start stype,
     frame w w2 ->
     session_entry (metadata w2) (length (sessions w2)) = Some (start, stype) ->
     py_in (effective_type r t) ["voltage_clamp"; "current_clamp"; "izero"] = true ->
     (n_commands_of r = 0 \/ n_commands_of r = get_number_of_segments r 0) ->
     wp (out <- for_fold (seq 0 (get_number_of_segments r 0))
                  (last_row_index (nwbfile w2), [])
                  (record_segment r (effective_type r t) skip c
                     (length (groups w2)) start stype) ;;
         add_icephys_sequential_recording (snd out) st ;;
         ret tt) Q E w2) ->
  wp (add_icephys_recordings fallback r t st skip c) Q E w.
Proof.
  intros HE Hloops. unfold add_icephys_recordings.
  wp_step. apply wp_detect_n_commands. intros w1 H1.
  assert (Hprefix : forall Q : string -> World -> Prop,
            (forall w2, frame w w2 ->
               (n_commands_of r = 0 \/ n_commands_of r = get_number_of_segments r 0) ->
               Q (effective_type r t) w2) ->
            wp (if Nat.eqb (n_commands_of r) 0
                then warn (NoCommandData (filename r)) ;; ret "izero"
                else assert (Nat.eqb (n_commands_of r) (get_number_of_segments r 0))
                       (inconsistent_msg (get_number_of_segments r 0) (n_commands_of r)) ;;
                     ret t)
              Q E w1).
  { intros Q' HQ. unfold effective_type in HQ.
    destruct (Nat.eqb (n_commands_of r) 0) eqn:H0.
    - wp_step. wp_step. wp_step. apply HQ.
      + transitivity w1; [exact H1|]. apply (frame_warn _ w1).
      + left. apply Nat.eqb_eq, H0.
    - wp_step. wp_step; [|apply HE, H1]. wp_step. apply HQ; [exact H1|].
      right. apply Nat.eqb_eq. assumption. }
  wp_step. apply Hprefix. clear Hprefix w1 H1. intros w1 H1 Hn.
  wp_step. wp_step; [|apply HE, H1].
  wp_step. wp_step. wp_step.
  apply (wp_stable frame); [apply frame_ensure_electrodes|].
  intros w2 H2. assert (H12 : frame w w2) by (transitivity w1; assumption).
  split; [intros []|apply HE, H12].
  wp_step. wp_step.
  wp_step. wp_step; [|apply HE, H12].
  wp_step. wp_step; [|apply HE, H12].
  wp_step. wp_step; [|apply HE, H12].
  wp_step. wp_step; [|apply HE, H12].
  wp_step. wp_step; [|apply HE, H12].
  wp_step. wp_step; [|apply HE, H12].
  match goal with
  | Hm : metadata w2 = Some ?m, Hi : md_Icephys ?m = Some ?i,
    Hs : md_Sessions ?i = Some ?l, Hk : nth_error ?l _ = Some ?s,
    Ha : relative_session_start_time ?s = Some _, Hb : md_stimulus_type ?s = Some _ |- _ =>
      pose proof (session_entry_path _ _ _ _ _ _ _ _ Hm Hi Hs Hk Ha Hb) as Hentry
  end.
  apply Hloops; first [assumption|reflexivity].
Qed.

Lemma add_icephys_recordings_session fallback r t st skip c w :
  session_result r t st c skip w
    (fst (add_icephys_recordings fallback r t st skip c w)).
Proof.
  apply wp_fst, wp_add_icephys_recordings; [apply session_result_frame|].
  intros w2 start stype H12 Hentry _ _.
  set (els := icephys_electrodes (nwbfile w2)).
  set (n := get_number_of_segments r 0).
  set (SI := fun w' : World =>
               session_state (nwbfile w2) els
                 (session_row r (effective_type r t) c skip start els n) (nwbfile w')).
  assert (Hclose : forall w', SI w' -> session_result r t st c skip w w').
  { intros w'. apply (session_result_state r t st c skip w w2 w' start stype H12 Hentry). }
  assert (H0 : SI w2).
  { split; [|reflexivity]. split; [reflexivity|].
    split; exists []; rewrite app_nil_r; repeat split; constructor. }
  wp_step.
  pose (Inv := fun (done : list nat) (s : Z * list nat) w' =>
                 SI w' /\ valid_indices (length (groups w')) (snd s)).
  match goal with
  | |- wp (for_fold ?L ?s0 ?body) _ _ _ =>
      assert (Hloop : wp (for_fold L s0 body) (Inv ([] ++ L)) SI w2)
  end.
  { apply (wp_for_fold_in (seq 0 n) Inv); [|reflexivity|split; [exact H0|constructor]].
    intros done x rest loc w3 HL [HS3 Hv3].
    apply wp_record_segment; try assumption.
    assert (Hin : In x (seq 0 n)) by (rewrite HL; apply in_or_app; right; left; reflexivity).
    apply in_seq in Hin. lia. }
  refine (wp_mono _ _ _ _ _ _ Hloop _ Hclose).
  intros out w3 [[HR Hs] Hv].
  wp_step. wp_step. wp_step.
  pose proof (Hclose w3 (conj HR Hs)) as [HR' _].
  split.
  - exact HR'.
  - right. exists (snd out). split; [|exact Hv].
    cbn [with_nwbfile nwbfile icephys_sequential_recordings].
    unfold sessions. rewrite Hs. destruct H12 as (_ & _ & H12 & _).
    unfold sessions in H12. rewrite H12. reflexivity.
Qed.

(** X1. In every run of add_icephys_recordings, returning or raising, each
    appended row is the record of one segment and of one channel that is not
    skipped: its electrode is the entry of the electrode table at the
    channel's position, the response and the stimulus refer to that
    electrode, their gain is NaN, the response conversion is the unit factor
    times the channel gain, the stimulus conversion is the unit factor of
    the protocol unit, both start at the segment start plus the session's
    relative start, and a stimulus is present exactly when the effective
    experiment type is not izero. *)
Theorem add_icephys_recordings_rows_described fallback r t st skip c w :
  let w' := fst (add_icephys_recordings fallback r t st skip c w) in
  exists new,
    rows w' = rows w ++ new
    /\ Forall (recorded_row r t c skip (metadata w) (length (sessions w))
                 (icephys_electrodes (nwbfile w'))) new.
Proof.
  cbn zeta.
  destruct (add_icephys_recordings_session fallback r t st skip c w)
    as [(_ & (new & Hr & _ & HP) & _) _].
  exists new. split; assumption.
Qed.

Lemma indexed_session_closed f0 els P st f :
  indexed f0 -> session_closed f0 els P st f -> indexed f.
Proof.
  intros (Hi0 & Hg0 & Hs0) [(_ & (new & Hr & Hi & _) & (gs & Hg & Hv)) Hs].
  assert (Hrows : length (intracellular_recordings f0)
                  <= length (intracellular_recordings f))
    by (rewrite Hr, length_app; lia).
  assert (Hgroups : length (icephys_simultaneous_recordings f0)
                    <= length (icephys_simultaneous_recordings f))
    by (rewrite Hg, length_app; lia).
  assert (Hold : Forall (fun s => valid_indices (length (icephys_simultaneous_recordings f))
                                    (simultaneous_recordings s))
                   (icephys_sequential_recordings f0)).
  { refine (Forall_impl _ _ Hs0). intros s. apply valid_indices_mono, Hgroups. }
  split; [|split].
  - rewrite Hr, map_app, Hi0, Hi, length_app. symmetry. apply seq_app.
  - rewrite Hg. apply Forall_app. split; [|exact Hv].
    refine (Forall_impl _ _ Hg0). intros l. apply valid_indices_mono, Hrows.
  - destruct Hs as [->|(members & -> & Hm)]; [exact Hold|].
    apply Forall_app. split; [exact Hold|]. constructor; [exact Hm|constructor].
Qed.

(** X2. add_icephys_recordings keeps the tables consistent in every run,
    also when it raises half way: rows stay numbered by position, every
    simultaneous recording lists rows that exist and every sequential
    recording lists simultaneous recordings that exist. *)
Theorem add_icephys_recordings_keeps_tables_indexed fallback r t st skip c w :
  indexed (nwbfile w) ->
  indexed (nwbfile (fst (add_icephys_recordings fallback r t st skip c w))).
Proof.
  intros H. eapply indexed_session_closed; [exact H|].
  apply add_icephys_recordings_session.
Qed.

Lemma add_icephys_recordings_keeps_tables_indexed_witness :
  indexed (nwbfile (fst first_append))
  /\ indexed (nwbfile (fst (add_icephys_recordings "DeviceIcephys" abf2_reader
                              "current_clamp" "ramp" [] "gzip" (fst first_append)))).
Proof.
  assert (H : indexed (nwbfile (fst first_append))).
  { vm_compute. repeat constructor. }
  split; [exact H|].
  exact (add_icephys_recordings_keeps_tables_indexed "DeviceIcephys" abf2_reader
           "current_clamp" "ramp" [] "gzip" (fst first_append) H).
Defined.

(** ** The rows of a call that returns *)

Lemma wp_return {A} (m : M A) (G : World -> Prop) w :
  wp m (fun _ => G) anything w -> is_return (snd (m w)) = true -> G (fst (m w)).
Proof.
  unfold wp. destruct (m w) as [w' [a|e]]; cbn; [auto|discriminate].
Qed.

Section Eligible.
Variables (r : NeoReader) (t c : string) (skip : list nat).
Variables (off : nat) (start : float) (stype : string).

Lemma wp_record_electrode_kept si locals item w :
  wp (record_electrode r t skip c off start stype si locals item)
    (fun _ w' =>
       icephys_electrodes (nwbfile w') = icephys_electrodes (nwbfile w)
       /\ exists new, rows w' = rows w ++ new
            /\ map recording_electrode new
               = if kept skip item then [snd item] else [])
    anything w.
Proof.
  destruct locals as [ri recordings], item as [ei electrode].
  unfold record_electrode, kept. cbn [fst snd].
  destruct (existsb (Nat.eqb ei) skip); cbn [negb].
  { apply wp_ret. split; [reflexivity|]. exists []. rewrite app_nil_r. auto. }
  assert (Hadd : forall resp stim w1 (Q : nat -> World -> Prop),
            nwbfile w1 = nwbfile w ->
            (forall i w2, icephys_electrodes (nwbfile w2) = icephys_electrodes (nwbfile w)
                          /\ (exists new, rows w2 = rows w ++ new
                                /\ map recording_electrode new = [electrode]) ->
                          Q i w2) ->
            wp (add_intracellular_recording electrode resp stim) Q anything w1).
  { intros resp stim w1 Q Hw HQ. apply wp_add_intracellular_recording, HQ.
    unfold rows. cbn [with_row nwbfile icephys_electrodes intracellular_recordings].
    unfold rows. rewrite Hw. split; [reflexivity|]. eexists. split; reflexivity. }
  repeat lazymatch goal with
         | |- anything _ => exact I
         | |- wp (add_intracellular_recording _ _ _) _ _ _ =>
             apply Hadd; [reflexivity|intros i w2 H; apply wp_ret; exact H]
         | |- _ => wp_step
         end.
Qed.

Lemma filter_snoc {A} (f : A -> bool) l x :
  filter f (l ++ [x]) = filter f l ++ (if f x then [x] else []).
Proof. rewrite filter_app. cbn. destruct (f x); reflexivity. Qed.

Lemma wp_record_segment_kept locals si w :
  wp (record_segment r t skip c off start stype locals si)
    (fun _ w' =>
       icephys_electrodes (nwbfile w') = icephys_electrodes (nwbfile w)
       /\ exists new, rows w' = rows w ++ new
            /\ map recording_electrode new
               = eligible r skip (icephys_electrodes (nwbfile w)))
    anything w.
Proof.
  destruct locals as [ri simultaneous]. unfold record_segment.
  wp_step. wp_step. wp_step.
  set (L := enumerate _).
  pose (Inv := fun (done : list (nat * IntracellularElectrode)) (s : Z * list nat) w' =>
                 icephys_electrodes (nwbfile w') = icephys_electrodes (nwbfile w)
                 /\ exists new, rows w' = rows w ++ new
                      /\ map recording_electrode new = map snd (filter (kept skip) done)).
  assert (Hloop : wp (for_fold L (ri, []) (record_electrode r t skip c off start stype si))
                    (Inv ([] ++ L)) anything w).
  { apply (wp_for_fold Inv).
    - intros done x s w1 [He (new & Hr & Hm)].
      refine (wp_mono _ _ _ _ _ _ (wp_record_electrode_kept si s x w1) _ (fun _ H => H)).
      intros out w2 [He2 (new2 & Hr2 & Hm2)]. split; [congruence|].
      exists (new ++ new2). split; [rewrite Hr2, Hr, app_assoc; reflexivity|].
      rewrite map_app, Hm, Hm2, filter_snoc, map_app.
      destruct (kept skip x); reflexivity.
    - split; [reflexivity|]. exists []. rewrite app_nil_r. auto. }
  refine (wp_mono _ _ _ _ _ _ Hloop _ (fun _ H => H)).
  intros out w1 [He (new & Hr & Hm)].
  wp_step. wp_step. wp_step.
  cbn [with_nwbfile nwbfile icephys_electrodes]. split; [exact He|].
  exists new. split; [exact Hr|]. rewrite Hm. unfold eligible, L.
  rewrite length_map. reflexivity.
Qed.

End Eligible.

(** X3. When add_icephys_recordings returns, each segment contributed one
    row for every electrode that is among the first
    min(#electrodes, #channels) of the table and not skipped, in table
    order; so the number of new rows is the number of segments times the
    number of such electrodes. *)
Theorem add_icephys_recordings_rows_per_segment fallback r t st skip c w :
  let run := add_icephys_recordings fallback r t st skip c w in
  is_return (snd run) = true ->
  exists new,
    rows (fst run) = rows w ++ new
    /\ map recording_electrode new
       = concat (repeat (eligible r skip (icephys_electrodes (nwbfile (fst run))))
                   (get_number_of_segments r 0)).
Proof.
  cbn zeta. intros Hret.
  apply (wp_return (add_icephys_recordings fallback r t st skip c)
           (fun w' => exists new,
              rows w' = rows w ++ new
              /\ map recording_electrode new
                 = concat (repeat (eligible r skip (icephys_electrodes (nwbfile w')))
                             (get_number_of_segments r 0))) w); [|exact Hret].
  clear Hret. apply wp_add_icephys_recordings; [intros; exact I|].
  intros w2 start stype H12 _ _ _.
  set (els := icephys_electrodes (nwbfile w2)).
  set (n := get_number_of_segments r 0).
  wp_step.
  pose (Inv := fun (done : list nat) (s : Z * list nat) w' =>
                 icephys_electrodes (nwbfile w') = els
                 /\ exists new, rows w' = rows w ++ new
                      /\ map recording_electrode new
                         = concat (repeat (eligible r skip els) (length done))).
  match goal with
  | |- wp (for_fold ?L ?s0 ?body) _ _ _ =>
      assert (Hloop : wp (for_fold L s0 body) (Inv ([] ++ L)) anything w2)
  end.
  { apply (wp_for_fold Inv).
    - intros done x s w1 [He (new & Hr & Hm)].
      refine (wp_mono _ _ _ _ _ _ (wp_record_segment_kept _ _ _ _ _ _ _ s x w1)
                _ (fun _ H => H)).
      intros out w3 [He3 (new3 & Hr3 & Hm3)]. split; [congruence|].
      exists (new ++ new3). split; [rewrite Hr3, Hr, app_assoc; reflexivity|].
      rewrite map_app, Hm, Hm3, He, length_app. cbn [length].
      rewrite repeat_app, concat_app. cbn. rewrite app_nil_r. reflexivity.
    - split; [reflexivity|]. exists []. rewrite app_nil_r.
      destruct H12 as (Hr & _). auto. }
  refine (wp_mono _ _ _ _ _ _ Hloop _ (fun _ H => H)).
  intros out w3 [He (new & Hr & Hm)].
  wp_step. wp_step. wp_step.
  cbn [with_nwbfile nwbfile icephys_electrodes]. unfold rows at 1. cbn [nwbfile intracellular_recordings].
  exists new. split; [exact Hr|]. rewrite Hm, He. cbn [app]. rewrite length_seq. reflexivity.
Qed.

Lemma add_icephys_recordings_rows_per_segment_witness :
  is_return (snd first_append) = true
  /\ exists new,
       rows (fst first_append) = rows fresh_world ++ new
       /\ map recording_electrode new
          = concat (repeat (eligible abf2_reader [1]
                              (icephys_electrodes (nwbfile (fst first_append))))
                      (get_number_of_segments abf2_reader 0)).
Proof.
  split; [vm_compute; reflexivity|].
  apply (add_icephys_recordings_rows_per_segment "DeviceIcephys" abf2_reader
           "voltage_clamp" "step" [1] "gzip" fresh_world).
  vm_compute. reflexivity.
Defined.

(** ** Arguments that are refused *)

(** X4. With as many commands as segments (and not zero), an experiment type
    outside voltage_clamp, current_clamp and izero is refused by the second
    assertion, before anything is written. *)
Theorem add_icephys_recordings_rejects_unknown_type fallback r t st skip c w :
  n_commands_of r <> 0 ->
  n_commands_of r = get_number_of_segments r 0 ->
  py_in t ["voltage_clamp"; "current_clamp"; "izero"] = false ->
  add_icephys_recordings fallback r t st skip c w
  = (w, Raise (AssertionError (experiment_type_msg t))).
Proof.
  intros H0 Hn Ht. unfold add_icephys_recordings.
  destruct (detect_n_commands_eq r w) as [w' [E [_ [_ Hw]]]].
  rewrite (Hw H0) in E. rewrite (bind_run _ _ _ _ _ E).
  apply Nat.eqb_neq in H0. rewrite H0. rewrite <- Hn, Nat.eqb_refl.
  rewrite bind_assoc, bind_assert, bind_ret, bind_assert, Ht. reflexivity.
Qed.

Lemma add_icephys_recordings_rejects_unknown_type_witness :
  add_icephys_recordings "DeviceIcephys" abf2_reader "VoltageClamp" "step" [] "gzip"
    fresh_world
  = (fresh_world, Raise (AssertionError (experiment_type_msg "VoltageClamp"))).
Proof.
  apply (add_icephys_recordings_rejects_unknown_type "DeviceIcephys" abf2_reader
           "VoltageClamp" "step" [] "gzip" fresh_world);
    vm_compute; first [reflexivity|lia|discriminate].
Defined.

Lemma with_metadata_id w m : metadata w = Some m -> with_metadata w (Some m) = w.
Proof. destruct w. cbn. intros ->. reflexivity. Qed.

(** X5. An entry of metadata['Icephys']['Electrodes'] that is no dictionary
    makes add_icephys_electrode raise the assertion error before the loop:
    no electrode is created, also not for the well-formed entries in front
    of it, and the metadata is left as it was. *)
Theorem add_icephys_electrode_rejects_non_dict fallback r w d ds m i l :
  devices (nwbfile w) = d :: ds ->
  metadata w = Some m -> md_Icephys m = Some i -> md_Electrodes i = Some l ->
  forallb is_dict l = false ->
  add_icephys_electrode fallback r w
  = (w, Raise (AssertionError
                 "Expected metadata['Icephys']['Electrodes'] to be a list of dictionaries!")).
Proof.
  intros Hd Hm Hi Hl Hdict.
  rewrite (add_icephys_electrode_run_some fallback r w d ds m Hd Hm).
  unfold effective_entries, normalize. rewrite Hi, Hl.
  destruct l as [|e l]; [discriminate Hdict|].
  rewrite (with_metadata_id _ _ Hm). unfold register.
  rewrite bind_assert, Hdict. reflexivity.
Qed.

Lemma add_icephys_electrode_rejects_non_dict_witness :
  add_icephys_electrode "DeviceIcephys" abf2_reader malformed_world
  = (malformed_world,
     Raise (AssertionError
              "Expected metadata['Icephys']['Electrodes'] to be a list of dictionaries!")).
Proof.
  eapply (add_icephys_electrode_rejects_non_dict "DeviceIcephys" abf2_reader
            malformed_world); reflexivity.
Defined.

(** X6. For a reader without channels the list of defaults is empty, and the
    default values of the first electrode entry are read from defaults[0]
    before the entry is looked at: add_icephys_electrode raises IndexError on
    any non-empty list of electrode dictionaries, however complete they are,
    and creates nothing. *)
Theorem add_icephys_electrode_needs_a_channel fallback r w d ds m i e l :
  signal_channels r = [] ->
  devices (nwbfile w) = d :: ds ->
  metadata w = Some m -> md_Icephys m = Some i ->
  md_Electrodes i = Some (EntryDict e :: l) ->
  forallb is_dict l = true ->
  add_icephys_electrode fallback r w = (w, Raise IndexError).
Proof.
  intros Hc Hd Hm Hi Hl Hdict.
  rewrite (add_icephys_electrode_run_some fallback r w d ds m Hd Hm).
  unfold effective_entries, normalize, get_number_of_electrodes.
  rewrite Hi, Hl, Hc. rewrite (with_metadata_id _ _ Hm). unfold register.
  rewrite bind_assert. cbn [forallb is_dict andb]. rewrite Hdict.
  cbn [for_each length seq default_electrodes map].
  apply bind_run_raise. reflexivity.
Qed.

Lemma add_icephys_electrode_needs_a_channel_witness :
  add_icephys_electrode "DeviceIcephys" no_channels named_electrode_world
  = (named_electrode_world, Raise IndexError).
Proof.
  eapply (add_icephys_electrode_needs_a_channel "DeviceIcephys" no_channels
            named_electrode_world); reflexivity.
Defined.

(** ** The writers *)

Lemma session_entry_frame w w' :
  frame w w' ->
  session_entry (metadata w') (length (sessions w'))
  = session_entry (metadata w) (length (sessions w)).
Proof.
  intros (_ & _ & Hs & Hm & _). unfold session_entry. rewrite Hm, Hs. reflexivity.
Qed.

Lemma wp_add_all_without_session fallback r c t st skip w0 w :
  frame w0 w ->
  session_entry (metadata w0) (length (sessions w0)) = None ->
  wp (add_all_to_nwbfile fallback r c t st skip) (fun _ _ => False) (frame w0) w.
Proof.
  intros H0 Hnone. unfold add_all_to_nwbfile.
  wp_step. wp_step. wp_step.
  apply (wp_stable frame); [apply frame_add_device_from_metadata|].
  intros w1 H1. assert (H01 : frame w0 w1) by (transitivity w; assumption).
  split; [intros []|exact H01].
  wp_step.
  apply (wp_stable frame); [apply frame_add_icephys_electrode|].
  intros w2 H2. assert (H02 : frame w0 w2) by (transitivity w1; assumption).
  split; [intros []|exact H02].
  apply wp_add_icephys_recordings.
  - intros w3 H3. transitivity w2; assumption.
  - intros w3 start stype H3 Hentry.
    rewrite (session_entry_frame w0 w3) in Hentry
      by (transitivity w2; assumption).
    rewrite Hnone in Hentry. discriminate Hentry.
Qed.

Lemma wp_raises {A} (m : M A) (R : World -> Prop) w :
  wp m (fun _ _ => False) R w -> raises (m w) /\ R (fst (m w)).
Proof.
  unfold wp, raises. destruct (m w) as [w' [a|e]]; cbn; [intros []|auto].
Qed.

(** X7. add_all_to_nwbfile needs the entry of the session it is about to add
    in metadata['Icephys']['Sessions']: without it the call raises, whatever
    the reader holds, and the three recording tables are as before (devices
    and electrodes may have been created). *)
Theorem add_all_to_nwbfile_requires_session_metadata fallback r c t st skip w :
  session_entry (metadata w) (length (sessions w)) = None ->
  let run := add_all_to_nwbfile fallback r c t st skip w in
  raises run /\ untouched w (fst run).
Proof.
  intros Hnone. cbn zeta.
  destruct (wp_raises _ _ _
              (wp_add_all_without_session fallback r c t st skip w w
                 ltac:(reflexivity) Hnone)) as [Hr Hf].
  split; [exact Hr|apply frame_untouched, Hf].
Qed.

Lemma add_all_to_nwbfile_requires_session_metadata_witness :
  let w := with_metadata (fst first_append) (Some (get_nwb_metadata abf2_reader None)) in
  let run := add_all_to_nwbfile "DeviceIcephys" abf2_reader "gzip" "voltage_clamp"
               "step" [] w in
  raises run /\ untouched w (fst run).
Proof.
  apply (add_all_to_nwbfile_requires_session_metadata "DeviceIcephys" abf2_reader
           "gzip" "voltage_clamp" "step" []
           (with_metadata (fst first_append) (Some (get_nwb_metadata abf2_reader None)))).
  vm_compute. reflexivity.
Defined.

(** X8. write_neo_to_nwb called with a container and without metadata never
    returns: the default metadata of get_nwb_metadata has no Sessions entry,
    so the call raises for every reader and every container, with the
    recording tables as before, and the caller's metadata is still None. *)
Theorem write_neo_to_nwb_needs_metadata fallback r c t st skip f ws :
  let w := mkWorld f None ws in
  let run := write_neo_to_nwb fallback r c t st skip w in
  raises run /\ untouched w (fst run) /\ metadata (fst run) = None.
Proof.
  cbn zeta. unfold write_neo_to_nwb, with_default_metadata. cbn [metadata nwbfile warnings].
  set (w1 := mkWorld f (Some (get_nwb_metadata r None)) ws).
  destruct (wp_raises _ _ _
              (wp_add_all_without_session fallback r c t st skip w1 w1
                 ltac:(reflexivity) eq_refl)) as [Hr Hf].
  unfold raises in *.
  destruct (add_all_to_nwbfile fallback r c t st skip w1) as [w' res].
  cbn [fst snd] in *. split; [exact Hr|]. split; [|reflexivity].
  destruct Hf as (H1 & H2 & H3 & _). repeat split; assumption.
Qed.

(** ** The electrode registrar only appends *)

Lemma grown_refl f : grown f f.
Proof.
  repeat split; auto.
  - exists []. rewrite app_nil_r. reflexivity.
  - exists []. rewrite app_nil_r. split; [reflexivity|constructor].
Qed.

Lemma grown_trans a b c : grown a b -> grown b c -> grown a c.
Proof.
  intros ((d1 & Hd1) & (e1 & He1 & Hl1) & Hn1 & Hm1 & Hr1 & Hg1 & Hs1)
         ((d2 & Hd2) & (e2 & He2 & Hl2) & Hn2 & Hm2 & Hr2 & Hg2 & Hs2).
  split; [|split; [|split; [|split; [|split; [|split]]]]]; try congruence; auto.
  - exists (d1 ++ d2). rewrite Hd2, Hd1, app_assoc. reflexivity.
  - exists (e1 ++ e2). split; [rewrite He2, He1, app_assoc; reflexivity|].
    apply Forall_app. split; [|exact Hl2].
    refine (Forall_impl _ _ Hl1). intros e He. rewrite Hd2.
    apply in_or_app. left. exact He.
Qed.

#[export] Instance registered_from_preorder : PreOrder registered_from.
Proof.
  split.
  - intros w. apply grown_refl.
  - intros a b c. apply grown_trans.
Qed.

Lemma registered_from_same {A} (m : M A) :
  (forall w, nwbfile (fst (m w)) = nwbfile w) -> stable registered_from m.
Proof. intros H w. unfold registered_from. rewrite H. apply grown_refl. Qed.

Lemma has_device_names name f :
  has_device name f = false -> ~ In name (device_names f).
Proof.
  unfold has_device, device_names. intros H Hin.
  apply in_map_iff in Hin. destruct Hin as (d & <- & Hd).
  assert (E : existsb (fun d0 => device_name d0 =? device_name d) (devices f) = true).
  { apply existsb_exists. exists d. split; [exact Hd|apply String.eqb_refl]. }
  congruence.
Qed.

Lemma has_electrode_names name f :
  has_electrode name f = false -> ~ In name (electrode_names f).
Proof.
  unfold has_electrode, electrode_names. intros H Hin.
  apply in_map_iff in Hin. destruct Hin as (e & <- & He).
  assert (E : existsb (fun e0 => electrode_name e0 =? electrode_name e)
                (icephys_electrodes f) = true).
  { apply existsb_exists. exists e. split; [exact He|apply String.eqb_refl]. }
  congruence.
Qed.

Lemma NoDup_snoc {A} (l : list A) x : NoDup l -> ~ In x l -> NoDup (l ++ [x]).
Proof.
  intros Hl Hx. apply NoDup_app; [exact Hl|repeat constructor; intros []|].
  intros y Hy [<-|[]]. exact (Hx Hy).
Qed.

Lemma registered_from_create_device d : stable registered_from (create_device d).
Proof.
  intros w. unfold create_device. rewrite bind_get_nwbfile.
  destruct (has_device (device_name d) (nwbfile w)) eqn:E; [apply grown_refl|].
  unfold registered_from, grown, device_names, electrode_names.
  cbn [put_nwbfile fst nwbfile devices icephys_electrodes intracellular_recordings
       icephys_simultaneous_recordings icephys_sequential_recordings].
  repeat split; auto.
  - exists [d]. reflexivity.
  - exists []. rewrite app_nil_r. split; [reflexivity|constructor].
  - intros H. rewrite map_app. apply NoDup_snoc; [exact H|].
    apply has_device_names, E.
Qed.

Lemma registered_from_add_device_from_metadata fallback modality m :
  stable registered_from (add_device_from_metadata fallback modality m).
Proof.
  unfold add_device_from_metadata.
  repeat lazymatch goal with
         | |- stable _ (create_device _) => apply registered_from_create_device
         | |- _ => stable_step
         end.
Qed.

(** [device=nwbfile.devices[device_name]] and the creation of the
    electrode. *)
Lemma registered_from_link name description device :
  stable registered_from
    (f <- get_nwbfile ;;
     linked <- getitem (find_device device f) device ;;
     create_icephys_electrode (mkElectrode name description linked)).
Proof.
  intros w. rewrite bind_get_nwbfile, bind_getitem.
  destruct (find_device device (nwbfile w)) as [linked|] eqn:E; [|apply grown_refl].
  unfold create_icephys_electrode. rewrite bind_get_nwbfile.
  cbn [electrode_name].
  destruct (has_electrode name (nwbfile w)) eqn:En; [apply grown_refl|].
  unfold registered_from, grown, device_names, electrode_names.
  cbn [put_nwbfile fst nwbfile devices icephys_electrodes intracellular_recordings
       icephys_simultaneous_recordings icephys_sequential_recordings].
  repeat split; auto.
  - exists []. rewrite app_nil_r. reflexivity.
  - eexists [_]. split; [reflexivity|]. constructor; [|constructor].
    cbn [electrode_device]. unfold find_device in E.
    apply find_some in E. apply E.
  - intros H. rewrite map_app. apply NoDup_snoc; [exact H|].
    apply has_electrode_names, En.
Qed.

Lemma registered_from_setitem_Icephys v : stable registered_from (setitem_Icephys v).
Proof.
  apply registered_from_same. intros w.
  unfold setitem_Icephys, the_metadata, get_metadata, bind.
  destruct (metadata w); reflexivity.
Qed.

Lemma registered_from_setitem_Icephys_Electrodes l :
  stable registered_from (setitem_Icephys_Electrodes l).
Proof.
  apply registered_from_same. intros w.
  unfold setitem_Icephys_Electrodes, the_metadata, get_metadata, bind.
  destruct (metadata w) as [m|]; [|reflexivity].
  cbn. destruct (md_Icephys m); reflexivity.
Qed.

Lemma registered_from_warn x : stable registered_from (warn x).
Proof. apply registered_from_same. reflexivity. Qed.

Lemma registered_from_with_default_dict body :
  stable registered_from body -> stable registered_from (with_default_dict body).
Proof.
  intros H w. unfold with_default_dict.
  destruct (metadata w); [apply H|].
  specialize (H (mkWorld (nwbfile w) (Some empty_dict) (warnings w))).
  destruct (body _) as [w' res]. exact H.
Qed.

Ltac grow_step :=
  lazymatch goal with
  | |- stable _ (warn _) => apply registered_from_warn
  | |- stable _ (create_device _) => apply registered_from_create_device
  | |- stable _ (add_device_from_metadata _ _ _) =>
      apply registered_from_add_device_from_metadata
  | |- stable _ (setitem_Icephys _) => apply registered_from_setitem_Icephys
  | |- stable _ (setitem_Icephys_Electrodes _) =>
      apply registered_from_setitem_Icephys_Electrodes
  | |- stable _ (with_default_dict _) => apply registered_from_with_default_dict
  | |- stable _ (bind get_nwbfile
                   (fun f => bind (getitem (find_device _ f) _) _)) =>
      apply registered_from_link
  | |- _ => stable_step
  end.

Lemma registered_from_create_electrode_from fallback defaults elec :
  stable registered_from (create_electrode_from fallback defaults elec).
Proof. unfold create_electrode_from. repeat grow_step. Qed.

Lemma registered_from_add_icephys_electrode fallback r :
  stable registered_from (add_icephys_electrode fallback r).
Proof.
  unfold add_icephys_electrode.
  repeat lazymatch goal with
         | |- stable _ (create_electrode_from _ _ _) =>
             apply registered_from_create_electrode_from
         | |- _ => grow_step
         end.
Qed.

Lemma find_device_unique d : forall l,
  NoDup (map device_name l) -> In d l ->
  find (fun x => device_name x =? device_name d) l = Some d.
Proof.
  induction l as [|x l IH]; intros Hnd Hin; [destruct Hin|].
  cbn [find]. inversion Hnd as [|? ? Hx Hl]; subst.
  destruct Hin as [->|Hin]; [rewrite String.eqb_refl; reflexivity|].
  destruct (String.eqb_spec (device_name x) (device_name d)) as [E|_].
  - exfalso. apply Hx. rewrite E. apply in_map, Hin.
  - apply IH; assumption.
Qed.

(** X9. add_icephys_electrode only appends, in every run, returning or
    raising: the devices and the electrodes that were in the container are
    still there, in front; the three recording tables are as they were; on
    a container whose devices have distinct names the device names stay
    distinct and every new electrode is linked to the device that the
    container holds under that device's name; electrode names that were
    distinct stay distinct. *)
Theorem add_icephys_electrode_only_appends fallback r w :
  let f := nwbfile w in
  let f' := nwbfile (fst (add_icephys_electrode fallback r w)) in
  NoDup (device_names f) ->
  exists ds es,
    devices f' = devices f ++ ds
    /\ icephys_electrodes f' = icephys_electrodes f ++ es
    /\ NoDup (device_names f')
    /\ Forall (fun e => find_device (device_name (electrode_device e)) f'
                        = Some (electrode_device e)) es
    /\ (NoDup (electrode_names f) -> NoDup (electrode_names f'))
    /\ untouched w (fst (add_icephys_electrode fallback r w)).
Proof.
  cbn zeta. intros Hnd.
  destruct (registered_from_add_icephys_electrode fallback r w)
    as ((ds & Hd) & (es & He & Hl) & Hn & Hm & Hr & Hg & Hs).
  exists ds, es. repeat split; auto.
  refine (Forall_impl _ _ Hl). intros e Hin.
  apply find_device_unique; [apply Hn, Hnd|exact Hin].
Qed.

Lemma add_icephys_electrode_only_appends_witness :
  let f := nwbfile named_electrode_world in
  let f' := nwbfile (fst (add_icephys_electrode "DeviceIcephys" abf2_reader
                            named_electrode_world)) in
  NoDup (device_names f)
  /\ exists ds es,
       devices f' = devices f ++ ds
       /\ icephys_electrodes f' = icephys_electrodes f ++ es
       /\ NoDup (device_names f')
       /\ Forall (fun e => find_device (device_name (electrode_device e)) f'
                           = Some (electrode_device e)) es
       /\ (NoDup (electrode_names f) -> NoDup (electrode_names f'))
       /\ untouched named_electrode_world
            (fst (add_icephys_electrode "DeviceIcephys" abf2_reader
                    named_electrode_world)).
Proof.
  cbn zeta.
  assert (H : NoDup (device_names (nwbfile named_electrode_world))).
  { repeat constructor. intros []. }
  split; [exact H|].
  exact (add_icephys_electrode_only_appends "DeviceIcephys" abf2_reader
           named_electrode_world H).
Defined.

Example add_icephys_electrode_links_sample :
  icephys_electrodes
    (nwbfile (fst (add_icephys_electrode "DeviceIcephys" abf2_reader
                     named_electrode_world)))
  = [mkElectrode "e0" "sharp" (mkDevice "Amplifier" None)].
Proof. reflexivity. Qed.

End NeoRuns.

(** * Facts about the keypoint-moseq writer *)

Module KpmsWriterFacts.
Import Kpms KpmsSpec KpmsFacts KpmsWriter.
#[local] Open Scope nat_scope.
#[local] Open Scope list_scope.

Lemma take_at_none {A} (a : list A) : forall ixs,
  take_at a ixs = None <-> exists i, In i ixs /\ length a <= i.
Proof.
  induction ixs as [|i r IH]; cbn [take_at].
  - split; [discriminate|]. intros (i & [] & _).
  - destruct (nth_error a i) as [v|] eqn:E.
    + destruct (take_at a r) as [vs|].
      * split; [discriminate|]. intros (j & [<-|Hj] & Hl).
        -- apply nth_error_None in Hl. congruence.
        -- assert (H : @None (list A) = None) by reflexivity.
           destruct IH as [_ IH]. discriminate IH. exists j. auto.
      * split; [|reflexivity]. intros _.
        destruct IH as [IH _]. destruct (IH eq_refl) as (j & Hj & Hl).
        exists j. split; [right; exact Hj|exact Hl].
    + split; [|reflexivity]. intros _. exists i. split; [left; reflexivity|].
      apply nth_error_None, E.
Qed.

Lemma take_at_some {A} (a : list A) : forall ixs vs,
  take_at a ixs = Some vs -> map Some vs = map (nth_error a) ixs.
Proof.
  induction ixs as [|i r IH]; cbn [take_at]; intros vs H.
  - injection H as <-. reflexivity.
  - destruct (nth_error a i) as [v|] eqn:E; [|discriminate H].
    destruct (take_at a r) as [vs'|]; [|discriminate H].
    injection H as <-. cbn [map]. rewrite E, (IH vs' eq_refl). reflexivity.
Qed.

Lemma np_max_none width a : np_max (add_1 width a) = None <-> a = [].
Proof. destruct a; cbn; split; congruence. Qed.

Lemma fold_max_le : forall r x v, (v <= x)%Z \/ In v r -> (v <= fold_left Z.max r x)%Z.
Proof.
  induction r as [|y r IH]; intros x v H; cbn [fold_left].
  - destruct H as [H|[]]. exact H.
  - apply IH. destruct H as [H|[<-|H]]; [left; lia|left; lia|right; exact H].
Qed.

Lemma np_max_upper a m v : np_max a = Some m -> In v a -> (v <= m)%Z.
Proof.
  destruct a as [|x r]; [discriminate|]. cbn [np_max]. intros [= <-] [<-|H].
  - apply fold_max_le. left. lia.
  - apply fold_max_le. right. exact H.
Qed.

Lemma wrap_small width z :
  (0 < width)%Z -> (- 2 ^ (width - 1) <= z < 2 ^ (width - 1))%Z -> wrap width z = z.
Proof.
  intros Hw H. unfold wrap.
  assert (E : (2 ^ width = 2 * 2 ^ (width - 1))%Z).
  { rewrite <- Z.pow_succ_r by lia. f_equal. lia. }
  rewrite Z.mod_small; lia.
Qed.

(** The three outcomes of building the syllable events. *)
Lemma syllables_cases width syl ts :
  let ixs := np_where (adjacent_mask syl) in
  let labs := map (label_at syl) ixs in
  syllables width syl ts
  = match take_at ts ixs with
    | None => Raise IndexError
    | Some stamps =>
        match np_max (add_1 width labs) with
        | None => Raise ValueError
        | Some n =>
            Return (mkLabeledEvents "syllable" "Syllable onset times." stamps labs
                      (map (fun i => ("Syllable " ++ Neo.str i)%string) (range n)))
        end
    end.
Proof. cbn zeta. unfold syllables. rewrite dense_syllables_to_events_eq. reflexivity. Qed.

(** X10. The syllable events of write_subject_to_nwb cannot be built for a
    sequence of labels that never changes (empty, one frame, or constant):
    np.max of the empty array of event labels raises ValueError, and this
    is the only way to that error.  IndexError is raised exactly when there
    are fewer time stamps than the position of some change. *)
Theorem syllables_outcome width syl ts :
  (syllables width syl ts = Raise ValueError <-> change_positions syl = [])
  /\ (syllables width syl ts = Raise IndexError
      <-> exists p, In p (change_positions syl) /\ length ts < p).
Proof.
  rewrite syllables_cases, change_positions_shift. cbn zeta.
  set (ixs := np_where (adjacent_mask syl)).
  assert (Hix : (exists p, In p (map S ixs) /\ length ts < p)
                <-> take_at ts ixs = None).
  { rewrite take_at_none. split.
    - intros (p & Hp & Hl). apply in_map_iff in Hp. destruct Hp as (i & <- & Hi).
      exists i. split; [exact Hi|lia].
    - intros (i & Hi & Hl). exists (S i). split; [apply in_map, Hi|lia]. }
  split.
  - destruct (take_at ts ixs) as [stamps|] eqn:Et.
    + destruct (np_max (add_1 width (map (label_at syl) ixs))) as [n|] eqn:En.
      * split; [discriminate|]. intros H.
        apply map_eq_nil in H. rewrite H in En. discriminate En.
      * split; [intros _|reflexivity].
        apply np_max_none, map_eq_nil in En. rewrite En. reflexivity.
    + split; [discriminate|]. intros H. apply map_eq_nil in H.
      rewrite H in Et. discriminate Et.
  - rewrite Hix. destruct (take_at ts ixs) as [stamps|].
    + destruct (np_max _); split; discriminate.
    + split; reflexivity.
Qed.

(** X11. When the syllable events are built, the data are the labels that
    dense_syllables_to_events reports, the time stamps are those of the
    frames it reports, and every event label v that is not negative and
    not the largest value of its integer type finds its name: labels[v] is
    'Syllable v'. *)
Theorem syllables_events width syl ts ev :
  (0 < width)%Z ->
  syllables width syl ts = Return ev ->
  exists ixs,
    dense_syllables_to_events syl = Some (ixs, events_data ev)
    /\ map Some (events_timestamps ev) = map (nth_error ts) ixs
    /\ Forall (fun v => (0 <= v < 2 ^ (width - 1) - 1)%Z ->
                 nth_error (events_labels ev) (Z.to_nat v)
                 = Some ("Syllable " ++ Neo.str (Z.to_nat v))%string)
         (events_data ev).
Proof.
  intros Hw. rewrite syllables_cases. cbn zeta.
  set (ixs := np_where (adjacent_mask syl)).
  destruct (take_at ts ixs) as [stamps|] eqn:Et; [|discriminate].
  destruct (np_max (add_1 width (map (label_at syl) ixs))) as [n|] eqn:En;
    [|discriminate].
  intros [= <-]. exists ixs. cbn [events_data events_timestamps events_labels].
  split; [apply dense_syllables_to_events_eq|].
  split; [apply take_at_some, Et|].
  apply Forall_forall. intros v Hv Hrange.
  assert (Hn : (v + 1 <= n)%Z).
  { apply (np_max_upper _ _ _ En). unfold add_1.
    assert (Hpos : (0 < 2 ^ (width - 1))%Z) by (apply Z.pow_pos_nonneg; lia).
    rewrite <- (wrap_small width (v + 1)) by lia.
    apply (in_map (fun v => wrap width (v + 1))), Hv. }
  unfold range. rewrite nth_error_map, nth_error_seq.
  destruct (Nat.ltb_spec (Z.to_nat v) (Z.to_nat n)) as [_|H]; [reflexivity|lia].
Qed.

Lemma syllables_events_witness :
  (0 < 64)%Z
  /\ exists ev,
       syllables 64 [1; 1; 2; 2; 3]%Z [0; 0.5; 1; 1.5; 2]%float = Return ev
       /\ exists ixs,
            dense_syllables_to_events [1; 1; 2; 2; 3]%Z = Some (ixs, events_data ev)
            /\ map Some (events_timestamps ev)
               = map (nth_error [0; 0.5; 1; 1.5; 2]%float) ixs
            /\ Forall (fun v => (0 <= v < 2 ^ (64 - 1) - 1)%Z ->
                         nth_error (events_labels ev) (Z.to_nat v)
                         = Some ("Syllable " ++ Neo.str (Z.to_nat v))%string)
                 (events_data ev).
Proof.
  split; [lia|]. eexists. split; [vm_compute; reflexivity|].
  apply (syllables_events 64 [1; 1; 2; 2; 3]%Z [0; 0.5; 1; 1.5; 2]%float);
    [lia|vm_compute; reflexivity].
Defined.

Example syllables_sample :
  syllables 64 [1; 1; 2; 2; 3]%Z [0; 0.5; 1; 1.5; 2]%float
  = Return (mkLabeledEvents "syllable" "Syllable onset times." [0.5; 1.5]%float
              [1; 2]%Z ["Syllable 0"; "Syllable 1"; "Syllable 2"]%string)
  /\ syllables 64 [5; 5; 5; 5]%Z [0; 0.5; 1; 1.5]%float = Raise ValueError
  /\ syllables 64 [1; 1; 2; 2; 3]%Z [0; 0.5; 1]%float = Raise IndexError.
Proof. vm_compute. repeat split. Qed.

(** ** The skeleton *)

Lemma list_index_in ub bp :
  Neo.py_in bp ub = true ->
  exists i, list_index ub bp = Some i.
Proof.
  unfold Neo.py_in. induction ub as [|y r IH]; cbn [existsb list_index]; [discriminate|].
  rewrite (String.eqb_sym bp y). destruct (String.eqb y bp); [eauto|].
  cbn [orb]. intros H. destruct (IH H) as [i ->]. eauto.
Qed.

Lemma list_index_first ub : forall bp i,
  list_index ub bp = Some i -> first_position ub i bp.
Proof.
  induction ub as [|y r IH]; intros bp i; cbn [list_index]; [discriminate|].
  destruct (String.eqb_spec y bp) as [->|Hne].
  - intros [= <-]. split; [reflexivity|]. intros j Hj. lia.
  - destruct (list_index r bp) as [k|] eqn:E; [|discriminate].
    intros [= <-]. destruct (IH bp k E) as [Hk Hfirst]. split; [exact Hk|].
    intros [|j] Hj; cbn [nth_error]; [congruence|]. apply Hfirst. lia.
Qed.

Lemma bone_indices_total ub : forall bone,
  all_in ub bone = true ->
  exists edge, bone_indices ub bone = Return edge
               /\ Forall2 (first_position ub) edge bone.
Proof.
  unfold all_in. induction bone as [|bp r IH]; cbn [forallb bone_indices]; intros H.
  - exists []. split; [reflexivity|constructor].
  - apply andb_true_iff in H. destruct H as [Hbp Hr].
    destruct (list_index_in ub bp Hbp) as [i Hi]. rewrite Hi.
    destruct (IH Hr) as (edge & -> & Hedge).
    exists (i :: edge). split; [reflexivity|].
    constructor; [apply list_index_first, Hi|exact Hedge].
Qed.

(** X12. The skeleton that add_to_nwbfile hands to write_subject_to_nwb is
    always built: list.index never raises ValueError, because bones with a
    body part outside use_bodyparts are dropped first.  The edges are, in
    order, the bones whose parts are all in use_bodyparts, each part
    replaced by its first position in use_bodyparts, so that
    use_bodyparts[edge[k]] is bone[k]. *)
Theorem skeleton_maps_bones ub : forall bones,
  exists edges,
    skeleton ub bones = Return edges
    /\ Forall2 (Forall2 (first_position ub)) edges (filter (all_in ub) bones).
Proof.
  induction bones as [|bone r (edges & IH & Hedges)]; cbn [skeleton filter].
  - exists []. split; [reflexivity|constructor].
  - destruct (all_in ub bone) eqn:Hall.
    + destruct (bone_indices_total ub bone Hall) as (edge & -> & Hedge).
      rewrite IH. exists (edge :: edges). split; [reflexivity|].
      constructor; assumption.
    + exists edges. split; assumption.
Qed.

Example skeleton_sample :
  skeleton ["nose"; "neck"; "tail"]%string
    [["nose"; "neck"]; ["neck"; "paw"]; ["tail"; "neck"]]%string
  = Return [[0; 1]; [2; 1]].
Proof. reflexivity. Qed.

End KpmsWriterFacts.

(** * Facts about the SpikeGLX converter *)

Module SpikeGLXFacts.
Import SpikeGLX.
#[local] Open Scope string_scope.
#[local] Open Scope list_scope.

Section Converter.
Variables (Path : Type) (truediv : Path -> string -> Path) (stem : Path -> string).
Variable folder : Path.

#[local] Abbreviation add_stream := (add_stream Path truediv stem folder).
#[local] Abbreviation add_streams := (add_streams Path truediv stem folder).
#[local] Abbreviation interface_for := (interface_for Path truediv stem folder).
#[local] Abbreviation init := (__init__ Path truediv stem folder).

Lemma add_stream_eq cur d s :
  add_stream (cur, d) s
  = match (if marked s then Some (interface_for s) else cur) with
    | Some i => Return (Some i, update Path d s i)
    | None => Raise UnboundLocalError
    end.
Proof.
  unfold SpikeGLX.add_stream, marked, SpikeGLX.interface_for.
  destruct (contains "ap" s), (contains "lf" s), (contains "nidq" s), cur;
    reflexivity.
Qed.

Lemma keys_update d k v :
  keys Path (update Path d k v)
  = if existsb (String.eqb k) (keys Path d) then keys Path d else keys Path d ++ [k].
Proof.
  induction d as [|[k' v'] r IH]; cbn [update keys map fst existsb app]; [reflexivity|].
  rewrite (String.eqb_sym k k').
  destruct (String.eqb k' k); cbn [orb map fst]; [reflexivity|].
  fold (keys Path (update Path r k v)). fold (keys Path r). rewrite IH.
  destruct (existsb (String.eqb k) (keys Path r)); reflexivity.
Qed.

Lemma lookup_update d k v k' :
  lookup Path (update Path d k v) k'
  = if String.eqb k k' then Some v else lookup Path d k'.
Proof.
  induction d as [|[k0 v0] r IH]; cbn [update lookup]; [reflexivity|].
  destruct (String.eqb_spec k0 k) as [->|Hne]; cbn [lookup].
  - destruct (String.eqb k k'); reflexivity.
  - rewrite IH. destruct (String.eqb_spec k0 k') as [->|Hne'].
    + destruct (String.eqb_spec k k'); [congruence|reflexivity].
    + reflexivity.
Qed.

Lemma existsb_eqb_In k l : existsb (String.eqb k) l = true <-> In k l.
Proof.
  rewrite existsb_exists. split.
  - intros (x & Hx & E). apply String.eqb_eq in E. subst. exact Hx.
  - intros H. exists k. split; [exact H|apply String.eqb_refl].
Qed.

#[local] Abbreviation Inv := (loop_invariant Path truediv stem folder).

Lemma add_stream_invariant done cur d s locals' :
  Inv done (cur, d) ->
  add_stream (cur, d) s = Return locals' ->
  Inv (done ++ [s]) locals'.
Proof.
  intros (Hnd & Hkeys & Hown & Hval & Hcur) Hrun.
  rewrite add_stream_eq in Hrun.
  set (now := if marked s then Some (interface_for s) else cur) in Hrun.
  destruct now as [i|] eqn:Enow; [|discriminate Hrun].
  injection Hrun as <-.
  assert (Hi : exists s', In s' (done ++ [s]) /\ marked s' = true
                          /\ i = interface_for s').
  { subst now. destruct (marked s) eqn:Hm.
    - injection Enow as <-. exists s. split; [|auto].
      apply in_or_app. right. left. reflexivity.
    - destruct (Hcur i Enow) as (s' & Hin & Hm' & ->).
      exists s'. split; [apply in_or_app; left; exact Hin|auto]. }
  unfold SpikeGLX.loop_invariant. rewrite keys_update.
  split; [|split; [|split; [|split]]].
  - destruct (existsb (String.eqb s) (keys Path d)) eqn:E; [exact Hnd|].
    apply NoDup_app; [exact Hnd|repeat constructor; intros []|].
    intros x Hx [<-|[]]. apply existsb_eqb_In in Hx. congruence.
  - intros x. destruct (existsb (String.eqb s) (keys Path d)) eqn:E.
    + apply existsb_eqb_In in E. rewrite Hkeys in *. rewrite in_app_iff.
      split; [auto|]. intros [H|[<-|[]]]; assumption.
    + rewrite !in_app_iff, Hkeys. reflexivity.
  - intros x Hx Hm. rewrite lookup_update.
    destruct (String.eqb_spec s x) as [->|Hne].
    + subst now. rewrite Hm in Enow. symmetry. exact Enow.
    + apply in_app_or in Hx. destruct Hx as [Hx|[Hx|[]]]; [|congruence].
      apply Hown; assumption.
  - intros x j. rewrite lookup_update. destruct (String.eqb s x).
    + intros [= <-]. exact Hi.
    + intros H. destruct (Hval x j H) as (s' & Hin & Hm' & ->).
      exists s'. split; [apply in_or_app; left; exact Hin|auto].
  - intros j [= <-]. exact Hi.
Qed.

Lemma add_streams_invariant : forall l done locals locals',
  Inv done locals ->
  add_streams locals l = Return locals' ->
  Inv (done ++ l) locals'.
Proof.
  induction l as [|s r IH]; intros done locals locals' HI Hrun.
  - injection Hrun as <-. rewrite app_nil_r. exact HI.
  - cbn [SpikeGLX.add_streams] in Hrun.
    destruct (add_stream locals s) as [locals1|e] eqn:E; [|discriminate Hrun].
    destruct locals as [cur d].
    replace (done ++ s :: r) with ((done ++ [s]) ++ r)
      by (rewrite <- app_assoc; reflexivity).
    apply (IH _ locals1 _ (add_stream_invariant done cur d s locals1 HI E) Hrun).
Qed.

(** Once an interface is at hand the loop goes through. *)
Lemma add_streams_bound : forall l i d,
  exists locals', add_streams (Some i, d) l = Return locals'.
Proof.
  induction l as [|s r IH]; intros i d; [eexists; reflexivity|].
  cbn [SpikeGLX.add_streams]. rewrite add_stream_eq.
  destruct (marked s); apply IH.
Qed.

(** X13. SpikeGLXConverter.__init__ raises TypeError exactly when streams is
    None or empty, where it should take all available streams: get_streams
    has no return statement, so the loop is run over None.  It raises
    UnboundLocalError exactly when the first stream contains none of 'ap',
    'lf' and 'nidq'; a later stream without any of them is accepted. *)
Theorem converter_init_errors streams :
  (init streams = Raise TypeError <-> streams = None \/ streams = Some [])
  /\ (init streams = Raise UnboundLocalError
      <-> exists s rest, streams = Some (s :: rest) /\ marked s = false).
Proof.
  unfold SpikeGLX.__init__, get_streams.
  destruct streams as [[|s rest]|]; cbn [py_or].
  - split; [split; auto|]. split; [discriminate|]. intros (s & rest & H & _). discriminate H.
  - cbn [SpikeGLX.add_streams]. rewrite add_stream_eq.
    destruct (marked s) eqn:Hm.
    + destruct (add_streams_bound rest (interface_for s)
                  (update Path [] s (interface_for s))) as [[cur d] ->].
      split; split; try discriminate.
      * intros [H|H]; discriminate H.
      * intros (s' & rest' & [= <- <-] & H). congruence.
    + split; split; try discriminate.
      * intros [H|H]; discriminate H.
      * intros _. exists s, rest. auto.
      * reflexivity.
  - split; [split; auto|]. split; [discriminate|]. intros (s & rest & H & _). discriminate H.
Qed.

(** X14. When SpikeGLXConverter.__init__ gets through, the keys of
    data_interfaces are the streams, each once; a stream that contains
    'ap', 'lf' or 'nidq' has the interface of the last of these that it
    contains, where the LFP interface is given the .ap.bin path of the
    probe; and every other stream has an interface made for another
    stream, the one left in the loop variable. *)
Theorem converter_init_result streams d :
  init (Some streams) = Return d ->
  NoDup (keys Path d)
  /\ (forall s, In s (keys Path d) <-> In s streams)
  /\ (forall s, In s streams -> marked s = true ->
                lookup Path d s = Some (interface_for s))
  /\ (forall s i, lookup Path d s = Some i ->
                  exists s', In s' streams /\ marked s' = true
                             /\ i = interface_for s').
Proof.
  unfold SpikeGLX.__init__, get_streams. destruct streams as [|s rest]; [discriminate|].
  cbn [py_or].
  destruct (add_streams (None, []) (s :: rest)) as [[cur d']|e] eqn:E; [|discriminate].
  intros [= <-].
  assert (H0 : Inv [] (None, [])).
  { split; [constructor|]. split; [reflexivity|].
    split; [intros ? []|]. split; intros ? ?; discriminate. }
  destruct (add_streams_invariant (s :: rest) [] _ _ H0 E) as (H1 & H2 & H3 & H4 & _).
  auto.
Qed.

End Converter.

Lemma converter_init_result_witness :
  let streams := ["imec0.ap"; "imec0.lf"; "extra"; "nidq"; "imec0.ap"] in
  let init := __init__ (list string) (fun p s => p ++ [s]) (fun p => last p "")
                ["data"; "run1_g0"] in
  exists d,
    init (Some streams) = Return d
    /\ NoDup (keys _ d)
    /\ (forall s, In s (keys _ d) <-> In s streams)
    /\ (forall s, In s streams -> marked s = true ->
          lookup _ d s
          = Some (interface_for (list string) (fun p s => p ++ [s])
                    (fun p => last p "") ["data"; "run1_g0"] s))
    /\ (forall s i, lookup _ d s = Some i ->
          exists s', In s' streams /\ marked s' = true
            /\ i = interface_for (list string) (fun p s => p ++ [s])
                     (fun p => last p "") ["data"; "run1_g0"] s').
Proof.
  cbn zeta. eexists. split; [reflexivity|].
  apply (converter_init_result (list string) (fun p s => p ++ [s]) (fun p => last p "")
           ["data"; "run1_g0"]
           ["imec0.ap"; "imec0.lf"; "extra"; "nidq"; "imec0.ap"]).
  reflexivity.
Defined.

Example converter_init_sample :
  __init__ (list string) (fun p s => p ++ [s]) (fun p => last p "")
    ["data"; "run1_g0"] (Some ["imec0.ap"; "imec0.lf"; "extra"])
  = Return
      [("imec0.ap",
        SpikeGLXRecordingInterface _
          ["data"; "run1_g0"; "run1_g0_imec0"; "run1_g0_t0.imec0.ap.bin"]);
       ("imec0.lf",
        SpikeGLXLFPInterface _
          ["data"; "run1_g0"; "run1_g0_imec0"; "run1_g0_t0.imec0.ap.bin"]);
       ("extra",
        SpikeGLXLFPInterface _
          ["data"; "run1_g0"; "run1_g0_imec0"; "run1_g0_t0.imec0.ap.bin"])].
Proof. reflexivity. Qed.

End SpikeGLXFacts.
